(** * TakeNote: the note store (noteManager.js) and its coordinator (app.js)

    A shallow embedding of [class NoteManager] and of the parts of
    [class TakenoteApp] that drive it, with the properties of the note
    store stated and proved over that embedding.

    JavaScript strings are sequences of UTF-16 code units; a code unit is
    an [N] and a string a [list N].  The clock, [Math.random] and the
    fate of [localStorage.setItem] are inputs of each call ([Env]). *)

From Stdlib Require Import String Ascii NArith ZArith Lia DecimalString DecimalN.
From stdpp Require Import base option numbers list.

(** ** JavaScript strings and the built-ins the program calls *)

Module JS.

Local Open Scope N_scope.

Abbreviation jsstring := (list N).

(** A string literal: the code units of an ASCII text. *)
Definition lit (s : string) : jsstring :=
  N_of_ascii <$> list_ascii_of_string s.

(** Truthiness of a string value: only the empty string is falsy. *)
Definition truthy (s : jsstring) : bool :=
  match s with [] => false | _ :: _ => true end.

(** [a || b] on strings. *)
Definition or_else (a b : jsstring) : jsstring :=
  if truthy a then a else b.

(** WhiteSpace and LineTerminator code units of ECMAScript: what
    [String.prototype.trim] removes and what [\s] matches. *)
Definition is_whitespace (c : N) : bool :=
  (c =? 9) || (c =? 10) || (c =? 11) || (c =? 12) || (c =? 13) || (c =? 32)
  || (c =? 160) || (c =? 5760) || ((8192 <=? c) && (c <=? 8202))
  || (c =? 8232) || (c =? 8233) || (c =? 8239) || (c =? 8287)
  || (c =? 12288) || (c =? 65279).

Fixpoint trimStart (s : jsstring) : jsstring :=
  match s with
  | [] => []
  | c :: s' => if is_whitespace c then trimStart s' else s
  end.

Definition trimEnd (s : jsstring) : jsstring :=
  reverse (trimStart (reverse s)).

(** [s.trim()] *)
Definition trim (s : jsstring) : jsstring := trimEnd (trimStart s).

(** [s.split(sep)] for a separator of one code unit: never an empty array,
    [''.split(sep)] is [['']]. *)
Fixpoint split (sep : N) (s : jsstring) : list jsstring :=
  match s with
  | [] => [[]]
  | c :: s' =>
      if c =? sep then [] :: split sep s'
      else match split sep s' with
           | l :: ls => (c :: l) :: ls
           | [] => [[c]]
           end
  end.

(** [s.split(/[...]+/)] for a character class [cls]: the separators are the
    maximal runs of code units of the class.  [in_sep] tells that the code
    unit before [s] belonged to a separator. *)
Fixpoint split_runs_from (cls : N -> bool) (in_sep : bool) (s : jsstring)
  : list jsstring :=
  match s with
  | [] => [[]]
  | c :: s' =>
      if cls c then
        if in_sep then split_runs_from cls true s'
        else [] :: split_runs_from cls true s'
      else match split_runs_from cls false s' with
           | l :: ls => (c :: l) :: ls
           | [] => [[c]]
           end
  end.

Definition split_runs (cls : N -> bool) (s : jsstring) : list jsstring :=
  split_runs_from cls false s.

(** [arr.join('')] *)
Definition join (l : list jsstring) : jsstring := concat l.

(** [s.substring(0, n)] *)
Definition substring0 (n : nat) (s : jsstring) : jsstring := take n s.

(** [s.substr(start, len)] for non-negative arguments. *)
Definition substr (start len : nat) (s : jsstring) : jsstring :=
  take len (drop start s).

(** [s.endsWith(suffix)] *)
Definition endsWith (s suffix : jsstring) : bool :=
  bool_decide (drop (length s - length suffix) s = suffix).

(** [arr.includes(x)] on an array of strings. *)
Definition includes (l : list jsstring) (x : jsstring) : bool :=
  bool_decide (x ∈ l).

(** [s.toLowerCase()] on the code units A-Z; the other code units are kept.
    (Of the code units outside A-Z none lowercases to a letter of [.txt],
    [.md] or to an ASCII letter or digit, which is all the callers test.) *)
Definition lower (c : N) : N :=
  if (65 <=? c) && (c <=? 90) then c + 32 else c.

Definition toLowerCase (s : jsstring) : jsstring := lower <$> s.

(** [String(n)] for a non-negative integer below 10^21: its decimal digits. *)
Definition of_number (n : N) : jsstring :=
  lit (NilEmpty.string_of_uint (N.to_uint n)).

(** [content.replace(/<[^>]*>/g, '')]: every stretch from a [<] to the next
    [>] is removed.  [open] holds the code units read since an unmatched
    [<] (they stay when no [>] follows). *)
Fixpoint replace_tags_from (open : option jsstring) (s : jsstring) : jsstring :=
  match s with
  | [] => match open with Some buf => buf | None => [] end
  | c :: s' =>
      match open with
      | None =>
          if c =? 60 then replace_tags_from (Some [c]) s'
          else c :: replace_tags_from None s'
      | Some buf =>
          if c =? 62 then replace_tags_from None s'
          else replace_tags_from (Some (buf ++ [c])) s'
      end
  end.

Definition replace_tags (s : jsstring) : jsstring := replace_tags_from None s.

(** [filename.replace(/\.[^/.]+$/, '')]: a final extension, that is a dot
    followed to the end of the string by one or more code units other than
    [/] and [.], is removed.  The scan runs over the reversed string. *)
Definition ext_char (c : N) : bool := negb ((c =? 47) || (c =? 46)).

Fixpoint span_ext (r : jsstring) : jsstring * jsstring :=
  match r with
  | [] => ([], [])
  | c :: r' =>
      if ext_char c then let '(e, rest) := span_ext r' in (c :: e, rest)
      else ([], r)
  end.

Definition replace_extension (s : jsstring) : jsstring :=
  match span_ext (reverse s) with
  | (_ :: _, dot :: rest) => if dot =? 46 then reverse rest else s
  | _ => s
  end.

(** [s.replace(/[^a-z0-9]/gi, '_')] *)
Definition alnum (c : N) : bool :=
  ((97 <=? c) && (c <=? 122)) || ((65 <=? c) && (c <=? 90))
  || ((48 <=? c) && (c <=? 57)).

Definition replace_non_alnum (s : jsstring) : jsstring :=
  (fun c => if alnum c then c else 95) <$> s.

(** [new Date(ms).toISOString()] for a time value [ms] (milliseconds since
    the epoch, not before it): the proleptic Gregorian date in UTC,
    [YYYY-MM-DDTHH:mm:ss.sssZ], with the expanded [+YYYYYY] year beyond
    year 9999. *)
Definition pad (width : nat) (n : N) : jsstring :=
  let d := of_number n in
  replicate (width - length d) 48 ++ d.

Definition civil_from_days (days : N) : N * N * N :=
  let z := days + 719468 in
  let era := z / 146097 in
  let doe := z - era * 146097 in
  let yoe := (doe - doe / 1460 + doe / 36524 - doe / 146096) / 365 in
  let doy := doe - (365 * yoe + yoe / 4 - yoe / 100) in
  let mp := (5 * doy + 2) / 153 in
  let d := doy - (153 * mp + 2) / 5 + 1 in
  let m := if mp <? 10 then mp + 3 else mp - 9 in
  let y := yoe + era * 400 + (if m <=? 2 then 1 else 0) in
  (y, m, d).

Definition toISOString (ms : N) : jsstring :=
  let '(y, m, d) := civil_from_days (ms / 86400000) in
  let t := ms mod 86400000 in
  (if y <=? 9999 then pad 4 y else 43 :: pad 6 y)
  ++ lit "-" ++ pad 2 m ++ lit "-" ++ pad 2 d ++ lit "T"
  ++ pad 2 (t / 3600000) ++ lit ":" ++ pad 2 (t / 60000 mod 60) ++ lit ":"
  ++ pad 2 (t / 1000 mod 60) ++ lit "." ++ pad 3 (t mod 1000) ++ lit "Z".

End JS.

Import JS.

(** ** The browser's DOM, as far as the program uses it

    The program converts between markup and text through a detached
    [div]: [div.innerHTML = s; div.textContent] and
    [div.textContent = s; div.innerHTML].  The browser is not part of the
    program; what is here is a model of its parser and serialiser, not of
    code of the repository.  It covers the fragments the program writes
    and reads back: start and end tags without [>] inside attribute values,
    text, and the character references [&amp;] [&lt;] [&gt;] [&nbsp;]
    [&quot;] with their semicolon.  It does not cover comments, elements
    whose content is raw text ([script], [style], [textarea] and the like),
    numeric references, other named references, or the line feed dropped
    after [<pre>]: on such content the text of a real browser may differ
    from [text_from]. *)

Module DOM.

Local Open Scope N_scope.

(** Newline normalisation of the parser's input stream: CR LF and a lone CR
    become LF. *)
Fixpoint normalize_newlines (s : jsstring) : jsstring :=
  match s with
  | [] => []
  | c :: s' =>
      if c =? 13 then
        10 :: match s' with
              | c' :: s'' =>
                  if c' =? 10 then normalize_newlines s''
                  else normalize_newlines s'
              | [] => []
              end
      else c :: normalize_newlines s'
  end.

Inductive tokenizer_state :=
  | Data (skip : nat)   (* in text; [skip] code units of a reference remain *)
  | TagOpen             (* after [<] *)
  | Tag.                (* inside a tag, up to the next [>] *)

Definition references : list (jsstring * N) :=
  [ (lit "amp;", 38); (lit "lt;", 60); (lit "gt;", 62);
    (lit "nbsp;", 160); (lit "quot;", 34) ].

(** The character reference that starts right after an [&], if any: the
    code unit it denotes and the length of its name. *)
Definition reference (s : jsstring) : option (N * nat) :=
  (fun r => (r.2, length r.1)) <$>
    (snd <$> list_find (fun r : jsstring * N => take (length r.1) s = r.1)
                       references).

(** After [<]: a letter, [/], [!] or [?] opens markup. *)
Definition opens_markup (c : N) : bool :=
  ((97 <=? c) && (c <=? 122)) || ((65 <=? c) && (c <=? 90))
  || (c =? 47) || (c =? 33) || (c =? 63).

(** The text of the tree the parser builds: tags are dropped, references
    decoded, U+0000 ignored. *)
Fixpoint text_from (st : tokenizer_state) (s : jsstring) : jsstring :=
  match s with
  | [] => match st with TagOpen => [60] | _ => [] end
  | c :: s' =>
      let data :=
        if c =? 60 then text_from TagOpen s'
        else if c =? 38 then
          match reference s' with
          | Some (ch, k) => ch :: text_from (Data k) s'
          | None => c :: text_from (Data 0) s'
          end
        else if c =? 0 then text_from (Data 0) s'
        else c :: text_from (Data 0) s' in
      match st with
      | Data 0 => data
      | Data (S k) => text_from (Data k) s'
      | TagOpen => if opens_markup c then text_from Tag s' else 60 :: data
      | Tag => if c =? 62 then text_from (Data 0) s' else text_from Tag s'
      end
  end.

(** [div.innerHTML = html; div.textContent] *)
Definition textContent_of_innerHTML (html : jsstring) : jsstring :=
  text_from (Data 0) (normalize_newlines html).

(** Serialisation of one code unit of a text node. *)
Definition escape (c : N) : jsstring :=
  if c =? 38 then lit "&amp;"
  else if c =? 60 then lit "&lt;"
  else if c =? 62 then lit "&gt;"
  else if c =? 160 then lit "&nbsp;"
  else [c].

(** [div.textContent = text; div.innerHTML] *)
Definition innerHTML_of_textContent (text : jsstring) : jsstring :=
  concat (escape <$> text).

End DOM.

(** ** The note store: [class NoteManager] *)

Module NoteManager.

Record Note := {
  id : jsstring;
  title : jsstring;
  content : jsstring;
  createdAt : jsstring;
  updatedAt : jsstring
}.

#[export] Instance Note_eq_dec : EqDecision Note.
Proof. solve_decision. Defined.

(** The text under the key [takenote-notes], as far as a store can be
    built from it.  [JsonNotes l] is what the program itself writes there,
    [JSON.stringify(this.notes)] for an array [l] of notes, which
    [JSON.parse] reads back as the same array.  [EmptyText] is the empty
    string, which [if (savedNotes)] skips like a missing item.
    [Unparseable] is a text, not empty, that [JSON.parse] rejects: it throws
    before [this.notes] is assigned, and the [catch] branch runs on the
    empty collection.  A text that [JSON.parse] reads as anything else
    ([null], a number, a string, an object, an array of other things) has
    no counterpart here: on it [this.notes] is assigned a value that is not
    an array of notes, and the constructor throws (the [catch] branch's
    [createNote] fails on [this.notes.unshift]) or leaves a collection that
    no later call can use. *)
Inductive NotesItem :=
  | JsonNotes (l : list Note)
  | EmptyText
  | Unparseable.

(** [localStorage], with the number of [setItem] calls made so far. *)
Record LocalStorage := {
  takenote_notes : option NotesItem;
  takenote_active_id : option jsstring;
  setItem_calls : nat
}.

(** What [localStorage.setItem] does during one [saveNotesToStorage]:
    both calls succeed, the first throws, or the second throws. *)
Inductive WriteOutcome := WriteOk | ThrowsAtNotes | ThrowsAtActiveId.

(** What the environment answers during one call of a store method:
    [Date.now()], the successive [new Date()] readings,
    [Math.random().toString(36)], and the outcome of the writes. *)
Record Env := {
  dateNow : N;
  newDate1 : N;
  newDate2 : N;
  random36 : jsstring;
  setItem : WriteOutcome
}.

Record Store := {
  notes : list Note;
  activeNoteId : option jsstring;   (* [None] is [null] *)
  localStorage : LocalStorage
}.

(** The object passed to [updateNote]: the own properties it may carry. *)
Record Updates := {
  upd_id : option jsstring;
  upd_title : option jsstring;
  upd_content : option jsstring;
  upd_createdAt : option jsstring;
  upd_updatedAt : option jsstring
}.

Definition no_updates : Updates :=
  {| upd_id := None; upd_title := None; upd_content := None;
     upd_createdAt := None; upd_updatedAt := None |}.

Definition generateId (e : Env) : jsstring :=
  lit "note_" ++ of_number (dateNow e) ++ lit "_" ++ substr 2 9 (random36 e).

Definition saveNotesToStorage (w : WriteOutcome) (st : Store) : Store :=
  let ls := localStorage st in
  let ls' :=
    match w with
    | WriteOk =>
        {| takenote_notes := Some (JsonNotes (notes st));
           takenote_active_id := Some (default [] (activeNoteId st));
           setItem_calls := S (S (setItem_calls ls)) |}
    | ThrowsAtNotes =>
        {| takenote_notes := takenote_notes ls;
           takenote_active_id := takenote_active_id ls;
           setItem_calls := S (setItem_calls ls) |}
    | ThrowsAtActiveId =>
        {| takenote_notes := Some (JsonNotes (notes st));
           takenote_active_id := takenote_active_id ls;
           setItem_calls := S (S (setItem_calls ls)) |}
    end in
  {| notes := notes st; activeNoteId := activeNoteId st; localStorage := ls' |}.

(** [createNote(title = 'Untitled Note', content = '')]: [None] is an
    omitted argument. *)
Definition createNote (e : Env) (title content : option jsstring) (st : Store)
  : Note * Store :=
  let note :=
    {| id := generateId e;
       title := default (lit "Untitled Note") title;
       content := default [] content;
       createdAt := toISOString (newDate1 e);
       updatedAt := toISOString (newDate2 e) |} in
  (note,
   saveNotesToStorage (setItem e)
     {| notes := note :: notes st;
        activeNoteId := Some (id note);
        localStorage := localStorage st |}).

(** [this.notes.findIndex(note => note.id === id)], with the note found. *)
Definition findIndex (i : jsstring) (st : Store) : option (nat * Note) :=
  list_find (fun note => id note = i) (notes st).

Definition getNoteById (i : jsstring) (st : Store) : option Note :=
  snd <$> findIndex i st.

Definition getActiveNote (st : Store) : option Note :=
  match activeNoteId st with
  | Some a => if truthy a then getNoteById a st else None
  | None => None
  end.

(** [{...note, ...updates, updatedAt: new Date().toISOString()}] *)
Definition merge (note : Note) (u : Updates) (now : N) : Note :=
  {| id := default (id note) (upd_id u);
     title := default (title note) (upd_title u);
     content := default (content note) (upd_content u);
     createdAt := default (createdAt note) (upd_createdAt u);
     updatedAt := toISOString now |}.

Definition updateNote (e : Env) (i : jsstring) (u : Updates) (st : Store)
  : option Note * Store :=
  match findIndex i st with
  | Some (noteIndex, note) =>
      let note' := merge note u (newDate1 e) in
      (Some note',
       saveNotesToStorage (setItem e)
         {| notes := <[noteIndex := note']> (notes st);
            activeNoteId := activeNoteId st;
            localStorage := localStorage st |})
  | None => (None, st)
  end.

Definition updateNoteTitle (e : Env) (i newTitle : jsstring) (st : Store)
  : option Note * Store :=
  match findIndex i st with
  | Some (noteIndex, note) =>
      let note' :=
        {| id := id note;
           title := or_else (trim newTitle) (lit "Untitled Note");
           content := content note;
           createdAt := createdAt note;
           updatedAt := toISOString (newDate1 e) |} in
      (Some note',
       saveNotesToStorage (setItem e)
         {| notes := <[noteIndex := note']> (notes st);
            activeNoteId := activeNoteId st;
            localStorage := localStorage st |})
  | None => (None, st)
  end.

(** [split] never yields an empty array, so index 0 is always there. *)
Definition extractFirstLineAsTitle (content : jsstring) : jsstring :=
  if negb (truthy content) then []
  else
    let plainText := trim (replace_tags content) in
    if negb (truthy plainText) then []
    else
      let firstLine := trim (default [] (split 10 plainText !! 0%nat)) in
      or_else firstLine (lit "Untitled Note").

Definition updateNoteTitleFromContent (e : Env) (i content : jsstring)
  (st : Store) : Store :=
  let firstLine := extractFirstLineAsTitle content in
  if truthy firstLine then
    (updateNote e i
       {| upd_id := None;
          upd_title :=
            Some (substring0 50 firstLine
                  ++ (if (50 <? length firstLine)%nat then lit "..." else []));
          upd_content := Some content;
          upd_createdAt := None; upd_updatedAt := None |} st).2
  else
    (updateNote e i
       {| upd_id := None; upd_title := None; upd_content := Some content;
          upd_createdAt := None; upd_updatedAt := None |} st).2.

Definition deleteNote (e : Env) (i : jsstring) (st : Store) : bool * Store :=
  match findIndex i st with
  | Some (noteIndex, _) =>
      let notes' := delete noteIndex (notes st) in
      let active' :=
        if decide (activeNoteId st = Some i) then
          match notes' with
          | first :: _ => Some (id first)
          | [] => None
          end
        else activeNoteId st in
      (true,
       saveNotesToStorage (setItem e)
         {| notes := notes'; activeNoteId := active';
            localStorage := localStorage st |})
  | None => (false, st)
  end.

Definition setActiveNote (i : jsstring) (st : Store) : option Note * Store :=
  match getNoteById i st with
  | Some note =>
      (Some note,
       {| notes := notes st; activeNoteId := Some i;
          localStorage := localStorage st |})
  | None => (None, st)
  end.

Definition getAllNotes (st : Store) : list Note := notes st.

Definition welcome_title : jsstring := lit "Welcome to takenote".

Definition welcome_content : jsstring :=
  lit "<p>Welcome to takenote! This is your first note.</p><p>You can:</p><ul><li>Format text with the toolbar</li><li>Create new notes</li><li>Upload and download files</li><li>And much more!</li></ul>".

Definition welcome_content_on_error : jsstring :=
  lit "<p>Welcome to takenote! Start taking notes.</p>".

Definition loadNotesFromStorage (e : Env) (st : Store) : Store :=
  let ls := localStorage st in
  match takenote_notes ls with
  | Some Unparseable =>
      (* JSON.parse throws: the catch branch *)
      (createNote e (Some welcome_title) (Some welcome_content_on_error) st).2
  | savedNotes =>
      let st1 :=
        match savedNotes with
        | Some (JsonNotes l) =>
            {| notes := l; activeNoteId := activeNoteId st;
               localStorage := ls |}
        | _ => st   (* no item, or the empty string: [savedNotes] is falsy *)
        end in
      let savedActiveId := default [] (takenote_active_id ls) in
      let st2 :=
        if truthy savedActiveId && bool_decide (is_Some (getNoteById savedActiveId st1))
        then {| notes := notes st1; activeNoteId := Some savedActiveId;
                localStorage := ls |}
        else
          match notes st1 with
          | first :: _ =>
              {| notes := notes st1; activeNoteId := Some (id first);
                 localStorage := ls |}
          | [] => st1
          end in
      match notes st2 with
      | [] => (createNote e (Some welcome_title) (Some welcome_content) st2).2
      | _ :: _ => st2
      end
  end.

(** [new NoteManager()] over the browser's storage [ls]. *)
Definition new_NoteManager (e : Env) (ls : LocalStorage) : Store :=
  loadNotesFromStorage e
    {| notes := []; activeNoteId := None; localStorage := ls |}.

Definition sanitizeFilename (filename : jsstring) : jsstring :=
  toLowerCase (replace_non_alnum filename).

Record Export := {
  exp_title : jsstring;
  exp_content : jsstring;
  exp_filename : jsstring
}.

(** [innerText] of an element that is not rendered is its [textContent]. *)
Definition exportNoteAsText (i : jsstring) (st : Store) : option Export :=
  match getNoteById i st with
  | None => None
  | Some note =>
      let textContent := DOM.textContent_of_innerHTML (content note) in
      let plainText := or_else textContent (or_else textContent []) in
      Some {| exp_title := title note;
              exp_content := plainText;
              exp_filename := sanitizeFilename (title note) ++ lit ".txt" |}
  end.

Definition escapeHtml (text : jsstring) : jsstring :=
  DOM.innerHTML_of_textContent text.

(** [importTextContent(content, filename = '')] *)
Definition importTextContent (e : Env) (content : jsstring)
  (filename : option jsstring) (st : Store) : Note * Store :=
  let filename := default [] filename in
  let title :=
    if truthy filename then replace_extension filename
    else lit "Imported Note" in
  let htmlContent :=
    join ((fun line => lit "<p>" ++ escapeHtml line ++ lit "</p>")
            <$> filter (fun line => (0 < length line)%nat)
                       (trim <$> split 10 content)) in
  createNote e (Some title) (Some (or_else htmlContent (lit "<p></p>"))) st.

Record Stats := { words : nat; characters : nat; sentences : nat }.

(** The class [[.!?]] *)
Definition sentence_end (c : N) : bool :=
  (c =? 46)%N || (c =? 33)%N || (c =? 63)%N.

Definition getNoteStats (content : jsstring) : Stats :=
  if negb (truthy content) then
    {| words := 0; characters := 0; sentences := 0 |}
  else
    let textContent := DOM.textContent_of_innerHTML content in
    let plainText := or_else textContent (or_else textContent []) in
    {| words :=
         if truthy (trim plainText)
         then length (split_runs is_whitespace (trim plainText)) else 0;
       characters := length plainText;
       sentences :=
         if truthy (trim plainText)
         then length (filter (fun s => (0 < length (trim s))%nat)
                             (split_runs sentence_end plainText))
         else 0 |}.

End NoteManager.

(** ** The coordinator: [class TakenoteApp] *)

Module TakenoteApp.

Import NoteManager.

(** A [File] as the upload handler reads it. *)
Record File := { name : jsstring; type : jsstring }.

(** What the coordinator does to its collaborators, in order. *)
Inductive Event :=
  | SaveToStore (i content : jsstring)    (* updateNoteTitleFromContent *)
  | EditorSetContent (content : jsstring)
  | EditorFocus
  | UpdateUI
  | UpdateStatusCounters (stats : Stats)
  | ShowToast (message : jsstring)
  | ShowErrorMessage (message : jsstring)
  | ShowFileUploadFeedback (filename : jsstring)
  | ReadAsText (file : File).

(** Modelled from the spec: [class Editor] (editor.js) is not among the
    sources; the spec describes the editing surface as a black box with
    get and set of its content and a change notification.  [editor] is the
    content it holds: [getContent()] reads it, [setContent(c)] replaces
    it, and an edit by the user replaces it and notifies the coordinator.
    [autoSaveTimeout] is the field of that name, the id that the last
    [setTimeout] returned ([None] is [null]); [timers] are the browser's
    timers that the coordinator has set and that have neither been
    cancelled nor run. *)
Record App := {
  noteManager : Store;
  currentNoteId : option jsstring;
  editor : jsstring;
  autoSaveTimeout : option nat;  (* the id of the last timer set *)
  timers : list nat;             (* the timers set and still pending *)
  events : list Event
}.

Definition emit (evs : list Event) (app : App) : App :=
  {| noteManager := noteManager app; currentNoteId := currentNoteId app;
     editor := editor app; autoSaveTimeout := autoSaveTimeout app;
     timers := timers app; events := events app ++ evs |}.

Definition updateUI (app : App) : App := emit [UpdateUI] app.

Definition editor_setContent (c : jsstring) (app : App) : App :=
  emit [EditorSetContent c]
    {| noteManager := noteManager app; currentNoteId := currentNoteId app;
       editor := c; autoSaveTimeout := autoSaveTimeout app;
       timers := timers app; events := events app |}.

Definition with_store (nm : Store) (cur : option jsstring) (app : App) : App :=
  {| noteManager := nm; currentNoteId := cur; editor := editor app;
     autoSaveTimeout := autoSaveTimeout app; timers := timers app;
     events := events app |}.

Definition createNewNote (e : Env) (app : App) : App :=
  let '(newNote, nm) := createNote e None None (noteManager app) in
  let app := with_store nm (Some (id newNote)) app in
  let app := editor_setContent (lit "<p><br></p>") app in
  let app := updateUI app in
  emit [EditorFocus; ShowToast (lit "New note created!")] app.

Definition loadInitialNote (e : Env) (app : App) : App :=
  match getActiveNote (noteManager app) with
  | Some activeNote =>
      editor_setContent (content activeNote)
        (with_store (noteManager app) (Some (id activeNote)) app)
  | None => createNewNote e app
  end.

(** [!this.currentNoteId]: [null] and the empty string are falsy. *)
Definition is_set (cur : option jsstring) : bool :=
  match cur with Some i => truthy i | None => false end.

Definition saveCurrentNote (e : Env) (app : App) : App :=
  match currentNoteId app with
  | Some cur =>
      if truthy cur then
        let content := editor app in
        let nm := updateNoteTitleFromContent e cur content (noteManager app) in
        updateUI (emit [SaveToStore cur content]
                    (with_store nm (currentNoteId app) app))
      else app
  | None => app
  end.

Definition switchToNote (e : Env) (noteId : jsstring) (app : App) : App :=
  match getNoteById noteId (noteManager app) with
  | None => app
  | Some note =>
      let app :=
        if is_set (currentNoteId app)
           && negb (bool_decide (currentNoteId app = Some noteId))
        then saveCurrentNote e app else app in
      let nm := (setActiveNote noteId (noteManager app)).2 in
      let app := with_store nm (Some noteId) app in
      let app := editor_setContent (content note) app in
      let app := updateUI app in
      emit [EditorFocus] app
  end.

(** [deleteNote(noteId, title)]: [e] serves the store's delete, [e'] the
    note created when none is left. *)
Definition deleteNote (e e' : Env) (noteId : jsstring) (app : App) : App :=
  let '(wasDeleted, nm) := NoteManager.deleteNote e noteId (noteManager app) in
  let app := with_store nm (currentNoteId app) app in
  if wasDeleted then
    if bool_decide (Some noteId = currentNoteId app) then
      match getActiveNote (noteManager app) with
      | Some newActiveNote =>
          let app := with_store (noteManager app) (Some (id newActiveNote)) app in
          let app := editor_setContent (content newActiveNote) app in
          let app := updateUI app in
          emit [ShowToast (lit "Note deleted successfully!")] app
      | None => createNewNote e' app
      end
    else
      emit [ShowToast (lit "Note deleted successfully!")] (updateUI app)
  else emit [ShowErrorMessage (lit "Failed to delete note.")] app.

Definition editNoteTitle (e : Env) (noteId newTitle : jsstring) (app : App)
  : App :=
  let '(updatedNote, nm) := updateNoteTitle e noteId newTitle (noteManager app) in
  let app := with_store nm (currentNoteId app) app in
  match updatedNote with
  | Some _ => emit [ShowToast (lit "Note title updated!")] (updateUI app)
  | None => emit [ShowErrorMessage (lit "Failed to update note title.")] app
  end.

(** [clearTimeout(handle)] on the pending timers: the timer of that id is
    cancelled; [null] and the id of a timer that is not pending cancel
    nothing. *)
Definition clearTimeout (handle : option nat) (pending : list nat) : list nat :=
  match handle with
  | Some t => filter (fun t' => t' <> t) pending
  | None => pending
  end.

(** [handleContentChange(content)]; [t] is the id that [setTimeout]
    returns for the timer it sets. *)
Definition handleContentChange (content : jsstring) (t : nat) (app : App)
  : App :=
  let app := emit [UpdateStatusCounters (getNoteStats content)] app in
  {| noteManager := noteManager app; currentNoteId := currentNoteId app;
     editor := editor app; autoSaveTimeout := Some t;
     timers := t :: clearTimeout (autoSaveTimeout app) (timers app);
     events := events app |}.

(** The user edits the text: the surface holds the new content and
    notifies the coordinator. *)
Definition userEdit (content : jsstring) (t : nat) (app : App) : App :=
  handleContentChange content t
    {| noteManager := noteManager app; currentNoteId := currentNoteId app;
       editor := content; autoSaveTimeout := autoSaveTimeout app;
       timers := timers app; events := events app |}.

(** The browser runs the timer [t]: when it is pending it is taken off the
    pending timers and its callback, [saveCurrentNote], runs; a timer
    that was cancelled or has run does not run. *)
Definition autoSaveFires (e : Env) (t : nat) (app : App) : App :=
  if bool_decide (t ∈ timers app) then
    saveCurrentNote e
      {| noteManager := noteManager app; currentNoteId := currentNoteId app;
         editor := editor app; autoSaveTimeout := autoSaveTimeout app;
         timers := filter (fun t' => t' <> t) (timers app);
         events := events app |}
  else app.

Definition allowedTypes : list jsstring := [lit "text/plain"; lit "text/markdown"].
Definition allowedExtensions : list jsstring := [lit ".txt"; lit ".md"].

Definition hasValidType (file : File) : bool :=
  includes allowedTypes (type file).

Definition hasValidExtension (file : File) : bool :=
  existsb (fun ext => endsWith (toLowerCase (name file)) ext) allowedExtensions.

(** [handleFileUpload(file)] up to [reader.readAsText(file)]; [None] is a
    missing file. *)
Definition handleFileUpload (file : option File) (app : App) : App :=
  match file with
  | None => app
  | Some file =>
      if negb (hasValidType file) && negb (hasValidExtension file) then
        emit [ShowErrorMessage
                (lit "Please select a text file (.txt) or markdown file (.md).")]
             app
      else emit [ReadAsText file] app
  end.

(** [reader.onload]: the file's text has been read. *)
Definition reader_onload (e e' : Env) (file : File) (content : jsstring)
  (app : App) : App :=
  let '(newNote, nm) :=
    importTextContent e content (Some (name file)) (noteManager app) in
  let app := with_store nm (currentNoteId app) app in
  let app := switchToNote e' (id newNote) app in
  emit [ShowFileUploadFeedback (name file)] app.

End TakenoteApp.

(** ** The notions the specification speaks of *)

Module Spec.

Import NoteManager TakenoteApp.

(** A text is blank when it holds nothing but whitespace. *)
Definition blank (s : jsstring) : Prop := Forall (fun c => is_whitespace c = true) s.

(** The text cut at every code unit of a class. *)
Fixpoint pieces (cls : N -> bool) (s : jsstring) : list jsstring :=
  match s with
  | [] => [[]]
  | c :: s' =>
      if cls c then [] :: pieces cls s'
      else match pieces cls s' with
           | l :: ls => (c :: l) :: ls
           | [] => [[c]]
           end
  end.

(** The whitespace-delimited tokens of a text: what lies between
    whitespace, empty pieces apart. *)
Definition tokens (s : jsstring) : list jsstring :=
  filter (fun t => t <> []) (pieces is_whitespace s).

(** The segments a text falls into when cut at the runs of [.], [!], [?]. *)
Definition segments (s : jsstring) : list jsstring := split_runs sentence_end s.

(** The segments that are not the empty string. *)
Definition nonempty_segments (s : jsstring) : list jsstring :=
  filter (fun seg => seg <> []) (segments s).

(** The segments that hold more than whitespace. *)
Definition nonblank_segments (s : jsstring) : list jsstring :=
  filter (fun seg => trim seg <> []) (segments s).


(** The first line of a text that holds more than whitespace, without the
    whitespace around it. *)
Definition first_nonblank_line (text : jsstring) : option jsstring :=
  head (filter (fun l => l <> []) (trim <$> split 10 text)).

(** A title derived from a line: its first 50 code units, and an ellipsis
    marker when the line is longer. *)
Definition truncated (line : jsstring) : jsstring :=
  if decide (50 < length line)%nat then take 50 line ++ lit "..." else line.

(** The markup-significant code units, those that serialisation escapes:
    [&] [<] [>] and the no-break space. *)
Definition markup_significant (c : N) : bool :=
  (c =? 38)%N || (c =? 60)%N || (c =? 62)%N || (c =? 160)%N.

Definition plain (s : jsstring) : Prop :=
  Forall (fun c => markup_significant c = false) s.

(** The code units the parser hands back as they are: all but CR, which it
    turns into LF, and NUL, which it drops. *)
Definition kept (c : N) : bool := negb ((c =? 13)%N || (c =? 0)%N).

Definition intact (s : jsstring) : Prop := Forall (fun c => kept c = true) s.

(** A content whose markup is tags alone: removing the tags strips the
    markup, what is left is the text of the content. *)
Definition tags_alone (content : jsstring) : Prop :=
  replace_tags content = DOM.textContent_of_innerHTML content.



(** The non-blank lines of a text, each without the whitespace around it:
    the paragraphs an import makes of it. *)
Definition paragraphs (text : jsstring) : list jsstring :=
  filter (fun l => l <> []) (trim <$> split 10 text).

(** Every note of the collection has a title that is not the empty string. *)
Definition titles_nonempty (st : Store) : Prop :=
  Forall (fun note => title note <> []) (notes st).

(** The active id is unset or is the id of a note of the collection. *)
Definition active_ok (st : Store) : Prop :=
  match activeNoteId st with
  | None => True
  | Some a => exists note, note ∈ notes st /\ id note = a
  end.

(** The browser storage holds the collection and the active id of the
    store ([null] is stored as the empty string). *)
Definition persisted (st : Store) : Prop :=
  takenote_notes (localStorage st) = Some (JsonNotes (notes st))
  /\ takenote_active_id (localStorage st) = Some (default [] (activeNoteId st)).

(** The state-changing calls of the store. *)
Inductive StoreOp :=
  | CreateNote (title content : option jsstring)
  | UpdateNote (i : jsstring) (u : Updates)
  | UpdateNoteTitle (i newTitle : jsstring)
  | UpdateNoteTitleFromContent (i content : jsstring)
  | DeleteNote (i : jsstring)
  | SetActiveNote (i : jsstring)
  | ImportTextContent (content : jsstring) (filename : option jsstring).

Definition perform (eo : Env * StoreOp) (st : Store) : Store :=
  let e := eo.1 in
  match eo.2 with
  | CreateNote t c => (createNote e t c st).2
  | UpdateNote i u => (updateNote e i u st).2
  | UpdateNoteTitle i t => (updateNoteTitle e i t st).2
  | UpdateNoteTitleFromContent i c => updateNoteTitleFromContent e i c st
  | DeleteNote i => (NoteManager.deleteNote e i st).2
  | SetActiveNote i => (setActiveNote i st).2
  | ImportTextContent c f => (importTextContent e c f st).2
  end.

(** The store after a sequence of calls, each with what the environment
    answered during it. *)
Definition run (ops : list (Env * StoreOp)) (st : Store) : Store :=
  foldl (fun st eo => perform eo st) st ops.

(** A call hands the store no empty title: [createNote] is given a title
    that is not the empty string or none at all, [updateNote] no empty
    [title] property, [importTextContent] no file name that is nothing but
    an extension. *)
Definition gives_title (o : StoreOp) : Prop :=
  match o with
  | CreateNote t _ => t <> Some []
  | UpdateNote _ u => upd_title u <> Some []
  | ImportTextContent _ f =>
      forall name, f = Some name -> name <> [] -> replace_extension name <> []
  | _ => True
  end.

(** A call leaves the ids alone: [updateNote] is given no [id] property. *)
Definition keeps_id (o : StoreOp) : Prop :=
  match o with
  | UpdateNote _ u => upd_id u = None
  | _ => True
  end.

(** A text without CR. *)
Definition no_cr (s : jsstring) : Prop := Forall (fun c => (c =? 13)%N = false) s.

(** The first line of a text: [text.split('\n')[0]]. *)
Definition line1 (s : jsstring) : jsstring := default [] (split 10 s !! 0%nat).

(** The paragraph block an import makes of a line. *)
Definition paragraph (line : jsstring) : jsstring :=
  lit "<p>" ++ escapeHtml line ++ lit "</p>".

(** The events a request adds to those the coordinator had logged. *)
Definition added (before after : App) : list Event :=
  drop (length (events before)) (events after).

(** No event of the list is a save of the editor content to the store. *)
Definition saves_nothing (evs : list Event) : Prop :=
  Forall (fun ev => forall i c, ev <> SaveToStore i c) evs.

End Spec.

(** ** Sample data *)

Module Samples.

Import NoteManager TakenoteApp.

Definition env0 : Env :=
  {| dateNow := 1700000000000; newDate1 := 1700000000000;
     newDate2 := 1700000000000; random36 := lit "0.4fzyo82mvyr";
     setItem := WriteOk |}.

(** The clock ticks between the two [new Date()] readings. *)
Definition env_tick : Env :=
  {| dateNow := 1700000000000; newDate1 := 1700000000000;
     newDate2 := 1700000000001; random36 := lit "0.4fzyo82mvyr";
     setItem := WriteOk |}.

Definition env1 : Env :=
  {| dateNow := 1700000005000; newDate1 := 1700000005000;
     newDate2 := 1700000005000; random36 := lit "0.k2j9x1c7qpd";
     setItem := WriteOk |}.

Definition no_storage : LocalStorage :=
  {| takenote_notes := None; takenote_active_id := None; setItem_calls := 0 |}.

Definition empty_store : Store :=
  {| notes := []; activeNoteId := None; localStorage := no_storage |}.

Definition noteA : Note :=
  {| id := lit "note_1_a"; title := lit "Alpha"; content := lit "<p>old</p>";
     createdAt := toISOString 1; updatedAt := toISOString 1 |}.

Definition noteB : Note :=
  {| id := lit "note_2_b"; title := lit "Beta"; content := lit "<p>beta</p>";
     createdAt := toISOString 2; updatedAt := toISOString 2 |}.

(** Two notes, the first one active. *)
Definition storeAB : Store :=
  {| notes := [noteA; noteB]; activeNoteId := Some (id noteA);
     localStorage := no_storage |}.

Definition storeA : Store :=
  {| notes := [noteA]; activeNoteId := Some (id noteA);
     localStorage := no_storage |}.

(** Note A is open and has been edited; the edit is not saved yet. *)
Definition appA_edited : App :=
  {| noteManager := storeAB; currentNoteId := Some (id noteA);
     editor := lit "<p>new</p>"; autoSaveTimeout := Some 1%nat;
     timers := [1%nat]; events := [] |}.

End Samples.

(** ** The rest of the coordinator, and the list's rename box (ui.js) *)

Module Requests.

Import NoteManager TakenoteApp.

(** The environment of a call with another fate for the writes. *)
Definition with_setItem (w : WriteOutcome) (e : Env) : Env :=
  {| dateNow := dateNow e; newDate1 := newDate1 e; newDate2 := newDate2 e;
     random36 := random36 e; setItem := w |}.

(** What the browser does with the download inside the [try] block of
    [handleFileDownload]: it saves the file, or throws before or after the
    click on the link. *)
Inductive BrowserOutcome := FileSaved | ThrowsBeforeClick | ThrowsAfterClick.

(** [showFileDownloadFeedback(filename)] of ui.js shows this toast. *)
Definition download_feedback (filename : jsstring) : jsstring :=
  lit "File " ++ [34%N] ++ filename ++ [34%N] ++ lit " downloaded successfully!".

(** [handleFileDownload()], with the file handed to the browser, if any. *)
Definition handleFileDownload (e : Env) (b : BrowserOutcome) (app : App)
  : App * option Export :=
  if negb (is_set (currentNoteId app)) then
    (emit [ShowErrorMessage (lit "No note to download.")] app, None)
  else
    let app := saveCurrentNote e app in
    match exportNoteAsText (default [] (currentNoteId app)) (noteManager app) with
    | None => (emit [ShowErrorMessage (lit "Failed to export note.")] app, None)
    | Some exportData =>
        match b with
        | FileSaved =>
            (emit [ShowToast (download_feedback (exp_filename exportData))] app,
             Some exportData)
        | ThrowsBeforeClick =>
            (emit [ShowErrorMessage
                     (lit "Failed to download file. Please try again.")] app,
             None)
        | ThrowsAfterClick =>
            (emit [ShowErrorMessage
                     (lit "Failed to download file. Please try again.")] app,
             Some exportData)
        end
    end.

(** [new TakenoteApp()]: the store is built from the browser storage with
    [e], the initial note is loaded ([e'] serves the note created when none
    is active) and the list is rendered.  [initial] is what the editing
    surface holds before anything is loaded into it. *)
Definition new_TakenoteApp (e e' : Env) (ls : LocalStorage) (initial : jsstring)
  : App :=
  updateUI
    (loadInitialNote e'
       {| noteManager := new_NoteManager e ls; currentNoteId := None;
          editor := initial; autoSaveTimeout := None; timers := [];
          events := [] |}).

(** [saveTitleEdit(titleElement)] of ui.js, wired to [editNoteTitle]:
    [text] is the text of the title element, [noteId] its [data-note-id]. *)
Definition saveTitleEdit (e : Env) (noteId text : jsstring) (app : App) : App :=
  let newTitle := trim text in
  if truthy newTitle then editNoteTitle e noteId newTitle app else app.

(** What reaches the coordinator: the callbacks of the list and of the
    toolbar, the change notification of the editor, the timer, the page
    being hidden or closed, and the end of a file read. *)
Inductive Request :=
  | NewNote (e : Env)
  | NoteSelect (e : Env) (noteId : jsstring)
  | NoteDelete (e e' : Env) (noteId : jsstring)
  | NoteTitleEdit (e : Env) (noteId text : jsstring)
  | ContentChange (content : jsstring) (t : nat)
  | TimerFires (e : Env) (t : nat)
  | PageHidden (e : Env)
  | FileUpload (file : option File)
  | FileLoaded (e e' : Env) (file : File) (content : jsstring)
  | FileDownload (e : Env) (b : BrowserOutcome).

Definition serve (r : Request) (app : App) : App :=
  match r with
  | NewNote e => createNewNote e app
  | NoteSelect e i => switchToNote e i app
  | NoteDelete e e' i => deleteNote e e' i app
  | NoteTitleEdit e i text => saveTitleEdit e i text app
  | ContentChange c t => userEdit c t app
  | TimerFires e t => autoSaveFires e t app
  | PageHidden e => saveCurrentNote e app
  | FileUpload f => handleFileUpload f app
  | FileLoaded e e' f c => reader_onload e e' f c app
  | FileDownload e b => (handleFileDownload e b app).1
  end.

Definition serve_all (rs : list Request) (app : App) : App :=
  foldl (fun app r => serve r app) app rs.

End Requests.

(** ** Further notions *)

Module Notions.

Import NoteManager TakenoteApp Spec Requests.

(** The ids of the collection, in order. *)
Definition ids (st : Store) : list jsstring := id <$> notes st.

(** The list without the first occurrence of an element. *)
Fixpoint remove_first (i : jsstring) (l : list jsstring) : list jsstring :=
  match l with
  | [] => []
  | x :: l' => if decide (x = i) then l' else x :: remove_first i l'
  end.

(** A call that brings no id twice into the collection: a created note
    gets an id the collection does not hold, and [updateNote] is given no
    [id] property. *)
Definition fresh (st : Store) (eo : Env * StoreOp) : Prop :=
  match eo.2 with
  | CreateNote _ _ | ImportTextContent _ _ => generateId eo.1 ∉ ids st
  | UpdateNote _ u => upd_id u = None
  | _ => True
  end.

Fixpoint all_fresh (ops : list (Env * StoreOp)) (st : Store) : Prop :=
  match ops with
  | [] => True
  | eo :: ops' => fresh st eo /\ all_fresh ops' (perform eo st)
  end.

(** The coordinator and the store agree on the open note, and that note is
    in the collection. *)
Definition open_note_ok (app : App) : Prop :=
  exists a, currentNoteId app = Some a
            /\ activeNoteId (noteManager app) = Some a
            /\ a ∈ ids (noteManager app).

(** No timer is pending, or one is, the one whose id the coordinator
    holds. *)
Definition pending_ok (app : App) : Prop :=
  timers app = []
  \/ exists t, timers app = [t] /\ autoSaveTimeout app = Some t.

(** No [<] of the text has a [>] after it. *)
Definition tag_free (s : jsstring) : Prop :=
  exists a b, s = a ++ b /\ (60 ∉ a)%N /\ (62 ∉ b)%N.

(** The code units of a sanitized file name. *)
Definition filename_safe (c : N) : bool :=
  (((97 <=? c) && (c <=? 122)) || ((48 <=? c) && (c <=? 57)) || (c =? 95))%N.

End Notions.

(** * Properties *)

Import NoteManager TakenoteApp Spec.

(** ** Looking notes up *)

Lemma findIndex_None (i : jsstring) (st : Store) :
  i ∉ (id <$> notes st) -> findIndex i st = None.
Proof.
  intros Hi. unfold findIndex. apply list_find_None.
  apply Forall_forall. intros note Hin Heq. apply Hi.
  apply list_elem_of_fmap. exists note. auto.
Qed.

Lemma findIndex_Some (i : jsstring) (st : Store) :
  i ∈ (id <$> notes st) ->
  exists k note, findIndex i st = Some (k, note)
                 /\ notes st !! k = Some note /\ id note = i.
Proof.
  intros Hi. apply list_elem_of_fmap in Hi as (note & -> & Hin).
  destruct (list_find_elem_of (fun n => id n = id note) (notes st) note Hin eq_refl)
    as [[k n] Hk].
  exists k, n. split; [exact Hk|].
  apply list_find_Some in Hk as (Hl & Hid & _). auto.
Qed.

Lemma getNoteById_None (i : jsstring) (st : Store) :
  i ∉ (id <$> notes st) -> getNoteById i st = None.
Proof. intros Hi. unfold getNoteById. now rewrite findIndex_None. Qed.

(** ** Calls on an id that is not in the collection *)

(** C10. For an id that no note of the collection carries, [updateNote],
    [updateNoteTitle], [deleteNote] and [setActiveNote] return their
    not-found value ([null], [null], [false], [null]) and hand back the
    very same store: the notes, the active id and the browser storage,
    with its count of [setItem] calls, are as before. *)
Theorem C10_not_found_changes_nothing
  (e : Env) (i newTitle : jsstring) (u : Updates) (st : Store) :
  i ∉ (id <$> notes st) ->
  updateNote e i u st = (None, st)
  /\ updateNoteTitle e i newTitle st = (None, st)
  /\ NoteManager.deleteNote e i st = (false, st)
  /\ setActiveNote i st = (None, st).
Proof.
  intros Hi. unfold updateNote, updateNoteTitle, NoteManager.deleteNote, setActiveNote.
  rewrite getNoteById_None, findIndex_None by exact Hi. auto.
Qed.

Lemma C10_not_found_witness :
  updateNote Samples.env0 (lit "note_9_z") no_updates Samples.storeAB
    = (None, Samples.storeAB)
  /\ updateNoteTitle Samples.env0 (lit "note_9_z") (lit "T") Samples.storeAB
    = (None, Samples.storeAB)
  /\ NoteManager.deleteNote Samples.env0 (lit "note_9_z") Samples.storeAB
    = (false, Samples.storeAB)
  /\ setActiveNote (lit "note_9_z") Samples.storeAB = (None, Samples.storeAB).
Proof.
  apply (C10_not_found_changes_nothing Samples.env0 (lit "note_9_z") (lit "T")
           no_updates Samples.storeAB).
  apply (bool_decide_unpack _). vm_compute. exact I.
Defined.

(** ** Ids *)

Lemma lit_inj (s1 s2 : string) : lit s1 = lit s2 -> s1 = s2.
Proof.
  unfold lit. intros H.
  rewrite <- (string_of_list_ascii_of_string s1),
          <- (string_of_list_ascii_of_string s2).
  f_equal. revert H.
  generalize (list_ascii_of_string s1) (list_ascii_of_string s2).
  induction l as [|a l IH]; intros [|b l'] H; simpl in H; try discriminate; auto.
  injection H as Hab Hl. f_equal; [|auto].
  rewrite <- (ascii_N_embedding a), <- (ascii_N_embedding b). now rewrite Hab.
Qed.

Lemma of_number_inj (n m : N) : of_number n = of_number m -> n = m.
Proof.
  unfold of_number. intros H%lit_inj.
  apply Unsigned.to_uint_inj.
  assert (Some (N.to_uint n) = Some (N.to_uint m)) as Hs
    by (rewrite <- !NilEmpty.usu; now rewrite H).
  now injection Hs.
Qed.

Lemma string_of_uint_digits (d : Decimal.uint) :
  Forall (fun c => (48 <= c <= 57)%N) (lit (NilEmpty.string_of_uint d)).
Proof.
  induction d; simpl; constructor; auto; vm_compute; split; discriminate.
Qed.

Lemma of_number_digits (n : N) :
  Forall (fun c => (48 <= c <= 57)%N) (of_number n).
Proof. apply string_of_uint_digits. Qed.

(** Two texts that agree up to and after a separator that occurs in
    neither head agree in head and tail. *)
Lemma app_sep_inj (sep : N) (a a' b b' : jsstring) :
  sep ∉ a -> sep ∉ a' ->
  a ++ sep :: b = a' ++ sep :: b' -> a = a' /\ b = b'.
Proof.
  revert a'. induction a as [|x a IH]; intros [|y a'] Ha Ha' H; simpl in H.
  - injection H as ->. auto.
  - injection H as <-. exfalso. apply Ha'. left.
  - injection H as ->. exfalso. apply Ha. left.
  - injection H as -> H. apply not_elem_of_cons in Ha as [_ Ha].
    apply not_elem_of_cons in Ha' as [_ Ha'].
    destruct (IH a' Ha Ha' H) as [-> ->]. auto.
Qed.

Lemma generateId_inj (e e' : Env) :
  generateId e = generateId e' <->
  dateNow e = dateNow e' /\ substr 2 9 (random36 e) = substr 2 9 (random36 e').
Proof.
  unfold generateId. split.
  - intros H. apply app_inv_head in H.
    change (lit "_" ++ ?x) with (95%N :: x) in H.
    assert (forall n, 95%N ∉ of_number n) as Hd.
    { intros n Hin. pose proof (of_number_digits n) as Hf.
      rewrite Forall_forall in Hf. specialize (Hf _ Hin). lia. }
    apply app_sep_inj in H as [H1 H2]; auto using of_number_inj.
  - intros [-> ->]. reflexivity.
Qed.

(** ** Creating a note *)

Lemma saveNotesToStorage_ok (st : Store) :
  persisted (saveNotesToStorage WriteOk st).
Proof. split; reflexivity. Qed.

Lemma saveNotesToStorage_memory (w : WriteOutcome) (st : Store) :
  notes (saveNotesToStorage w st) = notes st
  /\ activeNoteId (saveNotesToStorage w st) = activeNoteId st.
Proof. split; reflexivity. Qed.

(** C4, as the code has it.  [createNote] always returns a note, whatever
    the storage does.  Its id is [note_<Date.now()>_<nine code units of
    Math.random() in base 36>]: it differs from the id of a call exactly
    when the clock reading or the random suffix differs.  [createdAt] and
    [updatedAt] are two successive clock readings, equal when the clock
    did not advance between them.  The note is put at the front of the
    collection and made active, and when both [setItem] calls succeed the
    storage holds the new collection and the new active id. *)
Theorem C4_createNote_effect
  (e : Env) (t c : option jsstring) (st : Store) :
  let note := (createNote e t c st).1 in
  let st' := (createNote e t c st).2 in
  id note = generateId e
  /\ (forall e', generateId e' = id note <->
        dateNow e' = dateNow e
        /\ substr 2 9 (random36 e') = substr 2 9 (random36 e))
  /\ createdAt note = toISOString (newDate1 e)
  /\ updatedAt note = toISOString (newDate2 e)
  /\ (newDate1 e = newDate2 e -> createdAt note = updatedAt note)
  /\ notes st' = note :: notes st
  /\ activeNoteId st' = Some (id note)
  /\ (setItem e = WriteOk -> persisted st').
Proof.
  simpl. split_and!; try reflexivity.
  - intros e'. apply generateId_inj.
  - now intros ->.
  - intros ->. apply saveNotesToStorage_ok.
Qed.

Lemma C4_createNote_witness :
  createdAt (createNote Samples.env0 None None Samples.empty_store).1
  = updatedAt (createNote Samples.env0 None None Samples.empty_store).1
  /\ persisted (createNote Samples.env0 None None Samples.empty_store).2.
Proof.
  pose proof (C4_createNote_effect Samples.env0 None None Samples.empty_store)
    as (_ & _ & _ & _ & Heq & _ & _ & Hp).
  split; [apply Heq | apply Hp]; reflexivity.
Defined.

(** C4 as written fails: when the clock advances between the two
    [new Date()] readings the timestamps differ, when the clock and
    [Math.random] answer the same twice the second id is the first one, and
    when the storage throws the note is created but the state is not
    persisted. *)
Lemma C4_counterexample :
  let first := createNote Samples.env_tick None None Samples.empty_store in
  let second := createNote Samples.env_tick None None first.2 in
  let unsaved :=
    createNote (Requests.with_setItem ThrowsAtNotes Samples.env0) None None
      Samples.empty_store in
  createdAt first.1 <> updatedAt first.1
  /\ id second.1 = id first.1
  /\ notes unsaved.2 = [unsaved.1] /\ ~ persisted unsaved.2.
Proof.
  split_and!; [vm_compute; discriminate | reflexivity | reflexivity |].
  intros [Hn _]. vm_compute in Hn. discriminate.
Qed.

(** ** Deleting a note *)

(** C5, as the code has it.  For an id that a note of the collection
    carries, [deleteNote] returns [true] and removes the first note with
    that id: the notes before it, none of which has the id, and the notes
    after it stay, in order.  When that id was the active one, the active
    id becomes the id of the first note left, or [null] when none is left;
    otherwise it stays.  Deleting the only note leaves no note; the active
    id is then [null] when it was [null] or the id of that note, and stays
    when it was another id.  When both [setItem] calls succeed the storage
    holds the new collection and the new active id. *)
Theorem C5_deleteNote_effect (e : Env) (i : jsstring) (st : Store) :
  i ∈ (id <$> notes st) ->
  let st' := (NoteManager.deleteNote e i st).2 in
  (NoteManager.deleteNote e i st).1 = true
  /\ (exists before note after,
        notes st = before ++ note :: after
        /\ id note = i /\ Forall (fun n => id n <> i) before
        /\ notes st' = before ++ after)
  /\ activeNoteId st' =
       (if decide (activeNoteId st = Some i)
        then id <$> head (notes st') else activeNoteId st)
  /\ (forall note,
        notes st = [note] ->
        notes st' = []
        /\ (activeNoteId st = None \/ activeNoteId st = Some i ->
            activeNoteId st' = None)
        /\ (forall a, activeNoteId st = Some a -> a <> i ->
            activeNoteId st' = Some a))
  /\ (setItem e = WriteOk -> persisted st').
Proof.
  intros Hi. destruct (findIndex_Some i st Hi) as (k & note & Hf & Hk & Hid).
  assert (Forall (fun n => id n <> i) (take k (notes st))) as Hbefore.
  { apply list_find_Some in Hf as (_ & _ & Hleast).
    apply Forall_lookup. intros j n Hj.
    apply lookup_take_Some in Hj as [Hj Hlt]. now apply (Hleast j). }
  unfold NoteManager.deleteNote. rewrite Hf. cbn [fst snd].
  cbn [saveNotesToStorage notes activeNoteId]. split_and!.
  - reflexivity.
  - exists (take k (notes st)), note, (drop (S k) (notes st)).
    split_and!; [now rewrite take_drop_middle | exact Hid | exact Hbefore |].
    apply delete_take_drop.
  - destruct (decide (activeNoteId st = Some i)); [|reflexivity].
    now destruct (delete k (notes st)).
  - intros only Hn. rewrite Hn in *.
    destruct k as [|k]; [|now destruct k]. cbn [delete list_delete].
    split_and!.
    + reflexivity.
    + intros [Ha|Ha]; rewrite Ha; [|now rewrite decide_True by reflexivity].
      now rewrite decide_False by discriminate.
    + intros a Ha Hne. rewrite Ha. rewrite decide_False by congruence.
      reflexivity.
  - intros ->. apply saveNotesToStorage_ok.
Qed.

Lemma C5_deleteNote_witness :
  let st' := (NoteManager.deleteNote Samples.env0 (id Samples.noteA)
                Samples.storeA).2 in
  (NoteManager.deleteNote Samples.env0 (id Samples.noteA) Samples.storeA).1 = true
  /\ notes st' = [] /\ activeNoteId st' = None /\ persisted st'.
Proof.
  assert (id Samples.noteA ∈ (id <$> notes Samples.storeA)) as Hin
    by (apply (bool_decide_unpack _); vm_compute; exact I).
  destruct (C5_deleteNote_effect Samples.env0 (id Samples.noteA) Samples.storeA Hin)
    as (Hr & _ & _ & Hone & Hp).
  destruct (Hone Samples.noteA eq_refl) as (H1 & H2 & _).
  split; [exact Hr|].
  split; [exact H1 | split; [apply H2; now right | apply Hp; reflexivity]].
Defined.

(** C5 as written fails in two places.  The state is not persisted when
    the storage throws: the note is deleted in memory and [true] is
    returned, but the storage still holds both notes.  And deleting the
    only note does not unset an active id that refers to no note, as the
    one left behind by an [updateNote] that was given an [id] property. *)
Lemma C5_counterexample :
  let e := Requests.with_setItem ThrowsAtNotes Samples.env0 in
  let st := saveNotesToStorage WriteOk Samples.storeAB in
  let deleted := NoteManager.deleteNote e (id Samples.noteA) st in
  let renamed :=
    (updateNote Samples.env0 (id Samples.noteA)
       {| upd_id := Some (lit "x"); upd_title := None; upd_content := None;
          upd_createdAt := None; upd_updatedAt := None |} Samples.storeA).2 in
  let emptied := NoteManager.deleteNote Samples.env1 (lit "x") renamed in
  (persisted st /\ deleted.1 = true /\ notes deleted.2 = [Samples.noteB]
   /\ ~ persisted deleted.2)
  /\ (length (notes renamed) = 1%nat /\ emptied.1 = true
      /\ notes emptied.2 = []
      /\ activeNoteId emptied.2 = Some (id Samples.noteA)).
Proof.
  cbv zeta. split.
  - split_and!; [split; reflexivity | reflexivity | reflexivity |].
    intros [Hn _]. vm_compute in Hn. discriminate.
  - split_and!; reflexivity.
Qed.

(** ** Uploading a file *)

Lemma endsWith_suffix (s suffix : jsstring) :
  endsWith s suffix = true <-> suffix `suffix_of` s.
Proof.
  unfold endsWith. rewrite bool_decide_eq_true. split.
  - intros <-. apply suffix_drop.
  - intros [k ->]. rewrite length_app.
    replace (length k + length suffix - length suffix)%nat with (length k) by lia.
    apply drop_app_length.
Qed.

Lemma hasValidType_spec (file : File) :
  hasValidType file = true <->
  type file = lit "text/plain" \/ type file = lit "text/markdown".
Proof.
  unfold hasValidType, includes, allowedTypes.
  rewrite bool_decide_eq_true, !elem_of_cons, elem_of_nil. tauto.
Qed.

Lemma hasValidExtension_spec (file : File) :
  hasValidExtension file = true <->
  lit ".txt" `suffix_of` toLowerCase (name file)
  \/ lit ".md" `suffix_of` toLowerCase (name file).
Proof.
  unfold hasValidExtension, allowedExtensions. simpl.
  rewrite !orb_true_iff, !endsWith_suffix. intuition discriminate.
Qed.

Lemma toLowerCase_suffix (ext s : jsstring) :
  toLowerCase ext = ext -> ext `suffix_of` s -> ext `suffix_of` toLowerCase s.
Proof.
  intros Hext [k ->]. exists (toLowerCase k).
  unfold toLowerCase in *. now rewrite fmap_app, Hext.
Qed.

(** C9, as the code has it.  A file whose MIME type is neither
    [text/plain] nor [text/markdown] and whose name, put in lower case,
    ends in neither [.txt] nor [.md] is turned down: the only thing that
    happens is the error message, no read is started, and the store
    (collection, active id, storage) and the open note are as before.  A
    file with one of the two MIME types, or whose name ends in [.txt] or
    [.md] in any letter case, is handed to the reader. *)
Theorem C9_upload_validation (file : File) (app : App) :
  (type file <> lit "text/plain" -> type file <> lit "text/markdown" ->
   ~ lit ".txt" `suffix_of` toLowerCase (name file) ->
   ~ lit ".md" `suffix_of` toLowerCase (name file) ->
   let app' := handleFileUpload (Some file) app in
   events app' = events app
     ++ [ShowErrorMessage
           (lit "Please select a text file (.txt) or markdown file (.md).")]
   /\ noteManager app' = noteManager app
   /\ currentNoteId app' = currentNoteId app
   /\ editor app' = editor app)
  /\ (type file = lit "text/plain" \/ type file = lit "text/markdown"
      \/ lit ".txt" `suffix_of` name file \/ lit ".md" `suffix_of` name file
      \/ lit ".txt" `suffix_of` toLowerCase (name file)
      \/ lit ".md" `suffix_of` toLowerCase (name file) ->
      handleFileUpload (Some file) app = emit [ReadAsText file] app).
Proof.
  split.
  - intros Ht1 Ht2 He1 He2. unfold handleFileUpload.
    assert (hasValidType file = false) as ->.
    { apply not_true_is_false. rewrite hasValidType_spec. tauto. }
    assert (hasValidExtension file = false) as ->.
    { apply not_true_is_false. rewrite hasValidExtension_spec. tauto. }
    simpl. auto.
  - intros H. unfold handleFileUpload.
    assert (hasValidType file = true \/ hasValidExtension file = true) as Hv.
    { rewrite hasValidType_spec, hasValidExtension_spec.
      destruct H as [H|[H|[H|[H|[H|H]]]]]; auto; right;
        [left|right]; apply toLowerCase_suffix; auto. }
    destruct Hv as [-> | ->]; [reflexivity | now rewrite andb_false_r].
Qed.

Lemma C9_upload_witness :
  let pdf := {| name := lit "report.pdf"; type := lit "application/pdf" |} in
  let txt := {| name := lit "notes.txt"; type := lit "" |} in
  noteManager (handleFileUpload (Some pdf) Samples.appA_edited)
    = noteManager Samples.appA_edited
  /\ handleFileUpload (Some txt) Samples.appA_edited
     = emit [ReadAsText txt] Samples.appA_edited.
Proof.
  intros pdf txt. split.
  - apply (C9_upload_validation pdf Samples.appA_edited);
      try (vm_compute; discriminate);
      intros Hs; apply endsWith_suffix in Hs; vm_compute in Hs; discriminate.
  - apply (C9_upload_validation txt Samples.appA_edited).
    do 2 right. left. apply endsWith_suffix. reflexivity.
Defined.

(** C9 as written fails: a file named [README.MD] without a MIME type has
    none of the two types and a name that ends in neither [.txt] nor
    [.md], and it is handed to the reader. *)
Lemma C9_counterexample :
  let md := {| name := lit "README.MD"; type := lit "" |} in
  type md <> lit "text/plain" /\ type md <> lit "text/markdown"
  /\ ~ lit ".txt" `suffix_of` name md /\ ~ lit ".md" `suffix_of` name md
  /\ handleFileUpload (Some md) Samples.appA_edited
     = emit [ReadAsText md] Samples.appA_edited.
Proof.
  split_and!; try discriminate; try reflexivity;
    intros Hs; apply endsWith_suffix in Hs; vm_compute in Hs; discriminate.
Qed.

(** ** Whitespace and trimming *)

Lemma trimStart_blank (s : jsstring) : blank s -> trimStart s = [].
Proof.
  induction 1 as [|c s Hc _ IH]; simpl; [reflexivity|]. now rewrite Hc.
Qed.

Lemma trim_blank (s : jsstring) : blank s -> trim s = [].
Proof. intros H. unfold trim. now rewrite trimStart_blank. Qed.

(** ** Titles *)

Lemma or_else_nonempty (a b : jsstring) : b <> [] -> or_else a b <> [].
Proof. unfold or_else. now destruct a. Qed.

Lemma untitled_nonempty : lit "Untitled Note" <> [].
Proof. discriminate. Qed.

Lemma titles_save (w : WriteOutcome) (st : Store) :
  titles_nonempty st -> titles_nonempty (saveNotesToStorage w st).
Proof. auto. Qed.

Lemma titles_createNote (e : Env) (t c : option jsstring) (st : Store) :
  t <> Some [] -> titles_nonempty st ->
  titles_nonempty (createNote e t c st).2.
Proof.
  intros Ht Hst. unfold titles_nonempty. simpl. constructor; [|exact Hst].
  simpl. destruct t as [t|]; simpl; [congruence | discriminate].
Qed.

Lemma titles_updateNote (e : Env) (i : jsstring) (u : Updates) (st : Store) :
  upd_title u <> Some [] -> titles_nonempty st ->
  titles_nonempty (updateNote e i u st).2.
Proof.
  intros Hu Hst. unfold updateNote.
  destruct (findIndex i st) as [[k note]|] eqn:Hf; [|exact Hst].
  unfold titles_nonempty. simpl. apply Forall_insert; [exact Hst|].
  apply list_find_Some in Hf as (Hk & _ & _).
  simpl. destruct (upd_title u) as [t|]; simpl; [congruence|].
  unfold titles_nonempty in Hst. rewrite Forall_lookup in Hst. eauto.
Qed.

Lemma titles_updateNoteTitle (e : Env) (i t : jsstring) (st : Store) :
  titles_nonempty st -> titles_nonempty (updateNoteTitle e i t st).2.
Proof.
  intros Hst. unfold updateNoteTitle.
  destruct (findIndex i st) as [[k note]|]; [|exact Hst].
  unfold titles_nonempty. simpl. apply Forall_insert; [exact Hst|].
  simpl. apply or_else_nonempty, untitled_nonempty.
Qed.

Lemma titles_updateNoteTitleFromContent (e : Env) (i c : jsstring) (st : Store) :
  titles_nonempty st -> titles_nonempty (updateNoteTitleFromContent e i c st).
Proof.
  intros Hst. unfold updateNoteTitleFromContent.
  destruct (extractFirstLineAsTitle c) as [|x l]; simpl;
    apply titles_updateNote; auto; discriminate.
Qed.

Lemma titles_deleteNote (e : Env) (i : jsstring) (st : Store) :
  titles_nonempty st -> titles_nonempty (NoteManager.deleteNote e i st).2.
Proof.
  intros Hst. unfold NoteManager.deleteNote.
  destruct (findIndex i st) as [[k note]|]; [|exact Hst].
  unfold titles_nonempty. simpl. now apply Forall_delete.
Qed.

Lemma titles_setActiveNote (i : jsstring) (st : Store) :
  titles_nonempty st -> titles_nonempty (setActiveNote i st).2.
Proof. intros Hst. unfold setActiveNote. now destruct (getNoteById i st). Qed.

Lemma titles_importTextContent (e : Env) (c : jsstring) (f : option jsstring)
  (st : Store) :
  (forall name, f = Some name -> name <> [] -> replace_extension name <> []) ->
  titles_nonempty st -> titles_nonempty (importTextContent e c f st).2.
Proof.
  intros Hf Hst. unfold importTextContent. apply titles_createNote; [|exact Hst].
  destruct f as [[|x name]|]; simpl; try discriminate.
  intros [=H]. now apply (Hf (x :: name)).
Qed.

Lemma titles_perform (eo : Env * StoreOp) (st : Store) :
  gives_title eo.2 -> titles_nonempty st -> titles_nonempty (perform eo st).
Proof.
  destruct eo as [e o]. unfold perform. simpl.
  destruct o; simpl; intros Ho Hst.
  - now apply titles_createNote.
  - now apply titles_updateNote.
  - now apply titles_updateNoteTitle.
  - now apply titles_updateNoteTitleFromContent.
  - now apply titles_deleteNote.
  - now apply titles_setActiveNote.
  - now apply titles_importTextContent.
Qed.

(** An invariant of the calls of a sequence holds after each of them. *)
Lemma run_invariant (I : Store -> Prop) (ok : StoreOp -> Prop) :
  (forall eo st, ok eo.2 -> I st -> I (perform eo st)) ->
  forall ops st k,
    Forall (fun eo => ok eo.2) ops -> I st -> I (run (take k ops) st).
Proof.
  intros Hstep ops. induction ops as [|eo ops IH]; intros st k Hops Hst.
  - now destruct k.
  - destruct k as [|k]; [exact Hst|].
    apply Forall_cons in Hops as [Ho Hops]. simpl. apply IH; auto.
Qed.

(** C1, as the code has it.  Starting from a collection without empty
    titles, after each call of a sequence every note has a title that is
    not the empty string, provided no call hands an empty title to the
    store: [createNote] is given a non-empty title or none, [updateNote]
    no empty [title] property, and [importTextContent] no file name that
    consists of an extension only.  Of the calls, [updateNoteTitle] alone
    coerces: an empty or whitespace-only title becomes ["Untitled Note"];
    [updateNoteTitleFromContent] never stores an empty title; [createNote]
    stores a title it is given as it is, and ["Untitled Note"] when it is
    given none. *)
Theorem C1_titles_stay_nonempty
  (ops : list (Env * StoreOp)) (st : Store) (k : nat) :
  titles_nonempty st ->
  Forall (fun eo => gives_title eo.2) ops ->
  titles_nonempty (run (take k ops) st)
  /\ (forall e i newTitle,
        blank newTitle -> i ∈ (id <$> notes st) ->
        exists note, (updateNoteTitle e i newTitle st).1 = Some note
                     /\ title note = lit "Untitled Note")
  /\ (forall e i content,
        titles_nonempty (updateNoteTitleFromContent e i content st))
  /\ (forall e t c,
        title (createNote e (Some t) c st).1 = t
        /\ title (createNote e None c st).1 = lit "Untitled Note").
Proof.
  intros Hst Hops. split_and!.
  - apply (run_invariant titles_nonempty gives_title); auto.
    intros eo st'. apply titles_perform.
  - intros e i newTitle Hb Hi.
    destruct (findIndex_Some i st Hi) as (j & note & Hf & _ & _).
    unfold updateNoteTitle. rewrite Hf. simpl. eexists. split; [reflexivity|].
    simpl. now rewrite trim_blank.
  - intros e i content. now apply titles_updateNoteTitleFromContent.
  - intros e t c. split; reflexivity.
Qed.

Lemma C1_titles_witness :
  titles_nonempty
    (run (take 2 [ (Samples.env0, CreateNote None None);
                   (Samples.env1, UpdateNoteTitle (generateId Samples.env0) (lit "  ")) ])
         Samples.storeA).
Proof.
  apply (C1_titles_stay_nonempty
           [ (Samples.env0, CreateNote None None);
             (Samples.env1, UpdateNoteTitle (generateId Samples.env0) (lit "  ")) ]
           Samples.storeA 2).
  - repeat constructor. discriminate.
  - repeat constructor. discriminate.
Defined.

(** C1 as written fails: [createNote] called with the empty string as its
    title stores the empty title, and so does the import of a file named
    [.txt]. *)
Lemma C1_counterexample :
  ~ titles_nonempty (createNote Samples.env0 (Some []) None Samples.empty_store).2
  /\ ~ titles_nonempty
       (importTextContent Samples.env0 (lit "hello") (Some (lit ".txt"))
          Samples.empty_store).2.
Proof.
  split; intros H; apply Forall_cons in H as [H _]; now apply H.
Qed.

(** ** The active id *)

Lemma active_ok_ids (st : Store) :
  active_ok st <->
  match activeNoteId st with Some a => a ∈ (id <$> notes st) | None => True end.
Proof.
  unfold active_ok. destruct (activeNoteId st) as [a|]; [|tauto].
  rewrite list_elem_of_fmap. split; intros (note & H1 & H2); exists note; auto.
Qed.

Lemma getNoteById_Some (i : jsstring) (st : Store) (note : Note) :
  getNoteById i st = Some note -> note ∈ notes st /\ id note = i.
Proof.
  unfold getNoteById, findIndex.
  destruct (list_find _ _) as [[k n]|] eqn:Hf; [|discriminate].
  intros [= <-]. apply list_find_Some in Hf as (Hk & Hid & _).
  split; [eapply list_elem_of_lookup_2; eauto | exact Hid].
Qed.

Lemma elem_of_delete_other {A} (l : list A) (k : nat) (x y : A) :
  l !! k = Some y -> x <> y -> x ∈ l -> x ∈ delete k l.
Proof.
  intros Hk Hxy Hx. rewrite <- (take_drop_middle l k y Hk) in Hx.
  rewrite delete_take_drop.
  rewrite elem_of_app in *. rewrite elem_of_cons in Hx. tauto.
Qed.

Lemma active_createNote (e : Env) (t c : option jsstring) (st : Store) :
  active_ok (createNote e t c st).2.
Proof. unfold active_ok. simpl. eexists. split; [left | reflexivity]. Qed.

Lemma active_updateNote (e : Env) (i : jsstring) (u : Updates) (st : Store) :
  upd_id u = None -> active_ok st -> active_ok (updateNote e i u st).2.
Proof.
  intros Hu. rewrite !active_ok_ids. unfold updateNote.
  destruct (findIndex i st) as [[k note]|] eqn:Hf; [|auto].
  simpl. apply list_find_Some in Hf as (Hk & _ & _).
  rewrite list_fmap_insert. simpl. rewrite Hu. simpl.
  rewrite list_insert_id; [auto|]. now rewrite list_lookup_fmap, Hk.
Qed.

Lemma active_updateNoteTitle (e : Env) (i t : jsstring) (st : Store) :
  active_ok st -> active_ok (updateNoteTitle e i t st).2.
Proof.
  rewrite !active_ok_ids. unfold updateNoteTitle.
  destruct (findIndex i st) as [[k note]|] eqn:Hf; [|auto].
  simpl. apply list_find_Some in Hf as (Hk & _ & _).
  rewrite list_fmap_insert. simpl.
  rewrite list_insert_id; [auto|]. now rewrite list_lookup_fmap, Hk.
Qed.

Lemma active_updateNoteTitleFromContent (e : Env) (i c : jsstring) (st : Store) :
  active_ok st -> active_ok (updateNoteTitleFromContent e i c st).
Proof.
  intros Hst. unfold updateNoteTitleFromContent.
  destruct (truthy _); now apply active_updateNote.
Qed.

Lemma active_deleteNote (e : Env) (i : jsstring) (st : Store) :
  active_ok st -> active_ok (NoteManager.deleteNote e i st).2.
Proof.
  intros Hst. unfold NoteManager.deleteNote.
  destruct (findIndex i st) as [[k note]|] eqn:Hf; [|exact Hst].
  apply list_find_Some in Hf as (Hk & Hid & _).
  unfold active_ok in *. simpl.
  destruct (decide (activeNoteId st = Some i)) as [Ha|Ha].
  - destruct (delete k (notes st)) as [|first rest]; [exact I|].
    exists first. split; [left | reflexivity].
  - destruct (activeNoteId st) as [a|]; [|exact I].
    destruct Hst as (n & Hn & Hna). exists n. split; [|exact Hna].
    apply (elem_of_delete_other _ k n note); auto. congruence.
Qed.

Lemma active_setActiveNote (i : jsstring) (st : Store) :
  active_ok st -> active_ok (setActiveNote i st).2.
Proof.
  intros Hst. unfold setActiveNote.
  destruct (getNoteById i st) as [note|] eqn:Hg; [|exact Hst].
  apply getNoteById_Some in Hg. unfold active_ok. simpl. eauto.
Qed.

Lemma active_importTextContent (e : Env) (c : jsstring) (f : option jsstring)
  (st : Store) : active_ok (importTextContent e c f st).2.
Proof. apply active_createNote. Qed.

Lemma active_perform (eo : Env * StoreOp) (st : Store) :
  keeps_id eo.2 -> active_ok st -> active_ok (perform eo st).
Proof.
  destruct eo as [e o]. unfold perform. simpl.
  destruct o; simpl; intros Ho Hst.
  - apply active_createNote.
  - now apply active_updateNote.
  - now apply active_updateNoteTitle.
  - now apply active_updateNoteTitleFromContent.
  - now apply active_deleteNote.
  - now apply active_setActiveNote.
  - apply active_importTextContent.
Qed.

(** Whatever the browser storage holds, the store built from it has an
    active id that refers to one of its notes. *)
Lemma active_new_NoteManager (e : Env) (ls : LocalStorage) :
  active_ok (new_NoteManager e ls).
Proof.
  pose proof (fun t c st => active_createNote e t c st) as Hcreate.
  unfold new_NoteManager, loadNotesFromStorage. cbn [localStorage].
  destruct (takenote_notes ls) as [[l| |]|]; cbn [notes]; [| | apply Hcreate |].
  - destruct (truthy (default [] (takenote_active_id ls))
              && bool_decide (is_Some (getNoteById _ _))) eqn:Hc; cbn [notes].
    + apply andb_true_iff in Hc as [_ Hc]. apply bool_decide_eq_true in Hc.
      destruct Hc as [note Hg]. apply getNoteById_Some in Hg. cbn [notes] in Hg.
      destruct l as [|first l]; [apply Hcreate|].
      unfold active_ok. cbn [activeNoteId notes]. eauto.
    + destruct l as [|first l]; cbn [notes]; [apply Hcreate|].
      unfold active_ok. cbn [activeNoteId notes].
      exists first. split; [left | reflexivity].
  - destruct (truthy _ && _); cbn [notes]; apply Hcreate.
  - destruct (truthy _ && _); cbn [notes]; apply Hcreate.
Qed.

(** When the active id is set and is not the empty string, [getActiveNote]
    finds its note. *)
Lemma getActiveNote_resolves (st : Store) (a : jsstring) :
  active_ok st -> activeNoteId st = Some a -> a <> [] ->
  exists note, getActiveNote st = Some note /\ note ∈ notes st /\ id note = a.
Proof.
  intros Hok Ha Hne. unfold getActiveNote. rewrite Ha.
  destruct a as [|x a]; [congruence|]. simpl.
  apply active_ok_ids in Hok. rewrite Ha in Hok.
  destruct (findIndex_Some _ _ Hok) as (k & note & Hf & Hk & Hid).
  exists note. unfold getNoteById. rewrite Hf. simpl.
  split_and!; auto. eapply list_elem_of_lookup_2; eauto.
Qed.

(** C6, as the code has it.  After the initial load from any browser
    storage and after each call of a sequence of [createNote],
    [updateNote], [updateNoteTitle], [updateNoteTitleFromContent],
    [deleteNote], [setActiveNote] and [importTextContent], the active id
    is unset or is the id of a note of the collection, provided no
    [updateNote] is given an [id] property.  The store has one active id,
    and [getActiveNote] resolves it to at most one note, a note of the
    collection. *)
Theorem C6_active_id_refers_to_a_note
  (e0 : Env) (ls : LocalStorage) (ops : list (Env * StoreOp)) (k : nat) :
  Forall (fun eo => keeps_id eo.2) ops ->
  let st := run (take k ops) (new_NoteManager e0 ls) in
  active_ok st
  /\ (forall note, getActiveNote st = Some note ->
        note ∈ notes st /\ activeNoteId st = Some (id note))
  /\ (forall a, activeNoteId st = Some a -> a <> [] ->
        exists note, getActiveNote st = Some note /\ id note = a).
Proof.
  intros Hops st.
  assert (active_ok st) as Hok.
  { apply (run_invariant active_ok keeps_id); auto.
    - intros eo st'. apply active_perform.
    - apply active_new_NoteManager. }
  split_and!; [exact Hok | |].
  - intros note. unfold getActiveNote.
    destruct (activeNoteId st) as [a|]; [|discriminate].
    destruct (truthy a); [|discriminate].
    intros Hg. apply getNoteById_Some in Hg as [Hin <-]. auto.
  - intros a Ha Hne.
    destruct (getActiveNote_resolves st a Hok Ha Hne) as (note & ? & ? & ?).
    eauto.
Qed.

Lemma C6_active_id_witness :
  active_ok
    (run (take 2 [ (Samples.env1, CreateNote None None);
                   (Samples.env1, DeleteNote (generateId Samples.env1)) ])
         (new_NoteManager Samples.env0 Samples.no_storage)).
Proof.
  apply (C6_active_id_refers_to_a_note Samples.env0 Samples.no_storage
           [ (Samples.env1, CreateNote None None);
             (Samples.env1, DeleteNote (generateId Samples.env1)) ] 2).
  repeat constructor.
Defined.

(** C6 as written fails: [updateNote] spreads every property of its
    argument over the note, an [id] among them, and the active id then
    refers to no note. *)
Lemma C6_counterexample :
  ~ active_ok
      (updateNote Samples.env0 (id Samples.noteA)
         {| upd_id := Some (lit "note_0_x"); upd_title := None;
            upd_content := None; upd_createdAt := None;
            upd_updatedAt := None |}
         Samples.storeA).2.
Proof.
  intros (note & Hin & Hid). apply list_elem_of_singleton in Hin as ->.
  vm_compute in Hid. discriminate.
Qed.

(** ** Saving before switching *)

Lemma findIndex_insert (i : jsstring) (st : Store) (k : nat) (n n' : Note)
  (active : option jsstring) (ls : LocalStorage) :
  findIndex i st = Some (k, n) -> id n' = i ->
  findIndex i {| notes := <[k := n']> (notes st); activeNoteId := active;
                 localStorage := ls |} = Some (k, n').
Proof.
  unfold findIndex. cbn [notes]. intros Hf Hid.
  apply list_find_Some in Hf as (Hk & _ & Hleast).
  apply list_find_Some. split_and!.
  - apply list_lookup_insert_eq. eapply lookup_lt_Some; eauto.
  - exact Hid.
  - intros j y Hj Hlt. rewrite list_lookup_insert_ne in Hj by lia. eauto.
Qed.

Lemma updateNote_found (e : Env) (i : jsstring) (u : Updates) (st : Store)
  (k : nat) (n : Note) :
  findIndex i st = Some (k, n) -> upd_id u = None ->
  let st' := (updateNote e i u st).2 in
  getNoteById i st' = Some (merge n u (newDate1 e))
  /\ activeNoteId st' = activeNoteId st
  /\ (setItem e = WriteOk ->
      takenote_notes (localStorage st') = Some (JsonNotes (notes st'))).
Proof.
  intros Hf Hu. unfold updateNote. rewrite Hf. cbn [snd]. split_and!.
  - unfold getNoteById, saveNotesToStorage. cbn [notes activeNoteId].
    erewrite findIndex_insert; eauto.
    apply list_find_Some in Hf as (_ & Hid & _).
    unfold merge. cbn [id]. now rewrite Hu.
  - reflexivity.
  - now intros ->.
Qed.

Lemma updateNoteTitleFromContent_content (e : Env) (i c : jsstring) (st : Store) :
  i ∈ (id <$> notes st) ->
  let st' := updateNoteTitleFromContent e i c st in
  (exists note, getNoteById i st' = Some note /\ content note = c)
  /\ activeNoteId st' = activeNoteId st
  /\ (setItem e = WriteOk ->
      takenote_notes (localStorage st') = Some (JsonNotes (notes st'))).
Proof.
  intros Hi. destruct (findIndex_Some i st Hi) as (k & n & Hf & _ & _).
  unfold updateNoteTitleFromContent.
  destruct (truthy (extractFirstLineAsTitle c));
    (edestruct (updateNote_found e i) as (Hg & Ha & Hp);
      [exact Hf | | split_and!; [eexists; split; [exact Hg|] | exact Ha | exact Hp]]);
    reflexivity.
Qed.

Lemma list_find_delete_other {A} (P : A -> Prop) `{forall x, Decision (P x)}
  (l : list A) (k : nat) (y : A) :
  l !! k = Some y -> ~ P y ->
  snd <$> list_find P (delete k l) = snd <$> list_find P l.
Proof.
  revert k. induction l as [|x l IH]; intros k Hk Hy; [reflexivity|].
  destruct k as [|k]; simpl in *.
  - injection Hk as ->. destruct (decide (P y)); [contradiction|].
    now destruct (list_find P l) as [[? ?]|].
  - destruct (decide (P x)); [reflexivity|].
    specialize (IH k Hk Hy).
    destruct (list_find P (delete k l)) as [[? ?]|],
             (list_find P l) as [[? ?]|]; simpl in *; congruence.
Qed.

Lemma deleteNote_other (e : Env) (i j : jsstring) (st : Store) :
  i <> j ->
  getNoteById j (NoteManager.deleteNote e i st).2 = getNoteById j st.
Proof.
  intros Hij. unfold NoteManager.deleteNote.
  destruct (findIndex i st) as [[k n]|] eqn:Hf; [|reflexivity].
  apply list_find_Some in Hf as (Hk & Hid & _).
  unfold getNoteById, findIndex. cbn [snd saveNotesToStorage notes].
  apply (list_find_delete_other (fun note => id note = j) _ k n Hk). congruence.
Qed.

Lemma list_find_insert_other {A} (P : A -> Prop) `{forall x, Decision (P x)}
  (l : list A) (k : nat) (y y' : A) :
  l !! k = Some y -> ~ P y -> ~ P y' ->
  snd <$> list_find P (<[k := y']> l) = snd <$> list_find P l.
Proof.
  revert k. induction l as [|x l IH]; intros k Hk Hy Hy'; [reflexivity|].
  destruct k as [|k]; simpl in *.
  - injection Hk as ->. destruct (decide (P y')), (decide (P y)); try contradiction.
    reflexivity.
  - destruct (decide (P x)); [reflexivity|].
    specialize (IH k Hk Hy Hy').
    destruct (list_find P (<[k := y']> l)) as [[? ?]|],
             (list_find P l) as [[? ?]|]; simpl in *; congruence.
Qed.

Lemma updateNote_other (e : Env) (i j : jsstring) (u : Updates) (st : Store) :
  i <> j -> upd_id u = None ->
  getNoteById j (updateNote e i u st).2 = getNoteById j st.
Proof.
  intros Hij Hu. unfold updateNote.
  destruct (findIndex i st) as [[k n]|] eqn:Hf; [|reflexivity].
  apply list_find_Some in Hf as (Hk & Hid & _).
  unfold getNoteById, findIndex. cbn [snd saveNotesToStorage notes].
  apply (list_find_insert_other (fun note => id note = j) _ k n _ Hk).
  - congruence.
  - unfold merge. cbn [id]. rewrite Hu. cbn. congruence.
Qed.

Lemma updateNoteTitleFromContent_other (e : Env) (i j c : jsstring) (st : Store) :
  i <> j ->
  getNoteById j (updateNoteTitleFromContent e i c st) = getNoteById j st.
Proof.
  intros Hij. unfold updateNoteTitleFromContent.
  destruct (truthy _); now apply updateNote_other.
Qed.

Lemma added_emit (app app' : App) (evs : list Event) :
  events app' = events app ++ evs -> added app app' = evs.
Proof. unfold added. intros ->. apply drop_app_length. Qed.

Lemma deleteNote_events (e e' : Env) (i : jsstring) (app : App) :
  exists evs, events (deleteNote e e' i app) = events app ++ evs
              /\ saves_nothing evs.
Proof.
  unfold deleteNote.
  destruct (NoteManager.deleteNote e i (noteManager app)) as [[|] nm];
    cbn [with_store currentNoteId noteManager].
  - destruct (bool_decide (Some i = currentNoteId app)).
    + destruct (getActiveNote nm) as [n|].
      * eexists. split; [cbn; rewrite <- !app_assoc; reflexivity|].
        repeat constructor; discriminate.
      * eexists. split; [cbn; rewrite <- !app_assoc; reflexivity|].
        repeat constructor; discriminate.
    + eexists. split; [cbn; rewrite <- !app_assoc; reflexivity|].
      repeat constructor; discriminate.
  - eexists. split; [reflexivity|]. repeat constructor; discriminate.
Qed.

(** C2, as the code has it.  A request to switch to an existing note B
    while another note A of the collection is open first saves the
    content of the editor to A (through [updateNoteTitleFromContent]) and
    only then loads B's content into the editor: afterwards A's content
    in the store is the content the editor held before the switch, and
    the storage holds that collection when both [setItem] calls succeed.
    A request to delete saves nothing.  When the note deleted is not the
    open one, the editor keeps its content and its pending timer, the open
    note stays open and its content in the store stays what it was: the
    edit remains pending in the editor.  When the open note is deleted its
    edit goes with it. *)
Theorem C2_save_before_switch
  (e e' : Env) (a b : jsstring) (noteB : Note) (app : App) :
  currentNoteId app = Some a -> a <> [] -> a <> b ->
  a ∈ (id <$> notes (noteManager app)) ->
  getNoteById b (noteManager app) = Some noteB ->
  (let app' := switchToNote e b app in
   events app' = events app
     ++ [SaveToStore a (editor app); UpdateUI;
         EditorSetContent (content noteB); UpdateUI; EditorFocus]
   /\ (exists noteA, getNoteById a (noteManager app') = Some noteA
                     /\ content noteA = editor app)
   /\ (setItem e = WriteOk ->
       takenote_notes (localStorage (noteManager app'))
       = Some (JsonNotes (notes (noteManager app'))))
   /\ editor app' = content noteB
   /\ currentNoteId app' = Some b
   /\ activeNoteId (noteManager app') = Some b)
  /\ (let app' := deleteNote e e' b app in
      saves_nothing (added app app')
      /\ editor app' = editor app
      /\ autoSaveTimeout app' = autoSaveTimeout app
      /\ timers app' = timers app
      /\ currentNoteId app' = Some a
      /\ getNoteById a (noteManager app') = getNoteById a (noteManager app))
  /\ saves_nothing (added app (deleteNote e e' a app)).
Proof.
  intros Hcur Ha Hab Hin Hb. split; [|split].
  - unfold switchToNote. rewrite Hb. unfold is_set. rewrite Hcur.
    destruct a as [|x a]; [congruence|]. cbn [truthy andb].
    rewrite bool_decide_eq_false_2 by congruence. cbn [negb].
    unfold saveCurrentNote. rewrite Hcur. cbn [truthy].
    destruct (updateNoteTitleFromContent_content e (x :: a) (editor app)
                (noteManager app) Hin) as ((noteA & Hg & Hc) & Hact & Hp).
    pose proof (updateNoteTitleFromContent_other e (x :: a) b (editor app)
                  (noteManager app) Hab) as Hnb.
    rewrite Hb in Hnb.
    set (nm := updateNoteTitleFromContent e (x :: a) (editor app) (noteManager app)) in *.
    cbn [with_store updateUI emit noteManager currentNoteId editor events].
    unfold setActiveNote. rewrite Hnb.
    cbn [snd with_store updateUI emit editor_setContent events noteManager
         currentNoteId editor activeNoteId notes localStorage].
    split_and!.
    + rewrite <- !app_assoc. reflexivity.
    + exists noteA. split; [exact Hg | exact Hc].
    + exact Hp.
    + reflexivity.
    + reflexivity.
    + reflexivity.
  - cbv zeta. split_and!.
    + destruct (deleteNote_events e e' b app) as (evs & Hev & Hs).
      now rewrite (added_emit _ _ _ Hev).
    + unfold deleteNote.
      destruct (NoteManager.deleteNote e b (noteManager app)) as [[|] nm];
        cbn [with_store currentNoteId noteManager]; rewrite Hcur;
        [rewrite bool_decide_eq_false_2 by congruence|]; reflexivity.
    + unfold deleteNote.
      destruct (NoteManager.deleteNote e b (noteManager app)) as [[|] nm];
        cbn [with_store currentNoteId noteManager]; rewrite Hcur;
        [rewrite bool_decide_eq_false_2 by congruence|]; reflexivity.
    + unfold deleteNote.
      destruct (NoteManager.deleteNote e b (noteManager app)) as [[|] nm];
        cbn [with_store currentNoteId noteManager]; rewrite Hcur;
        [rewrite bool_decide_eq_false_2 by congruence|]; reflexivity.
    + unfold deleteNote.
      destruct (NoteManager.deleteNote e b (noteManager app)) as [[|] nm];
        cbn [with_store currentNoteId noteManager]; rewrite Hcur;
        [rewrite bool_decide_eq_false_2 by congruence|]; reflexivity.
    + unfold deleteNote.
      pose proof (deleteNote_other e b a (noteManager app) (not_eq_sym Hab)) as Ho.
      destruct (NoteManager.deleteNote e b (noteManager app)) as [[|] nm];
        cbn [with_store currentNoteId noteManager]; rewrite ?Hcur;
        [rewrite bool_decide_eq_false_2 by congruence|]; exact Ho.
  - destruct (deleteNote_events e e' a app) as (evs & Hev & Hs).
    now rewrite (added_emit _ _ _ Hev).
Qed.

Lemma C2_save_before_switch_witness :
  events (switchToNote Samples.env0 (id Samples.noteB) Samples.appA_edited)
  = [SaveToStore (id Samples.noteA) (lit "<p>new</p>"); UpdateUI;
     EditorSetContent (lit "<p>beta</p>"); UpdateUI; EditorFocus]
  /\ exists noteA,
       getNoteById (id Samples.noteA)
         (noteManager (switchToNote Samples.env0 (id Samples.noteB)
                         Samples.appA_edited)) = Some noteA
       /\ content noteA = lit "<p>new</p>".
Proof.
  destruct (C2_save_before_switch Samples.env0 Samples.env1
              (id Samples.noteA) (id Samples.noteB) Samples.noteB
              Samples.appA_edited) as ((Hev & Hsaved & _) & _).
  - reflexivity.
  - discriminate.
  - discriminate.
  - apply (bool_decide_unpack _). vm_compute. exact I.
  - reflexivity.
  - split; [exact Hev | exact Hsaved].
Defined.

(** C2 as written fails for a delete request: while note A is open with an
    edit that is not saved, deleting note B saves nothing, and A's content
    in the store is not what the editor holds. *)
Lemma C2_counterexample :
  let app := Samples.appA_edited in
  let app' := deleteNote Samples.env0 Samples.env1 (id Samples.noteB) app in
  events app' = [UpdateUI; ShowToast (lit "Note deleted successfully!")]
  /\ content <$> getNoteById (id Samples.noteA) (noteManager app')
     = Some (lit "<p>old</p>")
  /\ content <$> getNoteById (id Samples.noteA) (noteManager app')
     <> Some (editor app).
Proof. split_and!; [reflexivity | reflexivity | vm_compute; discriminate]. Qed.

(** ** More on whitespace and trimming *)

Lemma blank_app (a b : jsstring) : blank (a ++ b) <-> blank a /\ blank b.
Proof. apply Forall_app. Qed.

Lemma blank_rev (s : jsstring) : blank (reverse s) <-> blank s.
Proof. apply Forall_reverse. Qed.

Lemma trimStart_app_blank (w s : jsstring) :
  blank w -> trimStart (w ++ s) = trimStart s.
Proof. induction 1 as [|c w Hc _ IH]; simpl; [reflexivity|]. now rewrite Hc. Qed.

Lemma trimStart_split (s : jsstring) :
  exists w, blank w /\ s = w ++ trimStart s.
Proof.
  induction s as [|c s (w & Hw & IH)]; [exists []; split; [constructor|reflexivity]|].
  simpl. destruct (is_whitespace c) eqn:Hc.
  - exists (c :: w). split; [now constructor|]. simpl. now f_equal.
  - exists []. split; [constructor | reflexivity].
Qed.

Lemma trimStart_head (s : jsstring) (c : N) (r : jsstring) :
  trimStart s = c :: r -> is_whitespace c = false.
Proof.
  induction s as [|x s IH]; simpl; [discriminate|].
  destruct (is_whitespace x) eqn:Hx; [exact IH|]. now intros [= <- _].
Qed.

Lemma trimStart_nil_blank (s : jsstring) : trimStart s = [] -> blank s.
Proof.
  intros H. destruct (trimStart_split s) as (w & Hw & Hs).
  rewrite H, app_nil_r in Hs. now subst.
Qed.

Lemma trimStart_nonblank (c : N) (s : jsstring) :
  is_whitespace c = false -> trimStart (c :: s) = c :: s.
Proof. intros H. simpl. now rewrite H. Qed.

Lemma trimEnd_app_blank (s w : jsstring) :
  blank w -> trimEnd (s ++ w) = trimEnd s.
Proof.
  intros Hw. unfold trimEnd. rewrite reverse_app.
  rewrite trimStart_app_blank; [reflexivity | now apply blank_rev].
Qed.

Lemma trimEnd_split (s : jsstring) :
  exists w, blank w /\ s = trimEnd s ++ w.
Proof.
  unfold trimEnd. destruct (trimStart_split (reverse s)) as (w & Hw & Hs).
  exists (reverse w). split; [now apply blank_rev|].
  rewrite <- reverse_app, <- Hs. now rewrite reverse_involutive.
Qed.

Lemma trimEnd_nil_blank (s : jsstring) : trimEnd s = [] -> blank s.
Proof.
  intros H. destruct (trimEnd_split s) as (w & Hw & Hs).
  rewrite H in Hs. now subst.
Qed.

Lemma trimEnd_blank (s : jsstring) : blank s -> trimEnd s = [].
Proof.
  intros H. unfold trimEnd. rewrite trimStart_blank; [reflexivity|].
  now apply blank_rev.
Qed.

(** Trimming the end keeps a first code unit that is not whitespace. *)
Lemma trimEnd_cons (c : N) (s : jsstring) :
  is_whitespace c = false -> exists r, trimEnd (c :: s) = c :: r.
Proof.
  intros Hc. destruct (trimEnd_split (c :: s)) as (w & Hw & Hs).
  destruct (trimEnd (c :: s)) as [|x r] eqn:Ht.
  - simpl in Hs. subst w. apply Forall_cons in Hw as [Hw _]. congruence.
  - injection Hs as -> _. eauto.
Qed.

Lemma trim_nil_blank (s : jsstring) : trim s = [] -> blank s.
Proof.
  unfold trim. intros H%trimEnd_nil_blank.
  destruct (trimStart_split s) as (w & Hw & Hs). rewrite Hs.
  now apply blank_app.
Qed.

Lemma trim_nil_iff (s : jsstring) : trim s = [] <-> blank s.
Proof. split; [apply trim_nil_blank | apply trim_blank]. Qed.

Lemma trim_app_blank_l (w s : jsstring) : blank w -> trim (w ++ s) = trim s.
Proof. intros H. unfold trim. now rewrite trimStart_app_blank. Qed.

Lemma trim_app_blank_r (s w : jsstring) : blank w -> trim (s ++ w) = trim s.
Proof.
  intros Hw. unfold trim.
  destruct (trimStart_split s) as (v & Hv & Hs).
  destruct (trimStart s) as [|c r] eqn:Ht.
  - rewrite app_nil_r in Hs. subst v.
    rewrite !trimStart_blank; auto. now apply blank_app.
  - rewrite Hs at 1. rewrite <- app_assoc, trimStart_app_blank by exact Hv.
    pose proof (trimStart_head _ _ _ Ht) as Hc.
    change ((c :: r) ++ w) with (c :: (r ++ w)).
    rewrite trimStart_nonblank by exact Hc.
    change (c :: (r ++ w)) with ((c :: r) ++ w).
    now apply trimEnd_app_blank.
Qed.

(** What trimming leaves begins and ends with a code unit that is not
    whitespace. *)
Lemma trim_ends (s : jsstring) (c : N) (r : jsstring) :
  trim s = c :: r ->
  is_whitespace c = false
  /\ exists d, last (c :: r) = Some d /\ is_whitespace d = false.
Proof.
  unfold trim. intros H.
  destruct (trimStart s) as [|x u] eqn:Hs; [discriminate|].
  pose proof (trimStart_head _ _ _ Hs) as Hx.
  destruct (trimEnd_cons x u Hx) as (r' & Hr). rewrite Hr in H.
  injection H as -> ->. split; [exact Hx|].
  unfold trimEnd in Hr.
  destruct (trimStart (reverse (c :: u))) as [|d v] eqn:Hv;
    [discriminate|].
  exists d. split; [|eapply trimStart_head; eauto].
  rewrite <- Hr, reverse_cons. apply last_snoc.
Qed.

Lemma trim_Forall (P : N -> Prop) (s : jsstring) :
  Forall P s -> Forall P (trim s).
Proof.
  intros H. unfold trim.
  destruct (trimStart_split s) as (w & _ & Hs).
  destruct (trimEnd_split (trimStart s)) as (v & _ & Hv).
  rewrite Hs, Hv in H. apply Forall_app in H as [_ H].
  now apply Forall_app in H as [H _].
Qed.

(** ** Cutting a text at a class of code units *)

Section Cutting.

Variable cls : N -> bool.

Let nonempty : jsstring -> Prop := fun t => t <> [].

(** Cutting at runs and cutting at every code unit of the class differ in
    empty pieces only. *)
Lemma split_runs_pieces (s : jsstring) :
  filter nonempty (split_runs_from cls true s) = filter nonempty (pieces cls s)
  /\ exists l ls ls',
       split_runs_from cls false s = l :: ls /\ pieces cls s = l :: ls'
       /\ filter nonempty ls = filter nonempty ls'.
Proof.
  induction s as [|c s [IHt (l & ls & ls' & Hf & Hp & Hfl)]]; simpl.
  - split; [reflexivity|]. exists [], [], []. auto.
  - destruct (cls c) eqn:Hc.
    + split.
      * rewrite filter_cons_False by (unfold nonempty; tauto). exact IHt.
      * exists [], (split_runs_from cls true s), (pieces cls s). auto.
    + rewrite Hf, Hp. split.
      * rewrite !filter_cons_True by (unfold nonempty; discriminate).
        now rewrite Hfl.
      * exists (c :: l), ls, ls'. auto.
Qed.

Lemma filter_split_runs (s : jsstring) :
  filter nonempty (split_runs cls s) = filter nonempty (pieces cls s).
Proof.
  destruct (split_runs_pieces s) as (_ & l & ls & ls' & Hf & Hp & Hfl).
  unfold split_runs. rewrite Hf, Hp.
  destruct (decide (nonempty l)).
  - rewrite !filter_cons_True by assumption. now rewrite Hfl.
  - rewrite !filter_cons_False by assumption. exact Hfl.
Qed.

(** A text that ends outside the class has no empty piece after its first
    one, and none at all when it also begins outside the class. *)
Lemma split_runs_no_empty (s : jsstring) (d : N) :
  last s = Some d -> cls d = false ->
  Forall nonempty (split_runs_from cls true s)
  /\ forall l ls, split_runs_from cls false s = l :: ls ->
       Forall nonempty ls
       /\ (forall c r, s = c :: r -> cls c = false -> nonempty l).
Proof.
  induction s as [|c s IH]; [discriminate|]. intros Hl Hd.
  destruct s as [|c' s].
  - injection Hl as ->. simpl. rewrite Hd. split.
    + repeat constructor. discriminate.
    + intros l ls [= <- <-]. split; [constructor|]. intros; discriminate.
  - specialize (IH Hl Hd) as [IHt IHf].
    remember (c' :: s) as s' eqn:Hs'. simpl.
    destruct (cls c) eqn:Hc.
    + split; [exact IHt|]. intros l ls [= <- <-]. split; [exact IHt|].
      intros c0 r [= <- _] Hc0. congruence.
    + destruct (split_runs_from cls false s') as [|l' ls'] eqn:Hf.
      * split; [repeat constructor; discriminate|].
        intros l ls [= <- <-]. split; [constructor | intros; discriminate].
      * destruct (IHf l' ls' eq_refl) as [Hls _]. split.
        -- constructor; [discriminate | exact Hls].
        -- intros l ls [= <- <-]. split; [exact Hls | intros; discriminate].
Qed.

Lemma split_runs_trimmed (s : jsstring) (c d : N) (r : jsstring) :
  s = c :: r -> cls c = false -> last s = Some d -> cls d = false ->
  Forall nonempty (split_runs cls s).
Proof.
  intros Hs Hc Hl Hd. destruct (split_runs_no_empty s d Hl Hd) as [_ H].
  unfold split_runs.
  destruct (split_runs_from cls false s) as [|l ls] eqn:Hf; [constructor|].
  destruct (H l ls eq_refl) as [Hls Hhead]. constructor; eauto.
Qed.

(** The pieces of a text hold code units of the text only. *)
Lemma split_runs_Forall (P : N -> Prop) (b : bool) (s : jsstring) :
  Forall P s -> Forall (Forall P) (split_runs_from cls b s).
Proof.
  intros H. revert b. induction H as [|c s Hc Hs IH]; intros b; simpl.
  - repeat constructor.
  - destruct (cls c).
    + destruct b; [apply IH | constructor; [constructor | apply IH]].
    + specialize (IH false).
      destruct (split_runs_from cls false s) as [|l ls].
      * repeat constructor. exact Hc.
      * apply Forall_cons in IH as [Hl Hls]. repeat constructor; auto.
Qed.

Lemma pieces_all (w : jsstring) :
  Forall (fun c => cls c = true) w -> filter nonempty (pieces cls w) = [].
Proof.
  induction 1 as [|c w Hc _ IH]; simpl.
  - now rewrite filter_cons_False by (unfold nonempty; tauto).
  - rewrite Hc. now rewrite filter_cons_False by (unfold nonempty; tauto).
Qed.

Lemma pieces_all_head (w : jsstring) :
  Forall (fun c => cls c = true) w -> exists ls, pieces cls w = [] :: ls.
Proof. destruct 1 as [|c w Hc _]; simpl; [|rewrite Hc]; eauto. Qed.

Lemma pieces_app_l (w s : jsstring) :
  Forall (fun c => cls c = true) w ->
  filter nonempty (pieces cls (w ++ s)) = filter nonempty (pieces cls s).
Proof.
  induction 1 as [|c w Hc _ IH]; simpl; [reflexivity|].
  rewrite Hc. now rewrite filter_cons_False by (unfold nonempty; tauto).
Qed.

Lemma pieces_app_r (s w : jsstring) :
  Forall (fun c => cls c = true) w ->
  exists l ls ls',
    pieces cls (s ++ w) = l :: ls /\ pieces cls s = l :: ls'
    /\ filter nonempty ls = filter nonempty ls'.
Proof.
  intros Hw. induction s as [|c s (l & ls & ls' & H1 & H2 & H3)]; simpl.
  - destruct (pieces_all_head w Hw) as (ls & Hp).
    exists [], ls, []. split_and!; auto.
    pose proof (pieces_all w Hw) as Hf. rewrite Hp in Hf.
    now rewrite filter_cons_False in Hf by (unfold nonempty; tauto).
  - destruct (cls c).
    + exists [], (pieces cls (s ++ w)), (pieces cls s). split_and!; auto.
      rewrite H1, H2.
      destruct (decide (nonempty l)).
      * rewrite !filter_cons_True by assumption. now rewrite H3.
      * now rewrite !filter_cons_False by assumption.
    + rewrite H1, H2. exists (c :: l), ls, ls'. auto.
Qed.

Lemma filter_pieces_app_r (s w : jsstring) :
  Forall (fun c => cls c = true) w ->
  filter nonempty (pieces cls (s ++ w)) = filter nonempty (pieces cls s).
Proof.
  intros Hw. destruct (pieces_app_r s w Hw) as (l & ls & ls' & -> & -> & H3).
  destruct (decide (nonempty l)).
  - rewrite !filter_cons_True by assumption. now rewrite H3.
  - now rewrite !filter_cons_False by assumption.
Qed.

End Cutting.

(** ** Statistics *)

Lemma tokens_trim (s : jsstring) : tokens (trim s) = tokens s.
Proof.
  unfold tokens, trim.
  destruct (trimStart_split s) as (w & Hw & Hs).
  destruct (trimEnd_split (trimStart s)) as (v & Hv & Ht).
  rewrite Hs at 2. rewrite Ht at 2.
  rewrite pieces_app_l by exact Hw.
  now rewrite filter_pieces_app_r by exact Hv.
Qed.

(** The words the code counts are the whitespace-delimited tokens. *)
Lemma words_are_tokens (p : jsstring) :
  (if truthy (trim p) then length (split_runs is_whitespace (trim p)) else 0%nat)
  = length (tokens p).
Proof.
  rewrite <- (tokens_trim p).
  destruct (trim p) as [|c r] eqn:Ht; [reflexivity|]. cbn [truthy].
  destruct (trim_ends p c r Ht) as (Hc & d & Hl & Hd).
  pose proof (split_runs_trimmed is_whitespace (c :: r) c d r eq_refl Hc Hl Hd)
    as Hne.
  unfold tokens. rewrite <- filter_split_runs.
  f_equal. symmetry. clear -Hne.
  induction Hne as [|x l Hx _ IH]; [reflexivity|].
  rewrite filter_cons_True by exact Hx. now f_equal.
Qed.

Lemma filter_nonblank_length (l : list jsstring) :
  filter (fun s => (0 < length (trim s))%nat) l
  = filter (fun seg => trim seg <> []) l.
Proof.
  induction l as [|x l IH]; [reflexivity|].
  destruct (trim x) as [|c r] eqn:Hx.
  - rewrite !filter_cons_False; [exact IH | rewrite Hx; tauto | rewrite Hx; simpl; lia].
  - rewrite !filter_cons_True; [now f_equal | rewrite Hx; discriminate | rewrite Hx; simpl; lia].
Qed.

(** The sentences the code counts are the segments that hold more than
    whitespace. *)
Lemma sentences_are_nonblank_segments (p : jsstring) :
  (if truthy (trim p)
   then length (filter (fun s => (0 < length (trim s))%nat)
                       (split_runs sentence_end p))
   else 0%nat)
  = length (nonblank_segments p).
Proof.
  unfold nonblank_segments, segments. rewrite filter_nonblank_length.
  destruct (trim p) as [|c r] eqn:Ht; [|reflexivity]. cbn [truthy].
  apply trim_nil_blank in Ht.
  pose proof (split_runs_Forall sentence_end _ false p Ht) as Hall.
  fold (split_runs sentence_end p) in Hall.
  induction Hall as [|x l Hx _ IH]; [reflexivity|].
  rewrite filter_cons_False; [exact IH|].
  intros Hne. apply Hne. now apply trim_blank.
Qed.

Lemma or_else_self (a : jsstring) : or_else a (or_else a []) = a.
Proof. now destruct a. Qed.

(** C8, as the code has it.  [getNoteStats] strips the markup and returns:
    as [characters] the length of the stripped text, as [words] the number
    of its whitespace-delimited tokens (0 for a blank text), and as
    [sentences] the number of segments, among those obtained by cutting
    the stripped text at the runs of [.], [!], [?], that hold more than
    whitespace (0 for a blank text).  On [<p>Hello world.</p>] it returns
    2 words, 12 characters, 1 sentence. *)
Theorem C8_getNoteStats_counts (content : jsstring) :
  let text := DOM.textContent_of_innerHTML content in
  getNoteStats content
  = {| words := length (tokens text);
       characters := length text;
       sentences := length (nonblank_segments text) |}
  /\ (blank text ->
      words (getNoteStats content) = 0%nat
      /\ sentences (getNoteStats content) = 0%nat)
  /\ getNoteStats (lit "<p>Hello world.</p>")
     = {| words := 2; characters := 12; sentences := 1 |}.
Proof.
  intros text.
  assert (getNoteStats content
          = {| words := length (tokens text); characters := length text;
               sentences := length (nonblank_segments text) |}) as Heq.
  { unfold getNoteStats. destruct content as [|c content]; [reflexivity|].
    cbn [truthy negb]. fold text. rewrite or_else_self.
    now rewrite words_are_tokens, sentences_are_nonblank_segments. }
  split_and!; [exact Heq | | reflexivity].
  intros Hb. rewrite Heq. cbn [words sentences].
  rewrite <- words_are_tokens, <- sentences_are_nonblank_segments.
  now rewrite (trim_blank text Hb).
Qed.

Lemma C8_getNoteStats_witness :
  words (getNoteStats (lit "<p>  </p>")) = 0%nat
  /\ sentences (getNoteStats (lit "<p>  </p>")) = 0%nat.
Proof.
  apply (C8_getNoteStats_counts (lit "<p>  </p>")).
  repeat constructor.
Defined.

(** C8 as written fails: a segment of whitespace is not empty but is not
    counted.  The text [Hello world. ], with a space after the full stop,
    has two non-empty segments and one sentence. *)
Lemma C8_counterexample :
  let text := DOM.textContent_of_innerHTML (lit "<p>Hello world. </p>") in
  text = lit "Hello world. "
  /\ nonempty_segments text = [lit "Hello world"; lit " "]
  /\ sentences (getNoteStats (lit "<p>Hello world. </p>")) = 1%nat
  /\ sentences (getNoteStats (lit "<p>Hello world. </p>"))
     <> length (nonempty_segments text).
Proof. split_and!; [reflexivity | reflexivity | reflexivity | discriminate]. Qed.

(** ** The title taken from the content *)

Lemma split_cons (sep c : N) (s : jsstring) :
  split sep (c :: s) =
  if (c =? sep)%N then [] :: split sep s
  else (c :: default [] (split sep s !! 0%nat)) :: tail (split sep s).
Proof. simpl. destruct (c =? sep)%N; [reflexivity|]. now destruct (split sep s). Qed.

Lemma line1_cons (c : N) (s : jsstring) :
  line1 (c :: s) = if (c =? 10)%N then [] else c :: line1 s.
Proof. unfold line1. rewrite split_cons. now destruct (c =? 10)%N. Qed.

Lemma first_nonblank_line_cons (c : N) (s : jsstring) :
  first_nonblank_line (c :: s) =
  if (c =? 10)%N then first_nonblank_line s
  else match trim (c :: line1 s) with
       | [] => head (filter (fun l => l <> []) (trim <$> tail (split 10 s)))
       | l => Some l
       end.
Proof.
  unfold first_nonblank_line. rewrite split_cons.
  destruct (c =? 10)%N; cbn [fmap list_fmap].
  - now rewrite filter_cons_False by (cbn; tauto).
  - fold (line1 s). destruct (trim (c :: line1 s)) as [|x l] eqn:Ht.
    + now rewrite filter_cons_False by tauto.
    + now rewrite filter_cons_True by discriminate.
Qed.

Lemma first_nonblank_line_tail (s : jsstring) :
  trim (line1 s) = [] ->
  first_nonblank_line s
  = head (filter (fun l => l <> []) (trim <$> tail (split 10 s))).
Proof.
  unfold first_nonblank_line, line1. destruct (split 10 s) as [|l ls]; simpl.
  - reflexivity.
  - intros H. now rewrite filter_cons_False by tauto.
Qed.

Lemma newline_is_whitespace (c : N) : (c =? 10)%N = true -> is_whitespace c = true.
Proof. intros H%N.eqb_eq. now subst. Qed.

(** Leading whitespace does not change the first non-blank line. *)
Lemma first_nonblank_line_trimStart (s : jsstring) :
  first_nonblank_line (trimStart s) = first_nonblank_line s.
Proof.
  induction s as [|c s IH]; [reflexivity|]. simpl.
  destruct (is_whitespace c) eqn:Hc; [|reflexivity].
  rewrite IH, first_nonblank_line_cons.
  destruct (c =? 10)%N; [reflexivity|].
  change (c :: line1 s) with ([c] ++ line1 s).
  rewrite trim_app_blank_l by (repeat constructor; exact Hc).
  destruct (trim (line1 s)) as [|x l] eqn:Ht.
  - now apply first_nonblank_line_tail.
  - unfold first_nonblank_line, line1 in *.
    destruct (split 10 s) as [|l0 ls]; simpl in *; [discriminate|].
    rewrite Ht. now rewrite filter_cons_True by discriminate.
Qed.

(** The first line of a text that begins with a code unit that is not
    whitespace is its first non-blank line. *)
Lemma first_nonblank_line_head (c : N) (s : jsstring) :
  is_whitespace c = false ->
  first_nonblank_line (c :: s) = Some (trim (line1 (c :: s)))
  /\ trim (line1 (c :: s)) <> [].
Proof.
  intros Hc. rewrite first_nonblank_line_cons, line1_cons.
  destruct (c =? 10)%N eqn:Hn.
  { apply newline_is_whitespace in Hn. congruence. }
  assert (trim (c :: line1 s) <> []) as Hne.
  { intros Hb%trim_nil_blank. apply Forall_cons in Hb as [Hb _]. congruence. }
  split; [|exact Hne]. now destruct (trim (c :: line1 s)).
Qed.

Lemma blank_line1 (w : jsstring) : blank w -> blank (line1 w).
Proof.
  induction 1 as [|c w Hc _ IH]; [constructor|].
  rewrite line1_cons. destruct (c =? 10)%N; [constructor | now constructor].
Qed.

Lemma line1_app_blank (v w : jsstring) :
  blank w -> exists w', blank w' /\ line1 (v ++ w) = line1 v ++ w'.
Proof.
  intros Hw. induction v as [|c v (w' & Hw' & IH)].
  - exists (line1 w). split; [now apply blank_line1 | reflexivity].
  - simpl. rewrite !line1_cons. destruct (c =? 10)%N.
    + exists []. split; [constructor | reflexivity].
    + exists w'. split; [exact Hw'|]. simpl. now f_equal.
Qed.

(** What [extractFirstLineAsTitle] returns is the first non-blank line of
    the content without its tags, trimmed; the fallback ["Untitled Note"]
    is never reached. *)
Lemma extractFirstLineAsTitle_spec (content : jsstring) :
  extractFirstLineAsTitle content
  = default [] (first_nonblank_line (replace_tags content))
  /\ forall line, first_nonblank_line (replace_tags content) = Some line ->
                  line <> [].
Proof.
  split.
  - unfold extractFirstLineAsTitle.
    destruct content as [|c0 content0]; [reflexivity|].
    cbn [truthy negb]. set (t := replace_tags (c0 :: content0)).
    rewrite <- (first_nonblank_line_trimStart t).
    change (trim t) with (trimEnd (trimStart t)).
    destruct (trimStart t) as [|c u] eqn:Hu.
    + reflexivity.
    + pose proof (trimStart_head _ _ _ Hu) as Hc.
      destruct (trimEnd_cons c u Hc) as (r & Hr). rewrite Hr. cbn [truthy negb].
      destruct (trimEnd_split (c :: u)) as (w & Hw & Hs). rewrite Hr in Hs.
      destruct (first_nonblank_line_head c u Hc) as [Hf _]. rewrite Hf.
      destruct (first_nonblank_line_head c r Hc) as [_ Hne].
      fold (line1 (c :: r)). cbn [from_option]. unfold Datatypes.id.
      rewrite Hs.
      destruct (line1_app_blank (c :: r) w Hw) as (w' & Hw' & ->).
      rewrite trim_app_blank_r by exact Hw'.
      unfold or_else. destruct (trim (line1 (c :: r))); [congruence | reflexivity].
  - intros line. unfold first_nonblank_line.
    intros Hh. apply head_Some_elem_of in Hh.
    now apply list_elem_of_filter in Hh as [Hh _].
Qed.

Lemma truncated_code (line : jsstring) :
  substring0 50 line ++ (if (50 <? length line)%nat then lit "..." else [])
  = truncated line.
Proof.
  unfold truncated, substring0.
  destruct (Nat.ltb_spec 50 (length line)) as [H|H].
  - now rewrite decide_True by exact H.
  - rewrite decide_False by lia. rewrite app_nil_r. apply take_ge. lia.
Qed.

Lemma normalize_newlines_id (s : jsstring) :
  no_cr s -> DOM.normalize_newlines s = s.
Proof.
  induction 1 as [|c s Hc _ IH]; [reflexivity|]. simpl. rewrite Hc. now f_equal.
Qed.




Lemma split_Forall (P : N -> Prop) (sep : N) (s : jsstring) :
  Forall P s -> Forall (Forall P) (split sep s).
Proof.
  induction 1 as [|c s Hc _ IH]; simpl; [repeat constructor|].
  destruct (c =? sep)%N; [constructor; [constructor | exact IH]|].
  destruct (split sep s) as [|l ls]; [repeat constructor; exact Hc|].
  apply Forall_cons in IH as [Hl Hls]. repeat constructor; auto.
Qed.





(** What the statement leaves out: a character reference is markup that
    [extractFirstLineAsTitle] does not strip, unlike [getNoteStats] and
    [exportNoteAsText], which read the text through the parser. *)
Example references_stay_in_title :
  let c := lit "<p>Tom &amp; Jerry</p>" in
  DOM.textContent_of_innerHTML c = lit "Tom & Jerry"
  /\ ~ tags_alone c
  /\ title <$> getNoteById (id Samples.noteA)
                 (updateNoteTitleFromContent Samples.env0 (id Samples.noteA) c
                    Samples.storeA)
     = Some (lit "Tom &amp; Jerry")
  /\ exp_content <$>
       exportNoteAsText (id Samples.noteA)
         (updateNoteTitleFromContent Samples.env0 (id Samples.noteA) c
            Samples.storeA)
     = Some (lit "Tom & Jerry").
Proof.
  split_and!; [reflexivity | | reflexivity | reflexivity].
  intros H. vm_compute in H. discriminate.
Qed.

(** ** Import, then export *)

Lemma kept_spec (c : N) : kept c = true -> (c =? 13)%N = false /\ (c =? 0)%N = false.
Proof. unfold kept. intros H%negb_true_iff. now apply orb_false_elim in H. Qed.

(** The parser reads an escaped code unit back as the code unit. *)
Lemma text_from_escape (c : N) (rest : jsstring) :
  (c =? 0)%N = false ->
  DOM.text_from (DOM.Data 0) (DOM.escape c ++ rest)
  = c :: DOM.text_from (DOM.Data 0) rest.
Proof.
  intros H0. unfold DOM.escape.
  destruct (N.eqb_spec c 38) as [->|H38]; [reflexivity|].
  destruct (N.eqb_spec c 60) as [->|H60]; [reflexivity|].
  destruct (N.eqb_spec c 62) as [->|H62]; [reflexivity|].
  destruct (N.eqb_spec c 160) as [->|H160]; [reflexivity|].
  cbn [app DOM.text_from]. rewrite H0.
  apply N.eqb_neq in H38, H60. now rewrite H38, H60.
Qed.

Lemma text_from_escapeHtml (line rest : jsstring) :
  intact line ->
  DOM.text_from (DOM.Data 0) (escapeHtml line ++ rest)
  = line ++ DOM.text_from (DOM.Data 0) rest.
Proof.
  unfold escapeHtml, DOM.innerHTML_of_textContent.
  induction 1 as [|c l Hc _ IH]; [reflexivity|].
  cbn [fmap list_fmap concat]. fold (@fmap list _ _ _ DOM.escape l).
  rewrite <- app_assoc. apply kept_spec in Hc as [_ H0].
  rewrite text_from_escape by exact H0. cbn. now f_equal.
Qed.

Lemma text_from_p (rest : jsstring) :
  DOM.text_from (DOM.Data 0) (lit "<p>" ++ rest) = DOM.text_from (DOM.Data 0) rest
  /\ DOM.text_from (DOM.Data 0) (lit "</p>" ++ rest)
     = DOM.text_from (DOM.Data 0) rest.
Proof. split; reflexivity. Qed.

Lemma text_from_paragraphs (ps : list jsstring) :
  Forall intact ps ->
  DOM.text_from (DOM.Data 0) (join (paragraph <$> ps)) = concat ps.
Proof.
  induction 1 as [|l ps Hl _ IH]; [reflexivity|].
  cbn [fmap list_fmap join concat]. unfold paragraph at 1.
  rewrite <- !app_assoc.
  rewrite (proj1 (text_from_p _)), text_from_escapeHtml by exact Hl.
  rewrite (proj2 (text_from_p _)). f_equal. exact IH.
Qed.

Lemma escapeHtml_no_cr (line : jsstring) : intact line -> no_cr (escapeHtml line).
Proof.
  unfold escapeHtml, DOM.innerHTML_of_textContent, no_cr.
  induction 1 as [|c l Hc _ IH]; [constructor|].
  cbn [fmap list_fmap concat]. apply Forall_app. split; [|exact IH].
  apply kept_spec in Hc as [H13 _]. unfold DOM.escape.
  repeat match goal with
         | |- context [if ?b then _ else _] => destruct b
         end; repeat constructor; exact H13.
Qed.

Lemma paragraphs_no_cr (ps : list jsstring) :
  Forall intact ps -> no_cr (join (paragraph <$> ps)).
Proof.
  induction 1 as [|l ps Hl _ IH]; [constructor|].
  cbn [fmap list_fmap join concat]. unfold paragraph at 1.
  apply Forall_app. split; [|exact IH].
  apply Forall_app. split; [repeat constructor|].
  apply Forall_app. split; [now apply escapeHtml_no_cr | repeat constructor].
Qed.

Lemma paragraph_nonempty (line : jsstring) : paragraph line <> [].
Proof. discriminate. Qed.

Lemma textContent_of_paragraphs (ps : list jsstring) :
  Forall intact ps ->
  DOM.textContent_of_innerHTML (or_else (join (paragraph <$> ps)) (lit "<p></p>"))
  = concat ps.
Proof.
  intros H. destruct ps as [|l ps]; [reflexivity|].
  replace (or_else (join (paragraph <$> l :: ps)) (lit "<p></p>"))
    with (join (paragraph <$> l :: ps)) by reflexivity.
  unfold DOM.textContent_of_innerHTML.
  rewrite normalize_newlines_id by now apply paragraphs_no_cr.
  now apply text_from_paragraphs.
Qed.

Lemma getNoteById_head (note : Note) (l : list Note) (a : option jsstring)
  (ls : LocalStorage) :
  getNoteById (id note)
    {| notes := note :: l; activeNoteId := a; localStorage := ls |} = Some note.
Proof.
  unfold getNoteById, findIndex. cbn [notes list_find].
  now rewrite decide_True by reflexivity.
Qed.

Lemma split_no_sep (sep : N) (s : jsstring) : sep ∉ s -> split sep s = [s].
Proof.
  induction s as [|c s IH]; [reflexivity|]. intros Hs.
  apply not_elem_of_cons in Hs as [Hc Hs]. simpl.
  destruct (N.eqb_spec c sep) as [->|_]; [congruence|]. now rewrite IH.
Qed.

Lemma imported_paragraphs (text : jsstring) :
  filter (fun line => (0 < length line)%nat) (trim <$> split 10 text)
  = paragraphs text.
Proof.
  unfold paragraphs. apply list_filter_iff. intros [|c l]; simpl; split;
    intros H; try lia; try congruence.
Qed.

(** A text without CR and NUL has paragraphs without them; so has a text
    whose only CRs end its lines, as they are trimmed away. *)
Lemma paragraphs_intact (text : jsstring) :
  intact text -> Forall intact (paragraphs text).
Proof.
  intros H. unfold paragraphs.
  assert (Forall intact (trim <$> split 10 text)) as Hall.
  2: { rewrite Forall_forall in *. intros l [_ Hl]%list_elem_of_filter. auto. }
  apply Forall_fmap. eapply Forall_impl; [apply split_Forall, H|].
  intros l Hl. cbn. now apply trim_Forall.
Qed.

(** C3, as the code has it.  Exporting the note that [importTextContent]
    made of a text yields the non-blank lines of the text, each without the
    whitespace around it, one after the other with nothing between them:
    the line breaks of the text are not restored.  This holds for every
    text whose trimmed lines hold no CR and no NUL, among them every text
    without markup-significant code units, CR and NUL.  A text of one line
    without whitespace around it comes back as it was. *)
Theorem C3_import_then_export
  (e : Env) (text : jsstring) (filename : option jsstring) (st : Store) :
  Forall intact (paragraphs text) ->
  let note := (importTextContent e text filename st).1 in
  let st' := (importTextContent e text filename st).2 in
  content note
  = or_else (join (paragraph <$> paragraphs text)) (lit "<p></p>")
  /\ exists exported,
       exportNoteAsText (id note) st' = Some exported
       /\ exp_content exported = concat (paragraphs text)
       /\ (10%N ∉ text -> trim text = text -> exp_content exported = text).
Proof.
  intros Hp note st'.
  assert (content note
          = or_else (join (paragraph <$> paragraphs text)) (lit "<p></p>"))
    as Hc.
  { unfold note, importTextContent, createNote. cbn [fst content default from_option].
    unfold Datatypes.id. now rewrite imported_paragraphs. }
  split; [exact Hc|].
  assert (getNoteById (id note) st' = Some note) as Hg.
  { unfold note, st', importTextContent, createNote, saveNotesToStorage.
    cbn [fst snd notes activeNoteId localStorage]. apply getNoteById_head. }
  unfold exportNoteAsText. rewrite Hg. eexists. split; [reflexivity|].
  cbn [exp_content]. rewrite or_else_self, Hc.
  rewrite textContent_of_paragraphs by exact Hp.
  split; [reflexivity|].
  intros Hnl Ht. unfold paragraphs. rewrite split_no_sep by exact Hnl.
  cbn [fmap list_fmap]. rewrite Ht.
  destruct text as [|c r]; [reflexivity|].
  rewrite filter_cons_True by discriminate. cbn. f_equal. apply app_nil_r.
Qed.

Lemma C3_import_then_export_witness :
  exp_content <$>
    exportNoteAsText
      (id (importTextContent Samples.env0 (lit "Buy milk") (Some (lit "todo.txt"))
             Samples.empty_store).1)
      (importTextContent Samples.env0 (lit "Buy milk") (Some (lit "todo.txt"))
         Samples.empty_store).2
  = Some (lit "Buy milk").
Proof.
  destruct (C3_import_then_export Samples.env0 (lit "Buy milk")
              (Some (lit "todo.txt")) Samples.empty_store)
    as (_ & exported & -> & _ & Hsame).
  - apply paragraphs_intact. repeat constructor.
  - cbn [fmap option_fmap option_map]. f_equal. apply Hsame.
    + apply (bool_decide_unpack _). vm_compute. exact I.
    + reflexivity.
Defined.

(** C3 as written fails: a text of two lines, free of markup-significant
    code units, comes back as one line; and a carriage return inside a
    line comes back as a line feed. *)
Lemma C3_counterexample :
  let text := lit "a" ++ [10%N] ++ lit "b" in
  let cr := lit "q" ++ [13%N] ++ lit "r" in
  let round_trip t :=
    exp_content <$>
      exportNoteAsText
        (id (importTextContent Samples.env0 t (Some (lit "two.txt"))
               Samples.empty_store).1)
        (importTextContent Samples.env0 t (Some (lit "two.txt"))
           Samples.empty_store).2 in
  (plain text /\ round_trip text = Some (lit "ab") /\ lit "ab" <> text)
  /\ (plain cr /\ paragraphs cr = [cr]
      /\ round_trip cr = Some (lit "q" ++ [10%N] ++ lit "r")
      /\ lit "q" ++ [10%N] ++ lit "r" <> cr).
Proof.
  split; split_and!;
    try (repeat constructor; fail); try reflexivity; discriminate.
Qed.

(** ** The built-ins on values whose results are known *)

Example toISOString_epoch :
  toISOString 0 = lit "1970-01-01T00:00:00.000Z".
Proof. reflexivity. Qed.

Example toISOString_2023 :
  toISOString 1700000000000 = lit "2023-11-14T22:13:20.000Z".
Proof. reflexivity. Qed.

Example toISOString_leap_day :
  toISOString 951782400123 = lit "2000-02-29T00:00:00.123Z".
Proof. reflexivity. Qed.

Example trim_both_ends : trim (lit "  a b  ") = lit "a b".
Proof. reflexivity. Qed.

Example split_lines :
  split 10 (lit "a" ++ [10%N] ++ lit "b" ++ [10%N]) = [lit "a"; lit "b"; []].
Proof. reflexivity. Qed.

Example split_whitespace_runs :
  split_runs is_whitespace (lit "a  b c") = [lit "a"; lit "b"; lit "c"].
Proof. reflexivity. Qed.

Example split_empty : split_runs is_whitespace [] = [[]].
Proof. reflexivity. Qed.

Example replace_tags_sample :
  replace_tags (lit "<p>Hi <b>x</b></p> a<b") = lit "Hi x a<b".
Proof. reflexivity. Qed.

Example replace_extension_last_only :
  replace_extension (lit "notes.tar.gz") = lit "notes.tar".
Proof. reflexivity. Qed.

Example replace_extension_dotfile : replace_extension (lit ".txt") = [].
Proof. reflexivity. Qed.

Example replace_extension_slash :
  replace_extension (lit "a/b.c/d") = lit "a/b.c/d".
Proof. reflexivity. Qed.

Example replace_extension_trailing_dot :
  replace_extension (lit "abc.") = lit "abc.".
Proof. reflexivity. Qed.

Example generateId_sample :
  generateId Samples.env0 = lit "note_1700000000000_4fzyo82mv".
Proof. reflexivity. Qed.

Example sanitizeFilename_sample :
  sanitizeFilename (lit "My Note #1") = lit "my_note__1".
Proof. reflexivity. Qed.

Example textContent_sample :
  DOM.textContent_of_innerHTML (lit "<p>a &amp; b &lt; c</p><br/>x < y")
  = lit "a & b < cx < y".
Proof. reflexivity. Qed.

Example escapeHtml_sample : escapeHtml (lit "a<b>&") = lit "a&lt;b&gt;&amp;".
Proof. reflexivity. Qed.

Example escapeHtml_round_trip :
  DOM.textContent_of_innerHTML (escapeHtml (lit "a<b>&amp; c")) = lit "a<b>&amp; c".
Proof. reflexivity. Qed.

(** * Further properties of the store and of the coordinator *)

Import Requests Notions.

(** ** File names *)

Ltac split_tests :=
  repeat (cbn [andb orb negb];
          match goal with
          | |- context [(?a <=? ?b)%N] => destruct (N.leb_spec a b)
          | |- context [(?a =? ?b)%N] => destruct (N.eqb_spec a b)
          | H : context [(?a <=? ?b)%N] |- _ => destruct (N.leb_spec a b)
          | H : context [(?a =? ?b)%N] |- _ => destruct (N.eqb_spec a b)
          end);
  cbn [andb orb negb] in *.

Lemma sanitize_unit (c : N) :
  filename_safe (lower (if alnum c then c else 95%N)) = true.
Proof.
  unfold filename_safe, lower, alnum. split_tests; try reflexivity; lia.
Qed.

Lemma sanitize_safe_unit (c : N) :
  filename_safe c = true -> lower (if alnum c then c else 95%N) = c.
Proof.
  unfold filename_safe, lower, alnum. intros H.
  split_tests; try discriminate; try reflexivity; lia.
Qed.

(** X1. A sanitized file name has the length of the title it comes from
    and holds nothing but the code units [a]-[z], [0]-[9] and [_];
    sanitizing it again changes nothing.  The file name of an export is the
    sanitized title of the note followed by [.txt]. *)
Theorem X1_sanitizeFilename_safe (filename : jsstring) :
  length (sanitizeFilename filename) = length filename
  /\ Forall (fun c => filename_safe c = true) (sanitizeFilename filename)
  /\ sanitizeFilename (sanitizeFilename filename) = sanitizeFilename filename
  /\ (forall i st exported,
        exportNoteAsText i st = Some exported ->
        exists note, getNoteById i st = Some note
          /\ exp_title exported = title note
          /\ exp_filename exported = sanitizeFilename (title note) ++ lit ".txt").
Proof.
  unfold sanitizeFilename, toLowerCase, replace_non_alnum.
  assert (Forall (fun c => filename_safe c = true)
            (lower <$> ((fun c => if alnum c then c else 95%N) <$> filename)))
    as Hsafe.
  { rewrite <- list_fmap_compose. apply Forall_fmap, Forall_forall.
    intros c _. apply sanitize_unit. }
  split_and!.
  - now rewrite !length_fmap.
  - exact Hsafe.
  - rewrite <- (list_fmap_compose _ lower).
    rewrite <- (list_fmap_id (lower <$> _)) at 2.
    apply Forall_fmap_ext_1. eapply Forall_impl; [exact Hsafe|].
    intros c Hc. now apply sanitize_safe_unit.
  - intros i st exported. unfold exportNoteAsText.
    destruct (getNoteById i st) as [note|]; [|discriminate].
    intros [= <-]. exists note. auto.
Qed.

Lemma X1_sanitizeFilename_witness :
  exists note,
    getNoteById (lit "note_1_a") Samples.storeAB = Some note
    /\ exp_title {| exp_title := lit "Alpha"; exp_content := lit "old";
                    exp_filename := lit "alpha.txt" |} = title note
    /\ exp_filename {| exp_title := lit "Alpha"; exp_content := lit "old";
                       exp_filename := lit "alpha.txt" |}
       = sanitizeFilename (title note) ++ lit ".txt".
Proof.
  apply (proj2 (proj2 (proj2 (X1_sanitizeFilename_safe (lit "Alpha"))))
           (lit "note_1_a") Samples.storeAB).
  reflexivity.
Defined.

(** ** Removing the tags *)

Lemma replace_tags_from_tag_free (open : option jsstring) (s : jsstring) :
  (forall buf, open = Some buf -> 62%N ∉ buf) ->
  tag_free (replace_tags_from open s).
Proof.
  revert open. induction s as [|c s IH]; intros open Hopen; simpl.
  - destruct open as [buf|].
    + exists [], buf. split_and!; [reflexivity | apply not_elem_of_nil | eauto].
    + exists [], []. split_and!; [reflexivity | |]; apply not_elem_of_nil.
  - destruct open as [buf|].
    + destruct (N.eqb_spec c 62) as [->|Hc].
      * apply IH. discriminate.
      * apply IH. intros buf' [= <-]. rewrite elem_of_app, list_elem_of_singleton.
        intros [H|H]; [now apply (Hopen buf) | congruence].
    + destruct (N.eqb_spec c 60) as [->|Hc].
      * apply IH. intros buf' [= <-]. rewrite list_elem_of_singleton. discriminate.
      * destruct (IH None) as (a & b & Heq & Ha & Hb); [discriminate|].
        exists (c :: a), b. rewrite Heq. split_and!; [reflexivity | | exact Hb].
        rewrite elem_of_cons. intros [H|H]; [congruence | contradiction].
Qed.

Lemma replace_tags_from_open (buf s : jsstring) :
  62%N ∉ s -> replace_tags_from (Some buf) s = buf ++ s.
Proof.
  revert buf. induction s as [|c s IH]; intros buf Hs; simpl.
  - now rewrite app_nil_r.
  - apply not_elem_of_cons in Hs as [Hc Hs].
    destruct (N.eqb_spec c 62) as [->|_]; [congruence|].
    rewrite IH by exact Hs. now rewrite <- app_assoc.
Qed.

Lemma replace_tags_from_closed (s : jsstring) :
  62%N ∉ s -> replace_tags_from None s = s.
Proof.
  induction s as [|c s IH]; intros Hs; simpl; [reflexivity|].
  apply not_elem_of_cons in Hs as [Hc Hs].
  destruct (N.eqb_spec c 60) as [->|_].
  - now rewrite replace_tags_from_open.
  - now rewrite IH.
Qed.

Lemma replace_tags_tag_free_id (s : jsstring) :
  tag_free s -> replace_tags s = s.
Proof.
  intros (a & b & -> & Ha & Hb). unfold replace_tags.
  induction a as [|c a IH]; simpl.
  - now apply replace_tags_from_closed.
  - apply not_elem_of_cons in Ha as [Hc Ha].
    destruct (N.eqb_spec c 60) as [->|_]; [congruence|]. now rewrite IH.
Qed.

Lemma replace_tags_from_length (open : option jsstring) (s : jsstring) :
  (length (replace_tags_from open s)
   <= length (default [] open) + length s)%nat.
Proof.
  revert open. induction s as [|c s IH]; intros open; simpl.
  - destruct open; simpl; lia.
  - destruct open as [buf|]; simpl.
    + destruct (c =? 62)%N.
      * specialize (IH None). simpl in IH. lia.
      * specialize (IH (Some (buf ++ [c]))). simpl in IH.
        rewrite length_app in IH. simpl in IH. lia.
    + destruct (c =? 60)%N.
      * specialize (IH (Some [c])). simpl in IH. lia.
      * specialize (IH None). simpl in *. lia.
Qed.

(** X2. What [content.replace(/<[^>]*>/g, '')] returns holds no [<] with
    a [>] after it, so removing the tags a second time changes nothing; it
    is never longer than the content, and a content without [<] comes back
    as it is. *)
Theorem X2_replace_tags_leaves_no_tag (content : jsstring) :
  tag_free (replace_tags content)
  /\ replace_tags (replace_tags content) = replace_tags content
  /\ (length (replace_tags content) <= length content)%nat
  /\ (60%N ∉ content -> replace_tags content = content).
Proof.
  assert (tag_free (replace_tags content)) as Hfree
    by (apply replace_tags_from_tag_free; discriminate).
  split_and!.
  - exact Hfree.
  - now apply replace_tags_tag_free_id.
  - apply (replace_tags_from_length None).
  - intros H. apply replace_tags_tag_free_id.
    exists content, []. rewrite app_nil_r.
    split_and!; [reflexivity | exact H | apply not_elem_of_nil].
Qed.

Lemma X2_replace_tags_witness :
  replace_tags (lit "2 > 1 and a&b") = lit "2 > 1 and a&b".
Proof.
  apply (X2_replace_tags_leaves_no_tag (lit "2 > 1 and a&b")).
  apply (bool_decide_unpack _). vm_compute. exact I.
Defined.

(** ** The shape of a derived title *)

Lemma split_lines_no_sep (sep : N) (s : jsstring) :
  Forall (fun l => sep ∉ l) (split sep s).
Proof.
  induction s as [|c s IH]; simpl.
  - repeat constructor. apply not_elem_of_nil.
  - destruct (N.eqb_spec c sep) as [->|Hc].
    + constructor; [apply not_elem_of_nil | exact IH].
    + destruct (split sep s) as [|l ls]; [repeat constructor|].
      * rewrite list_elem_of_singleton. congruence.
      * apply Forall_cons in IH as [Hl Hls]. constructor; [|exact Hls].
        rewrite elem_of_cons. intros [H|H]; [congruence | contradiction].
Qed.

Lemma trim_not_elem (c : N) (s : jsstring) : c ∉ s -> c ∉ trim s.
Proof.
  intros Hs Hin.
  assert (Forall (fun x => x <> c) (trim s)) as Hall.
  { apply trim_Forall, Forall_forall. intros x Hx ->. contradiction. }
  rewrite Forall_forall in Hall. now apply (Hall c).
Qed.

Lemma first_nonblank_line_shape (text line : jsstring) :
  first_nonblank_line text = Some line ->
  line <> [] /\ (10 ∉ line)%N /\ trim line = line.
Proof.
  unfold first_nonblank_line. intros Hh. apply head_Some_elem_of in Hh.
  apply list_elem_of_filter in Hh as [Hne Hin].
  apply list_elem_of_fmap in Hin as (l & -> & Hl).
  split_and!; [exact Hne | |].
  - apply trim_not_elem.
    pose proof (split_lines_no_sep 10 text) as Hall.
    rewrite Forall_forall in Hall. now apply Hall.
  - destruct (trim l) as [|c r] eqn:Ht; [reflexivity|].
    destruct (trim_ends l c r Ht) as (Hc & d & Hd & Hdw).
    unfold trim. rewrite trimStart_nonblank by exact Hc.
    apply last_Some in Hd as (l' & Hl').
    rewrite Hl'. unfold trimEnd. rewrite reverse_snoc.
    rewrite trimStart_nonblank by exact Hdw.
    now rewrite <- reverse_snoc, reverse_involutive.
Qed.

Lemma truncated_shape (c : N) (r : jsstring) :
  is_whitespace c = false -> (10 ∉ c :: r)%N ->
  (length (truncated (c :: r)) <= 53)%nat
  /\ (10 ∉ truncated (c :: r))%N
  /\ exists r', truncated (c :: r) = c :: r'.
Proof.
  intros Hc Hnl. unfold truncated.
  destruct (decide (50 < length (c :: r))%nat) as [Hlen|Hlen].
  - split_and!.
    + rewrite length_app, length_take. change (length (lit "...")) with 3%nat. lia.
    + rewrite elem_of_app. intros [H|H].
      * apply Hnl. now apply (subseteq_take 50 (c :: r)).
      * change (lit "...") with [46%N; 46%N; 46%N] in H.
        rewrite !elem_of_cons, elem_of_nil in H. intuition discriminate.
    + exists (take 49 r ++ lit "..."). reflexivity.
  - split_and!; [lia | exact Hnl | eauto].
Qed.

(** X3. After [updateNoteTitleFromContent] on a note of the collection,
    either the content without its tags is blank and the title is the old
    one, or the title is not empty, begins with a code unit that is not
    whitespace, holds no line break and has at most 53 code units. *)
Theorem X3_derived_title_shape (e : Env) (i content : jsstring) (st : Store)
  (k : nat) (old : Note) :
  findIndex i st = Some (k, old) ->
  exists new,
    getNoteById i (updateNoteTitleFromContent e i content st) = Some new
    /\ ((blank (replace_tags content) /\ title new = title old)
        \/ ((length (title new) <= 53)%nat
            /\ (10 ∉ title new)%N
            /\ exists c r, title new = c :: r /\ is_whitespace c = false)).
Proof.
  intros Hf. destruct (extractFirstLineAsTitle_spec content) as [Hx _].
  unfold updateNoteTitleFromContent. rewrite Hx.
  destruct (first_nonblank_line (replace_tags content)) as [line|] eqn:Hl;
    cbn [from_option]; unfold Datatypes.id.
  - destruct (first_nonblank_line_shape _ _ Hl) as (Hne & Hnl & Htrim).
    destruct line as [|c r]; [congruence|]. cbn [truthy].
    assert (is_whitespace c = false) as Hc.
    { destruct (trim (c :: r)) as [|c' r'] eqn:Ht; [discriminate|].
      destruct (trim_ends _ _ _ Ht) as [Hc' _]. now injection Htrim as <- _. }
    destruct (truncated_shape c r Hc Hnl) as (H53 & Hno & r' & Hr').
    edestruct (updateNote_found e i) as (Hg & _ & _); [exact Hf | | ].
    2: { eexists. split; [exact Hg|]. right.
         unfold merge. cbn [title upd_title from_option]. unfold Datatypes.id.
         rewrite truncated_code. split_and!; [exact H53 | exact Hno | eauto]. }
    reflexivity.
  - cbn [truthy].
    edestruct (updateNote_found e i) as (Hg & _ & _); [exact Hf | | ].
    2: { eexists. split; [exact Hg|]. left. split; [|reflexivity].
         apply trim_nil_blank.
         destruct (trim (replace_tags content)) as [|c r] eqn:Ht; [reflexivity|].
         exfalso. unfold extractFirstLineAsTitle in Hx.
         destruct content as [|c0 content0]; [discriminate|].
         cbn [truthy negb] in Hx. rewrite Ht in Hx. cbn [truthy negb] in Hx.
         unfold or_else in Hx. cbn [from_option] in Hx.
         destruct (trim _) in Hx; discriminate. }
    reflexivity.
Qed.

Lemma X3_derived_title_witness :
  exists new,
    getNoteById (id Samples.noteA)
      (updateNoteTitleFromContent Samples.env0 (id Samples.noteA)
         (lit "<h1>  Plan  </h1>") Samples.storeA) = Some new.
Proof.
  destruct (X3_derived_title_shape Samples.env0 (id Samples.noteA)
              (lit "<h1>  Plan  </h1>") Samples.storeA 0 Samples.noteA)
    as (new & Hg & _); [reflexivity|].
  exists new. exact Hg.
Defined.

(** ** The title of an imported file *)

Lemma span_ext_app (x r : jsstring) :
  Forall (fun c => ext_char c = true) x ->
  (forall c r', r = c :: r' -> ext_char c = false) ->
  span_ext (x ++ r) = (x, r).
Proof.
  intros Hx Hr. induction Hx as [|c x Hc _ IH]; simpl.
  - destruct r as [|c r']; [reflexivity|]. simpl. now rewrite (Hr c r').
  - now rewrite Hc, IH.
Qed.

Lemma span_ext_rest (r : jsstring) :
  forall c rest, (span_ext r).2 = c :: rest -> ext_char c = false.
Proof.
  induction r as [|x r IH]; intros c rest; simpl; [discriminate|].
  destruct (ext_char x) eqn:Hx.
  - destruct (span_ext r) as [e0 rest0]. simpl in *. apply IH.
  - simpl. now intros [= <- _].
Qed.

Lemma span_ext_subset (r : jsstring) : (span_ext r).2 ⊆ r.
Proof.
  induction r as [|x r IH]; simpl; [done|].
  destruct (ext_char x).
  - destruct (span_ext r) as [e0 rest0]. simpl in *.
    intros y Hy. right. now apply IH.
  - done.
Qed.

Lemma replace_extension_strips (stem ext : jsstring) :
  ext <> [] -> Forall (fun c => ext_char c = true) ext ->
  replace_extension (stem ++ 46%N :: ext) = stem.
Proof.
  intros Hne Hext. unfold replace_extension.
  rewrite reverse_app, reverse_cons, <- app_assoc. cbn [app].
  rewrite span_ext_app.
  - destruct (reverse ext) as [|c r] eqn:Hr.
    + apply (f_equal reverse) in Hr. rewrite reverse_involutive in Hr.
      now subst.
    + cbn. apply reverse_involutive.
  - now apply Forall_reverse.
  - now intros c r' [= <- _].
Qed.

Lemma replace_extension_no_dot (s : jsstring) :
  (46 ∉ s)%N -> replace_extension s = s.
Proof.
  intros Hs. unfold replace_extension.
  pose proof (span_ext_subset (reverse s)) as Hsub.
  destruct (span_ext (reverse s)) as [[|x e0] [|dot rest]]; try reflexivity.
  destruct (N.eqb_spec dot 46) as [->|_]; [|reflexivity].
  exfalso. apply Hs. apply elem_of_reverse. apply Hsub. left.
Qed.

(** X4. The note that [importTextContent] makes of a file carries as title
    the file name without its last extension (a dot followed to the end by
    one or more code units other than [.] and [/]), the file name itself
    when it holds no dot, and ["Imported Note"] when the name is empty or
    not given; it is the first note of the collection and the active one. *)
Theorem X4_imported_title (e : Env) (text : jsstring) (st : Store) :
  (forall stem ext,
     ext <> [] -> Forall (fun c => ext_char c = true) ext ->
     title (importTextContent e text (Some (stem ++ 46%N :: ext)) st).1 = stem)
  /\ (forall name,
        name <> [] -> (46 ∉ name)%N ->
        title (importTextContent e text (Some name) st).1 = name)
  /\ title (importTextContent e text None st).1 = lit "Imported Note"
  /\ title (importTextContent e text (Some []) st).1 = lit "Imported Note"
  /\ (forall filename,
        let note := (importTextContent e text filename st).1 in
        let st' := (importTextContent e text filename st).2 in
        notes st' = note :: notes st /\ getActiveNote st' = Some note).
Proof.
  split_and!.
  - intros stem ext Hne Hext. unfold importTextContent, createNote.
    cbn [fst title from_option]. unfold Datatypes.id.
    replace (truthy (stem ++ 46%N :: ext)) with true by now destruct stem.
    now apply replace_extension_strips.
  - intros name Hne Hdot. unfold importTextContent, createNote.
    cbn [fst title from_option]. unfold Datatypes.id.
    destruct name as [|c r]; [congruence|]. cbn [truthy].
    now apply replace_extension_no_dot.
  - reflexivity.
  - reflexivity.
  - intros filename. cbv zeta. split; [reflexivity|].
    unfold importTextContent, createNote, getActiveNote, saveNotesToStorage.
    cbn [fst snd activeNoteId id notes localStorage].
    change (truthy (generateId e)) with true. cbn iota.
    unfold getNoteById, findIndex. cbn [notes list_find id].
    now rewrite decide_True by reflexivity.
Qed.

Lemma X4_imported_title_witness :
  title (importTextContent Samples.env0 (lit "x") (Some (lit "notes.v2.txt"))
           Samples.empty_store).1 = lit "notes.v2".
Proof.
  apply (proj1 (X4_imported_title Samples.env0 (lit "x") Samples.empty_store)
           (lit "notes.v2") (lit "txt")).
  - discriminate.
  - repeat constructor.
Defined.

(** ** Escaping *)

Lemma escape_no_angle (c : N) :
  Forall (fun x => x <> 60%N /\ x <> 62%N) (DOM.escape c).
Proof.
  unfold DOM.escape.
  destruct (N.eqb_spec c 38); [repeat constructor; discriminate|].
  destruct (N.eqb_spec c 60); [repeat constructor; discriminate|].
  destruct (N.eqb_spec c 62); [repeat constructor; discriminate|].
  destruct (N.eqb_spec c 160); [repeat constructor; discriminate|].
  repeat constructor; assumption.
Qed.

Lemma escape_plain (c : N) : markup_significant c = false -> DOM.escape c = [c].
Proof.
  unfold markup_significant, DOM.escape. intros H.
  repeat (apply orb_false_elim in H as [H ?]).
  now repeat match goal with Hx : (_ =? _)%N = false |- _ => rewrite Hx; clear Hx end.
Qed.

(** X5. What [escapeHtml] returns holds neither [<] nor [>]; the parser
    reads it back as the text it was made of, provided the text holds no
    CR and no NUL; and a text without markup-significant code units is
    returned as it is. *)
Theorem X5_escapeHtml_round_trip (text : jsstring) :
  Forall (fun c => c <> 60%N /\ c <> 62%N) (escapeHtml text)
  /\ (intact text -> DOM.textContent_of_innerHTML (escapeHtml text) = text)
  /\ (plain text -> escapeHtml text = text).
Proof.
  split_and!.
  - unfold escapeHtml, DOM.innerHTML_of_textContent.
    induction text as [|c text IH]; [constructor|].
    cbn [fmap list_fmap concat]. apply Forall_app. split; [|exact IH].
    apply escape_no_angle.
  - intros Hi. unfold DOM.textContent_of_innerHTML.
    rewrite normalize_newlines_id by now apply escapeHtml_no_cr.
    rewrite <- (app_nil_r (escapeHtml text)).
    rewrite text_from_escapeHtml by exact Hi. apply app_nil_r.
  - unfold escapeHtml, DOM.innerHTML_of_textContent.
    induction 1 as [|c l Hc _ IH]; [reflexivity|].
    cbn [fmap list_fmap concat]. fold (@fmap list _ _ _ DOM.escape l).
    now rewrite IH, escape_plain.
Qed.

Lemma X5_escapeHtml_witness :
  DOM.textContent_of_innerHTML (escapeHtml (lit "if a<b && b>c"))
  = lit "if a<b && b>c".
Proof.
  apply (proj1 (proj2 (X5_escapeHtml_round_trip (lit "if a<b && b>c")))).
  repeat constructor.
Defined.

(** ** Bounds on the statistics *)

Lemma filter_length_concat (P : jsstring -> Prop) `{forall x, Decision (P x)}
  (l : list jsstring) :
  (forall x, P x -> x <> []) ->
  (length (filter P l) <= length (concat l))%nat.
Proof.
  intros HP. induction l as [|x l IH]; [reflexivity|].
  cbn [concat]. rewrite length_app.
  destruct (decide (P x)) as [Hx|Hx].
  - rewrite filter_cons_True by exact Hx. specialize (HP x Hx).
    destruct x; [congruence|]. simpl. lia.
  - rewrite filter_cons_False by exact Hx. lia.
Qed.

Lemma pieces_concat_length (cls : N -> bool) (s : jsstring) :
  (length (concat (pieces cls s)) <= length s)%nat.
Proof.
  induction s as [|c s IH]; simpl; [lia|].
  destruct (cls c); simpl; [lia|].
  destruct (pieces cls s) as [|l ls]; simpl in *; lia.
Qed.

Lemma split_runs_concat_length (cls : N -> bool) (b : bool) (s : jsstring) :
  (length (concat (split_runs_from cls b s)) <= length s)%nat.
Proof.
  revert b. induction s as [|c s IH]; intros b; simpl; [lia|].
  destruct (cls c).
  - destruct b; simpl; [specialize (IH true) | specialize (IH true)]; lia.
  - specialize (IH false).
    destruct (split_runs_from cls false s) as [|l ls]; simpl in *; lia.
Qed.

Lemma getNoteStats_counts (content : jsstring) :
  getNoteStats content
  = {| words := length (tokens (DOM.textContent_of_innerHTML content));
       characters := length (DOM.textContent_of_innerHTML content);
       sentences :=
         length (nonblank_segments (DOM.textContent_of_innerHTML content)) |}.
Proof.
  unfold getNoteStats. destruct content as [|c content]; [reflexivity|].
  cbn [truthy negb]. rewrite or_else_self.
  now rewrite words_are_tokens, sentences_are_nonblank_segments.
Qed.

(** X6. In the statistics of any content there are at most as many words
    as characters and at most as many sentences as characters, and there
    is no word exactly when the text of the content is blank; a blank text
    has no sentence either. *)
Theorem X6_stats_bounds (content : jsstring) :
  let stats := getNoteStats content in
  (words stats <= characters stats)%nat
  /\ (sentences stats <= characters stats)%nat
  /\ (words stats = 0%nat <-> blank (DOM.textContent_of_innerHTML content))
  /\ (blank (DOM.textContent_of_innerHTML content) -> sentences stats = 0%nat).
Proof.
  cbv zeta. rewrite getNoteStats_counts. cbn [words characters sentences].
  set (text := DOM.textContent_of_innerHTML content).
  split_and!.
  - unfold tokens. etransitivity; [|apply (pieces_concat_length is_whitespace)].
    now apply filter_length_concat.
  - unfold nonblank_segments, segments, split_runs.
    etransitivity; [|apply (split_runs_concat_length sentence_end false)].
    apply filter_length_concat. intros x Hx ->. now apply Hx.
  - rewrite <- words_are_tokens. split.
    + destruct (trim text) as [|c r] eqn:Ht; [intros _; now apply trim_nil_blank|].
      cbn [truthy]. unfold split_runs.
      destruct (split_runs_from is_whitespace false (c :: r)) eqn:Hs;
        [|discriminate].
      simpl in Hs. destruct (is_whitespace c); [discriminate|].
      destruct (split_runs_from is_whitespace false r); discriminate.
    + intros Hb. now rewrite (trim_blank text Hb).
  - intros Hb. rewrite <- sentences_are_nonblank_segments.
    now rewrite (trim_blank text Hb).
Qed.

Lemma X6_stats_witness :
  sentences (getNoteStats (lit "<p> </p><p></p>")) = 0%nat.
Proof.
  apply (proj2 (proj2 (proj2 (X6_stats_bounds (lit "<p> </p><p></p>"))))).
  repeat constructor.
Defined.

(** ** Loading the collection *)

(** The active id that [loadNotesFromStorage] settles on for a stored
    collection that is not empty. *)
Lemma load_stored (e : Env) (ls : LocalStorage) (first : Note) (rest : list Note) :
  takenote_notes ls = Some (JsonNotes (first :: rest)) ->
  new_NoteManager e ls
  = {| notes := first :: rest;
       activeNoteId :=
         Some (let saved := default [] (takenote_active_id ls) in
               if truthy saved && bool_decide (saved ∈ id <$> first :: rest)
               then saved else id first);
       localStorage := ls |}.
Proof.
  intros Hl. unfold new_NoteManager, loadNotesFromStorage.
  cbn [localStorage]. rewrite Hl. cbn [notes activeNoteId].
  set (saved := default [] (takenote_active_id ls)).
  set (st1 := {| notes := first :: rest; activeNoteId := None;
                 localStorage := ls |}).
  assert (bool_decide (is_Some (getNoteById saved st1))
          = bool_decide (saved ∈ id <$> first :: rest)) as ->.
  { apply bool_decide_ext. split.
    - intros [note Hn]. apply getNoteById_Some in Hn as [Hin <-].
      apply list_elem_of_fmap. now exists note.
    - intros Hin. destruct (findIndex_Some saved st1 Hin) as (k & n & Hf & _).
      unfold getNoteById. rewrite Hf. now exists n. }
  now destruct (truthy saved && _).
Qed.

Lemma load_seed (e : Env) (ls : LocalStorage) :
  takenote_notes ls = None \/ takenote_notes ls = Some EmptyText
  \/ takenote_notes ls = Some (JsonNotes []) ->
  new_NoteManager e ls
  = (createNote e (Some welcome_title) (Some welcome_content)
       {| notes := []; activeNoteId := None; localStorage := ls |}).2.
Proof.
  intros [Hl|[Hl|Hl]]; unfold new_NoteManager, loadNotesFromStorage;
    cbn [localStorage]; rewrite Hl; cbn [notes activeNoteId];
    unfold getNoteById, findIndex; cbn [notes list_find fmap option_fmap option_map];
    rewrite bool_decide_eq_false_2 by (intros [? [=]]);
    now rewrite andb_false_r.
Qed.

Lemma load_unparseable (e : Env) (ls : LocalStorage) :
  takenote_notes ls = Some Unparseable ->
  new_NoteManager e ls
  = (createNote e (Some welcome_title) (Some welcome_content_on_error)
       {| notes := []; activeNoteId := None; localStorage := ls |}).2.
Proof.
  intros Hl. unfold new_NoteManager, loadNotesFromStorage.
  cbn [localStorage]. now rewrite Hl.
Qed.

Lemma reload_persisted (e : Env) (st : Store) (a : jsstring) :
  persisted st -> activeNoteId st = Some a -> a <> [] ->
  a ∈ ids st ->
  new_NoteManager e (localStorage st) = st.
Proof.
  destruct st as [l active ls]. unfold persisted, ids. cbn.
  intros [Hn Ha] -> Hne Hin.
  destruct l as [|first rest]; [now apply elem_of_nil in Hin|].
  rewrite (load_stored e ls first rest Hn). rewrite Ha. cbn [default from_option].
  unfold Datatypes.id. destruct a as [|c a]; [congruence|]. cbn [truthy andb].
  now rewrite bool_decide_eq_true_2 by exact Hin.
Qed.

(** X7. A store whose state is in the browser storage, with an active note
    of the collection, is rebuilt as it is by [new NoteManager()] over
    that storage, and the rebuilding writes nothing.  The selection of a
    note is not written: after [setActiveNote] on another note of the
    collection the storage is as it was, and a store rebuilt from it has
    the note that was active before. *)
Theorem X7_reload_restores (e : Env) (st : Store) (a : jsstring) :
  persisted st -> activeNoteId st = Some a -> a <> [] ->
  a ∈ ids st ->
  new_NoteManager e (localStorage st) = st
  /\ (forall i,
        i ∈ ids st ->
        let st' := (setActiveNote i st).2 in
        activeNoteId st' = Some i
        /\ notes st' = notes st
        /\ new_NoteManager e (localStorage st') = st).
Proof.
  intros Hp Ha Hne Hin.
  pose proof (reload_persisted e st a Hp Ha Hne Hin) as Hre.
  split; [exact Hre|]. intros i Hi. cbv zeta. unfold setActiveNote.
  destruct (findIndex_Some i st Hi) as (k & n & Hf & _).
  unfold getNoteById. rewrite Hf. cbn. auto.
Qed.

Lemma X7_reload_witness :
  new_NoteManager Samples.env1
    (localStorage (createNote Samples.env0 None None Samples.storeAB).2)
  = (createNote Samples.env0 None None Samples.storeAB).2.
Proof.
  apply (X7_reload_restores Samples.env1
           (createNote Samples.env0 None None Samples.storeAB).2
           (generateId Samples.env0)).
  - split; reflexivity.
  - reflexivity.
  - discriminate.
  - left.
Defined.

(** X8. What [new NoteManager()] makes of the browser storage, when the
    item of the collection is missing, is the empty string, is an array of
    notes as the program writes it, or is a text that [JSON.parse] rejects
    (a text that parses to anything else is not covered).  The collection
    it builds is never empty and has an active note.  Without an item, with
    the empty string or with an empty array, it holds one note, the welcome
    note, and that note is written to the storage; for a text that
    [JSON.parse] rejects it holds the shorter welcome note of the [catch]
    branch.  An array that is not empty is taken as it is and nothing is
    written; the stored active id is kept when it is the id of a stored
    note, and the first note is active otherwise. *)
Theorem X8_load_cases (e : Env) (ls : LocalStorage) :
  let st := new_NoteManager e ls in
  (exists a, activeNoteId st = Some a /\ a ∈ ids st)
  /\ (takenote_notes ls = None \/ takenote_notes ls = Some EmptyText
      \/ takenote_notes ls = Some (JsonNotes []) ->
      exists note, notes st = [note] /\ id note = generateId e
        /\ title note = welcome_title /\ content note = welcome_content
        /\ activeNoteId st = Some (id note)
        /\ (setItem e = WriteOk -> persisted st))
  /\ (takenote_notes ls = Some Unparseable ->
      exists note, notes st = [note] /\ id note = generateId e
        /\ title note = welcome_title
        /\ content note = welcome_content_on_error
        /\ activeNoteId st = Some (id note)
        /\ (setItem e = WriteOk -> persisted st))
  /\ (forall first rest,
        takenote_notes ls = Some (JsonNotes (first :: rest)) ->
        notes st = first :: rest /\ localStorage st = ls
        /\ (forall saved,
              takenote_active_id ls = Some saved -> saved <> [] ->
              saved ∈ (id <$> first :: rest) -> activeNoteId st = Some saved)
        /\ ((forall saved,
               takenote_active_id ls = Some saved ->
               saved = [] \/ saved ∉ (id <$> first :: rest)) ->
            activeNoteId st = Some (id first))).
Proof.
  cbv zeta.
  assert (forall t c,
            let st := (createNote e (Some t) (Some c)
                         {| notes := []; activeNoteId := None;
                            localStorage := ls |}).2 in
            exists note, notes st = [note] /\ id note = generateId e
              /\ title note = t /\ content note = c
              /\ activeNoteId st = Some (id note)
              /\ (setItem e = WriteOk -> persisted st)) as Hseed.
  { intros t c. cbv zeta. eexists. split_and!; try reflexivity.
    unfold createNote. cbn [snd]. intros ->. apply saveNotesToStorage_ok. }
  split_and!.
  - destruct (takenote_notes ls) as [[[|first rest]| |]|] eqn:Hl.
    + rewrite load_seed by auto. eexists. split; [reflexivity|]. left.
    + rewrite (load_stored e ls first rest Hl). cbn [activeNoteId].
      eexists. split; [reflexivity|]. unfold ids. cbn [notes].
      destruct (truthy _ && bool_decide _) eqn:Hc.
      * apply andb_true_iff in Hc as [_ Hc].
        now apply bool_decide_eq_true in Hc.
      * left.
    + rewrite load_seed by auto. eexists. split; [reflexivity|]. left.
    + rewrite load_unparseable by auto. eexists. split; [reflexivity|]. left.
    + rewrite load_seed by auto. eexists. split; [reflexivity|]. left.
  - intros Hl. rewrite load_seed by exact Hl. apply Hseed.
  - intros Hl. rewrite load_unparseable by exact Hl. apply Hseed.
  - intros first rest Hl. rewrite (load_stored e ls first rest Hl).
    cbn [notes localStorage activeNoteId]. split_and!; [reflexivity..| |].
    + intros saved -> Hne Hin. cbn [default from_option]. unfold Datatypes.id.
      destruct saved; [congruence|]. cbn [truthy andb].
      now rewrite bool_decide_eq_true_2 by exact Hin.
    + intros Hsaved. destruct (takenote_active_id ls) as [saved|];
        [|reflexivity].
      cbn [default from_option]. unfold Datatypes.id.
      destruct (Hsaved saved eq_refl) as [->|Hnin]; [reflexivity|].
      rewrite (bool_decide_eq_false_2 _ Hnin). now rewrite andb_false_r.
Qed.

Lemma X8_load_witness :
  exists note,
    notes (new_NoteManager Samples.env0 Samples.no_storage) = [note]
    /\ id note = generateId Samples.env0
    /\ title note = welcome_title /\ content note = welcome_content
    /\ activeNoteId (new_NoteManager Samples.env0 Samples.no_storage)
       = Some (id note)
    /\ (setItem Samples.env0 = WriteOk ->
        persisted (new_NoteManager Samples.env0 Samples.no_storage)).
Proof.
  apply (proj1 (proj2 (X8_load_cases Samples.env0 Samples.no_storage))).
  left. reflexivity.
Defined.

(** ** The storage follows the store *)

Lemma persisted_perform (eo : Env * StoreOp) (st : Store) :
  setItem eo.1 = WriteOk -> (forall i, eo.2 <> SetActiveNote i) ->
  persisted st -> persisted (perform eo st).
Proof.
  destruct eo as [e o]. cbn [fst snd]. intros He Ho Hp.
  assert (forall i u, persisted (updateNote e i u st).2) as Hupd.
  { intros i u. unfold updateNote.
    destruct (findIndex i st) as [[k n]|]; [|exact Hp].
    cbn [snd]. rewrite He. apply saveNotesToStorage_ok. }
  unfold perform. cbn [fst snd]. destruct o.
  - unfold createNote. cbn [snd]. rewrite He. apply saveNotesToStorage_ok.
  - apply Hupd.
  - unfold updateNoteTitle. destruct (findIndex i st) as [[k n]|]; [|exact Hp].
    cbn [snd]. rewrite He. apply saveNotesToStorage_ok.
  - unfold updateNoteTitleFromContent. destruct (truthy _); apply Hupd.
  - unfold NoteManager.deleteNote.
    destruct (findIndex i st) as [[k n]|]; [|exact Hp].
    cbn [snd]. rewrite He. apply saveNotesToStorage_ok.
  - now destruct (Ho i).
  - unfold importTextContent, createNote. cbn [snd]. rewrite He.
    apply saveNotesToStorage_ok.
Qed.

Lemma memory_perform (w : WriteOutcome) (e : Env) (o : StoreOp) (st : Store) :
  notes (perform (with_setItem w e, o) st) = notes (perform (e, o) st)
  /\ activeNoteId (perform (with_setItem w e, o) st)
     = activeNoteId (perform (e, o) st).
Proof.
  assert (forall i u,
            notes (updateNote (with_setItem w e) i u st).2
            = notes (updateNote e i u st).2
            /\ activeNoteId (updateNote (with_setItem w e) i u st).2
               = activeNoteId (updateNote e i u st).2) as Hupd.
  { intros i u. unfold updateNote.
    now destruct (findIndex i st) as [[k n]|]. }
  unfold perform. cbn [fst snd]. destruct o.
  - now unfold createNote.
  - apply Hupd.
  - unfold updateNoteTitle. now destruct (findIndex i st) as [[k n]|].
  - unfold updateNoteTitleFromContent. destruct (truthy _); apply Hupd.
  - unfold NoteManager.deleteNote. now destruct (findIndex i st) as [[k n]|].
  - auto.
  - now unfold importTextContent, createNote.
Qed.

Lemma storage_perform_throws (e : Env) (o : StoreOp) (st : Store) :
  setItem e = ThrowsAtNotes ->
  takenote_notes (localStorage (perform (e, o) st))
  = takenote_notes (localStorage st)
  /\ takenote_active_id (localStorage (perform (e, o) st))
     = takenote_active_id (localStorage st).
Proof.
  intros He.
  assert (forall i u,
            takenote_notes (localStorage (updateNote e i u st).2)
            = takenote_notes (localStorage st)
            /\ takenote_active_id (localStorage (updateNote e i u st).2)
               = takenote_active_id (localStorage st)) as Hupd.
  { intros i u. unfold updateNote.
    destruct (findIndex i st) as [[k n]|]; [|auto]. cbn [snd]. now rewrite He. }
  unfold perform. cbn [fst snd]. destruct o.
  - unfold createNote. cbn [snd]. now rewrite He.
  - apply Hupd.
  - unfold updateNoteTitle. destruct (findIndex i st) as [[k n]|]; [|auto].
    cbn [snd]. now rewrite He.
  - unfold updateNoteTitleFromContent. destruct (truthy _); apply Hupd.
  - unfold NoteManager.deleteNote.
    destruct (findIndex i st) as [[k n]|]; [|auto]. cbn [snd]. now rewrite He.
  - unfold setActiveNote. now destruct (getNoteById i st).
  - unfold importTextContent, createNote. cbn [snd]. now rewrite He.
Qed.

(** X9. As long as the storage accepts the writes, it holds the collection
    and the active id of the store after every sequence of calls of
    [createNote], [updateNote], [updateNoteTitle],
    [updateNoteTitleFromContent], [deleteNote] and [importTextContent]
    ([setActiveNote], which writes nothing, left out). *)
Theorem X9_storage_follows (ops : list (Env * StoreOp)) (st : Store) :
  Forall (fun eo => setItem eo.1 = WriteOk
                    /\ forall i, eo.2 <> SetActiveNote i) ops ->
  persisted st -> persisted (run ops st).
Proof.
  revert st. induction ops as [|eo ops IH]; intros st Hops Hp; [exact Hp|].
  apply Forall_cons in Hops as [[He Ho] Hops]. cbn [run foldl].
  apply IH; [exact Hops|]. now apply persisted_perform.
Qed.

Lemma X9_storage_witness :
  persisted
    (run [(Samples.env0, ImportTextContent (lit "a") None);
          (Samples.env1, DeleteNote (lit "note_1_a"))]
       (saveNotesToStorage WriteOk Samples.storeAB)).
Proof.
  apply (X9_storage_follows
           [(Samples.env0, ImportTextContent (lit "a") None);
            (Samples.env1, DeleteNote (lit "note_1_a"))]
           (saveNotesToStorage WriteOk Samples.storeAB)).
  - repeat constructor; discriminate.
  - split; reflexivity.
Defined.

(** X10. A storage that throws does not stop the store: whatever becomes
    of the writes, every call leaves the same collection and the same
    active id in memory.  When the first write throws, both stored items
    stay as they were, so that the storage no longer follows the store. *)
Theorem X10_write_failure (e : Env) (o : StoreOp) (st : Store) :
  (forall w,
     notes (perform (with_setItem w e, o) st) = notes (perform (e, o) st)
     /\ activeNoteId (perform (with_setItem w e, o) st)
        = activeNoteId (perform (e, o) st))
  /\ (setItem e = ThrowsAtNotes ->
      takenote_notes (localStorage (perform (e, o) st))
      = takenote_notes (localStorage st)
      /\ takenote_active_id (localStorage (perform (e, o) st))
         = takenote_active_id (localStorage st)).
Proof.
  split; [intros w; apply memory_perform | apply storage_perform_throws].
Qed.

Lemma X10_write_failure_witness :
  let e := with_setItem ThrowsAtNotes Samples.env0 in
  let st := perform (e, CreateNote None None) Samples.storeAB in
  takenote_notes (localStorage st) = None
  /\ takenote_active_id (localStorage st) = None.
Proof.
  apply (proj2 (X10_write_failure (with_setItem ThrowsAtNotes Samples.env0)
                  (CreateNote None None) Samples.storeAB)).
  reflexivity.
Defined.

(** ** The ids of the collection *)

Lemma remove_first_delete (l : list Note) (i : jsstring) (k : nat) (n : Note) :
  list_find (fun note => id note = i) l = Some (k, n) ->
  id <$> delete k l = remove_first i (id <$> l).
Proof.
  revert k. induction l as [|x l IH]; intros k; [discriminate|].
  cbn [list_find fmap list_fmap remove_first].
  destruct (decide (id x = i)) as [Hx|Hx].
  - now intros [= <- _].
  - destruct (list_find _ l) as [[k' n']|] eqn:Hf; [|discriminate].
    intros [= <- <-]. cbn. f_equal. now apply IH.
Qed.

Lemma remove_first_absent (i : jsstring) (l : list jsstring) :
  i ∉ l -> remove_first i l = l.
Proof.
  induction l as [|x l IH]; [reflexivity|]. intros Hi.
  apply not_elem_of_cons in Hi as [Hx Hi]. cbn.
  rewrite decide_False by congruence. now rewrite IH.
Qed.

Lemma remove_first_subseteq (i : jsstring) (l : list jsstring) :
  remove_first i l ⊆ l.
Proof.
  induction l as [|x l IH]; [done|]. cbn.
  destruct (decide (x = i)); [intros y Hy; now right|].
  intros y Hy. apply elem_of_cons in Hy as [->|Hy]; [left | right; now apply IH].
Qed.

Lemma remove_first_NoDup (i : jsstring) (l : list jsstring) :
  NoDup l -> NoDup (remove_first i l) /\ i ∉ remove_first i l.
Proof.
  induction 1 as [|x l Hx Hl [IH1 IH2]]; cbn.
  - split; [constructor | apply not_elem_of_nil].
  - destruct (decide (x = i)) as [->|Hxi]; [now split|].
    split.
    + constructor; [|exact IH1]. intros Hin. apply Hx.
      now apply remove_first_subseteq in Hin.
    + apply not_elem_of_cons. split; [congruence | exact IH2].
Qed.

Lemma ids_updateNote (e : Env) (i : jsstring) (u : Updates) (st : Store) :
  upd_id u = None -> ids (updateNote e i u st).2 = ids st.
Proof.
  intros Hu. unfold updateNote, ids.
  destruct (findIndex i st) as [[k n]|] eqn:Hf; [|reflexivity].
  apply list_find_Some in Hf as (Hk & _ & _). cbn.
  rewrite list_fmap_insert. cbn. rewrite Hu. cbn.
  apply list_insert_id. now rewrite list_lookup_fmap, Hk.
Qed.

Lemma ids_updateNoteTitle (e : Env) (i t : jsstring) (st : Store) :
  ids (updateNoteTitle e i t st).2 = ids st.
Proof.
  unfold updateNoteTitle, ids.
  destruct (findIndex i st) as [[k n]|] eqn:Hf; [|reflexivity].
  apply list_find_Some in Hf as (Hk & _ & _). cbn.
  rewrite list_fmap_insert. cbn.
  apply list_insert_id. now rewrite list_lookup_fmap, Hk.
Qed.

Lemma ids_updateNoteTitleFromContent (e : Env) (i c : jsstring) (st : Store) :
  ids (updateNoteTitleFromContent e i c st) = ids st.
Proof.
  unfold updateNoteTitleFromContent. destruct (truthy _); now apply ids_updateNote.
Qed.

Lemma ids_deleteNote (e : Env) (i : jsstring) (st : Store) :
  ids (NoteManager.deleteNote e i st).2 = remove_first i (ids st).
Proof.
  unfold NoteManager.deleteNote, ids.
  destruct (findIndex i st) as [[k n]|] eqn:Hf.
  - cbn. now apply remove_first_delete with n.
  - cbn. symmetry. apply remove_first_absent. intros Hin.
    destruct (findIndex_Some i st Hin) as (k & n & Hf' & _). congruence.
Qed.

Lemma ids_setActiveNote (i : jsstring) (st : Store) :
  ids (setActiveNote i st).2 = ids st.
Proof. unfold setActiveNote. now destruct (getNoteById i st). Qed.

(** X11. What each call does to the list of ids of the collection:
    [createNote] and [importTextContent] put the generated id in front,
    [deleteNote] takes out the first occurrence of the id it is given (and
    nothing when there is none), and [updateNoteTitle],
    [updateNoteTitleFromContent], [setActiveNote] and an [updateNote] that
    is given no [id] property leave the list as it is: no call reorders
    the notes. *)
Theorem X11_ids_effect (e : Env) (o : StoreOp) (st : Store) :
  keeps_id o ->
  ids (perform (e, o) st)
  = match o with
    | CreateNote _ _ | ImportTextContent _ _ => generateId e :: ids st
    | DeleteNote i => remove_first i (ids st)
    | _ => ids st
    end.
Proof.
  intros Ho. unfold perform. cbn [fst snd]. destruct o.
  - reflexivity.
  - now apply ids_updateNote.
  - apply ids_updateNoteTitle.
  - apply ids_updateNoteTitleFromContent.
  - apply ids_deleteNote.
  - apply ids_setActiveNote.
  - reflexivity.
Qed.

Lemma X11_ids_witness :
  ids (perform (Samples.env0, DeleteNote (lit "note_1_a")) Samples.storeAB)
  = remove_first (lit "note_1_a") (ids Samples.storeAB).
Proof.
  apply (X11_ids_effect Samples.env0 (DeleteNote (lit "note_1_a"))
           Samples.storeAB).
  exact I.
Defined.

Lemma NoDup_perform (eo : Env * StoreOp) (st : Store) :
  fresh st eo -> NoDup (ids st) -> NoDup (ids (perform eo st)).
Proof.
  destruct eo as [e o]. unfold fresh, perform. cbn [fst snd].
  destruct o; intros Hf Hnd.
  - now constructor.
  - now rewrite ids_updateNote.
  - now rewrite ids_updateNoteTitle.
  - now rewrite ids_updateNoteTitleFromContent.
  - rewrite ids_deleteNote. now apply remove_first_NoDup.
  - now rewrite ids_setActiveNote.
  - now constructor.
Qed.

Lemma getNoteById_NoDup (st : Store) (note : Note) :
  NoDup (ids st) -> note ∈ notes st -> getNoteById (id note) st = Some note.
Proof.
  unfold ids, getNoteById, findIndex. induction (notes st) as [|x l IH];
    intros Hnd Hin; [now apply elem_of_nil in Hin|].
  cbn [fmap list_fmap] in Hnd. apply NoDup_cons in Hnd as [Hx Hnd].
  cbn [list_find]. apply elem_of_cons in Hin as [->|Hin].
  - now rewrite decide_True by reflexivity.
  - rewrite decide_False.
    + specialize (IH Hnd Hin).
      destruct (list_find _ l) as [[k n]|]; [|discriminate].
      cbn in *. congruence.
    + intros Heq. apply Hx. rewrite Heq. apply list_elem_of_fmap. now exists note.
Qed.

(** X12. When every created or imported note gets an id that the
    collection does not hold yet, and [updateNote] is given no [id]
    property, a collection without two notes of one id stays so after every
    sequence of calls; every note of such a collection is the one that
    [getNoteById] finds for its id, and after [deleteNote] no note of the
    id is left. *)
Theorem X12_ids_stay_distinct (ops : list (Env * StoreOp)) (st : Store) :
  NoDup (ids st) -> all_fresh ops st ->
  NoDup (ids (run ops st))
  /\ (forall note, note ∈ notes (run ops st) ->
        getNoteById (id note) (run ops st) = Some note)
  /\ (forall e i,
        getNoteById i (NoteManager.deleteNote e i (run ops st)).2 = None).
Proof.
  intros Hnd Hfresh.
  assert (NoDup (ids (run ops st))) as Hrun.
  { revert st Hnd Hfresh. induction ops as [|eo ops IH]; intros st Hnd Hf;
      [exact Hnd|].
    destruct Hf as [Hf Hfs]. cbn [run foldl]. apply IH; [|exact Hfs].
    now apply NoDup_perform. }
  split_and!; [exact Hrun | intros note; now apply getNoteById_NoDup |].
  intros e i. apply getNoteById_None. fold (ids (NoteManager.deleteNote e i (run ops st)).2).
  rewrite ids_deleteNote. now apply remove_first_NoDup.
Qed.

Lemma X12_ids_witness :
  NoDup (ids (run [(Samples.env0, CreateNote None None);
                   (Samples.env1, ImportTextContent (lit "a") None)]
                Samples.storeAB)).
Proof.
  apply (X12_ids_stay_distinct
           [(Samples.env0, CreateNote None None);
            (Samples.env1, ImportTextContent (lit "a") None)]
           Samples.storeAB).
  - apply (bool_decide_unpack _). vm_compute. exact I.
  - split_and!; try exact I; apply (bool_decide_unpack _); vm_compute; exact I.
Defined.

(** ** Creating a note and taking it back *)

(** X13. The note that [createNote] returns is the one found for its id
    and the active one, even when its id is already taken by another note.
    Deleting it again gives the collection as it was before, but not the
    active note: the first note of the collection is active then, whichever
    was before, and none when the collection is empty. *)
Theorem X13_create_then_delete (e e' : Env) (t c : option jsstring) (st : Store) :
  let note := (createNote e t c st).1 in
  let st' := (createNote e t c st).2 in
  let st'' := (NoteManager.deleteNote e' (id note) st').2 in
  getNoteById (id note) st' = Some note
  /\ getActiveNote st' = Some note
  /\ (NoteManager.deleteNote e' (id note) st').1 = true
  /\ notes st'' = notes st
  /\ activeNoteId st'' = id <$> head (notes st).
Proof.
  cbv zeta. unfold createNote. cbn [fst snd].
  set (note := {| id := generateId e; title := _; content := _;
                  createdAt := _; updatedAt := _ |}).
  assert (forall a ls, getNoteById (generateId e)
            {| notes := note :: notes st; activeNoteId := a;
               localStorage := ls |} = Some note) as Hget.
  { intros a ls. apply (getNoteById_head note). }
  split_and!.
  - apply Hget.
  - unfold getActiveNote. cbn [saveNotesToStorage activeNoteId id note].
    change (truthy (generateId e)) with true. cbn iota. apply Hget.
  - unfold NoteManager.deleteNote, findIndex.
    cbn [saveNotesToStorage notes list_find id note].
    now rewrite decide_True by reflexivity.
  - unfold NoteManager.deleteNote, findIndex.
    cbn [saveNotesToStorage notes list_find id note].
    now rewrite decide_True by reflexivity.
  - unfold NoteManager.deleteNote, findIndex.
    cbn [saveNotesToStorage notes list_find id note activeNoteId].
    rewrite decide_True by reflexivity. cbn.
    rewrite decide_True by reflexivity. now destruct (notes st).
Qed.

(** ** The coordinator and the store agree on the open note *)

Lemma open_note_ok_ext (app app' : App) :
  noteManager app' = noteManager app -> currentNoteId app' = currentNoteId app ->
  open_note_ok app -> open_note_ok app'.
Proof. unfold open_note_ok. now intros -> ->. Qed.

Lemma open_note_ok_emit (evs : list Event) (app : App) :
  open_note_ok app -> open_note_ok (emit evs app).
Proof. now apply open_note_ok_ext. Qed.

Lemma getActiveNote_Some (st : Store) (n : Note) :
  getActiveNote st = Some n ->
  activeNoteId st = Some (id n) /\ id n ∈ ids st.
Proof.
  unfold getActiveNote. destruct (activeNoteId st) as [a|]; [|discriminate].
  destruct (truthy a); [|discriminate]. intros Hg.
  apply getNoteById_Some in Hg as [Hin <-]. split; [reflexivity|].
  apply list_elem_of_fmap. now exists n.
Qed.

Lemma remove_first_other (i x : jsstring) (l : list jsstring) :
  x <> i -> x ∈ l -> x ∈ remove_first i l.
Proof.
  intros Hx. induction l as [|y l IH]; [done|]. cbn.
  intros Hin. apply elem_of_cons in Hin as [->|Hin].
  - rewrite decide_False by congruence. left.
  - destruct (decide (y = i)); [exact Hin | right; auto].
Qed.

Lemma open_createNewNote (e : Env) (app : App) :
  open_note_ok (createNewNote e app).
Proof.
  unfold createNewNote, createNote. exists (generateId e).
  split_and!; [reflexivity.. | left].
Qed.

Lemma open_saveCurrentNote (e : Env) (app : App) :
  open_note_ok app -> open_note_ok (saveCurrentNote e app).
Proof.
  intros (a & Hc & Ha & Hin). unfold saveCurrentNote. rewrite Hc.
  destruct (truthy a); [|now exists a].
  exists a. cbn. rewrite ids_updateNoteTitleFromContent. split_and!; auto.
  unfold updateNoteTitleFromContent.
  destruct (truthy _); unfold updateNote;
    now destruct (findIndex a (noteManager app)) as [[k n]|].
Qed.

Lemma open_switchToNote (e : Env) (i : jsstring) (app : App) :
  open_note_ok app -> open_note_ok (switchToNote e i app).
Proof.
  intros Hok. unfold switchToNote.
  destruct (getNoteById i (noteManager app)) as [note|] eqn:Hg; [|exact Hok].
  apply getNoteById_Some in Hg as [Hin Hid].
  set (app1 := if _ && _ then saveCurrentNote e app else app).
  assert (ids (noteManager app1) = ids (noteManager app)) as Hids.
  { subst app1. destruct (_ && _); [|reflexivity].
    unfold saveCurrentNote. destruct (currentNoteId app) as [cur|]; [|reflexivity].
    destruct (truthy cur); [|reflexivity]. cbn.
    apply ids_updateNoteTitleFromContent. }
  assert (i ∈ ids (noteManager app1)) as Hi.
  { rewrite Hids. apply list_elem_of_fmap. now exists note. }
  exists i. cbn. unfold setActiveNote.
  destruct (findIndex_Some i (noteManager app1) Hi) as (k & n & Hf & _).
  unfold getNoteById. rewrite Hf. cbn. auto.
Qed.

Lemma open_deleteNote (e e' : Env) (i : jsstring) (app : App) :
  open_note_ok app -> open_note_ok (deleteNote e e' i app).
Proof.
  intros (a & Hc & Ha & Hin). unfold deleteNote.
  pose proof (ids_deleteNote e i (noteManager app)) as Hids.
  unfold NoteManager.deleteNote in *.
  destruct (findIndex i (noteManager app)) as [[k n]|] eqn:Hf.
  - cbn [with_store currentNoteId noteManager snd] in *.
    set (nm := saveNotesToStorage _ _) in *.
    destruct (bool_decide (Some i = currentNoteId app)) eqn:Hcur.
    + destruct (getActiveNote nm) as [n'|] eqn:Hg;
        [|apply open_createNewNote].
      apply getActiveNote_Some in Hg as [Hg1 Hg2].
      exists (id n'). cbn. auto.
    + apply bool_decide_eq_false in Hcur. rewrite Hc in Hcur.
      exists a. cbn [emit updateUI with_store currentNoteId noteManager].
      split_and!; [exact Hc | |].
      * subst nm. cbn [saveNotesToStorage activeNoteId].
        rewrite decide_False; [exact Ha|]. rewrite Ha. congruence.
      * rewrite Hids. apply remove_first_other; [congruence | exact Hin].
  - exists a. cbn. auto.
Qed.

Lemma open_editNoteTitle (e : Env) (i t : jsstring) (app : App) :
  open_note_ok app -> open_note_ok (editNoteTitle e i t app).
Proof.
  intros (a & Hc & Ha & Hin). unfold editNoteTitle.
  pose proof (ids_updateNoteTitle e i t (noteManager app)) as Hids.
  unfold updateNoteTitle in *.
  destruct (findIndex i (noteManager app)) as [[k n]|];
    exists a; cbn in *; rewrite ?Hids; auto.
Qed.

Lemma open_reader_onload (e e' : Env) (file : File) (content : jsstring)
  (app : App) : open_note_ok (reader_onload e e' file content app).
Proof.
  unfold reader_onload.
  destruct (importTextContent e content (Some (name file)) (noteManager app))
    as [newNote nm] eqn:Himp.
  apply open_note_ok_emit.
  assert (getNoteById (id newNote) nm = Some newNote) as Hg.
  { unfold importTextContent, createNote in Himp. injection Himp as <- <-.
    apply getNoteById_head. }
  unfold switchToNote. cbn [with_store noteManager currentNoteId].
  rewrite Hg.
  set (app1 := if _ && _ then _ else _).
  assert (ids (noteManager app1) = ids nm) as Hids.
  { subst app1. destruct (_ && _); [|reflexivity].
    unfold saveCurrentNote. cbn [with_store noteManager currentNoteId].
    destruct (currentNoteId app) as [cur|]; [|reflexivity].
    destruct (truthy cur); [|reflexivity]. cbn.
    apply ids_updateNoteTitleFromContent. }
  assert (id newNote ∈ ids (noteManager app1)) as Hi.
  { rewrite Hids. apply getNoteById_Some in Hg as [Hin _].
    apply list_elem_of_fmap. now exists newNote. }
  exists (id newNote). cbn. unfold setActiveNote.
  destruct (findIndex_Some _ _ Hi) as (k & n & Hf & _).
  unfold getNoteById. rewrite Hf. cbn. auto.
Qed.

Lemma open_handleFileDownload (e : Env) (b : BrowserOutcome) (app : App) :
  open_note_ok app -> open_note_ok (handleFileDownload e b app).1.
Proof.
  intros Hok. unfold handleFileDownload.
  destruct (negb (is_set (currentNoteId app)));
    [now apply open_note_ok_emit|].
  pose proof (open_saveCurrentNote e app Hok) as Hs.
  destruct (exportNoteAsText _ _); [destruct b|]; now apply open_note_ok_emit.
Qed.

Lemma open_serve (r : Request) (app : App) :
  open_note_ok app -> open_note_ok (serve r app).
Proof.
  intros Hok. destruct r; cbn [serve].
  - apply open_createNewNote.
  - now apply open_switchToNote.
  - now apply open_deleteNote.
  - unfold saveTitleEdit. destruct (truthy (trim text)); [|exact Hok].
    now apply open_editNoteTitle.
  - exact Hok.
  - unfold autoSaveFires. destruct (bool_decide _); [|exact Hok].
    now apply open_saveCurrentNote.
  - now apply open_saveCurrentNote.
  - unfold handleFileUpload. destruct file as [file|]; [|exact Hok].
    destruct (_ && _); now apply open_note_ok_emit.
  - apply open_reader_onload.
  - now apply open_handleFileDownload.
Qed.

Lemma open_new_TakenoteApp (e e' : Env) (ls : LocalStorage) (initial : jsstring) :
  open_note_ok (new_TakenoteApp e e' ls initial).
Proof.
  unfold new_TakenoteApp, updateUI. apply open_note_ok_emit.
  unfold loadInitialNote. cbn [noteManager].
  destruct (getActiveNote (new_NoteManager e ls)) as [n|] eqn:Hg;
    [|apply open_createNewNote].
  apply getActiveNote_Some in Hg as [Hg1 Hg2]. exists (id n). cbn. auto.
Qed.

(** X14. From the moment the application is built, whatever the storage
    held and whatever requests reach the coordinator afterwards (new note,
    selection, deletion, renaming, edits, the timer, the page being hidden,
    uploads and downloads), the coordinator has an open note, the store has
    the same note as its active one, and that note is in the collection; in
    particular the collection is never empty. *)
Theorem X14_open_note_invariant (e e' : Env) (ls : LocalStorage)
  (initial : jsstring) (rs : list Request) :
  let app := serve_all rs (new_TakenoteApp e e' ls initial) in
  open_note_ok app /\ notes (noteManager app) <> [].
Proof.
  cbv zeta.
  assert (open_note_ok (serve_all rs (new_TakenoteApp e e' ls initial))) as Hok.
  { generalize (open_new_TakenoteApp e e' ls initial).
    generalize (new_TakenoteApp e e' ls initial).
    induction rs as [|r rs IH]; intros app Hok; [exact Hok|].
    cbn [serve_all foldl]. apply IH. now apply open_serve. }
  split; [exact Hok|]. destruct Hok as (a & _ & _ & Hin).
  unfold ids in Hin. intros Hnil. rewrite Hnil in Hin.
  now apply elem_of_nil in Hin.
Qed.

(** ** Edits and the timer *)

Lemma serve_all_app (rs rs' : list Request) (app : App) :
  serve_all (rs ++ rs') app = serve_all rs' (serve_all rs app).
Proof. apply foldl_app. Qed.

Lemma pending_serve (r : Request) (app : App) :
  pending_ok app -> pending_ok (serve r app).
Proof.
  intros Hp.
  assert (forall app', timers app' = timers app ->
            autoSaveTimeout app' = autoSaveTimeout app -> pending_ok app')
    as Hext.
  { intros app' Ht Ha. unfold pending_ok. now rewrite Ht, Ha. }
  assert (forall e app', pending_ok app' -> pending_ok (saveCurrentNote e app'))
    as Hsave.
  { intros e app' Hp'. unfold saveCurrentNote.
    destruct (currentNoteId app') as [cur|]; [|exact Hp'].
    now destruct (truthy cur). }
  destruct r as [e|e noteId|e e' noteId|e noteId text|c t|e t|e|file
                |e e' file c|e b]; cbn [serve].
  - now apply Hext.
  - unfold switchToNote.
    destruct (getNoteById noteId (noteManager app)); [|exact Hp].
    unfold pending_ok in *.
    destruct (_ && _); [|exact Hp]. now apply Hsave.
  - unfold deleteNote.
    destruct (NoteManager.deleteNote e noteId (noteManager app)) as [[|] nm];
      cbn [with_store currentNoteId noteManager]; [|now apply Hext].
    destruct (bool_decide _); [|now apply Hext].
    destruct (getActiveNote nm); now apply Hext.
  - unfold saveTitleEdit. destruct (truthy _); [|exact Hp].
    unfold editNoteTitle.
    destruct (updateNoteTitle e noteId (trim text) (noteManager app))
      as [[upd|] nm]; now apply Hext.
  - right. exists t. unfold userEdit, handleContentChange.
    cbn [emit timers autoSaveTimeout]. split; [|reflexivity].
    destruct Hp as [Hp|(t0 & Hp & Ha)]; rewrite Hp; [now destruct (autoSaveTimeout app)|].
    rewrite Ha. cbn [clearTimeout]. rewrite filter_cons_False by tauto.
    reflexivity.
  - unfold autoSaveFires. destruct (bool_decide _) eqn:Hin; [|exact Hp].
    apply bool_decide_eq_true in Hin. apply Hsave. left. cbn [timers].
    destruct Hp as [Hp|(t0 & Hp & Ha)]; rewrite Hp in *.
    + reflexivity.
    + apply list_elem_of_singleton in Hin as ->.
      now rewrite filter_cons_False by tauto.
  - now apply Hsave.
  - unfold handleFileUpload. destruct file as [file|]; [|exact Hp].
    destruct (_ && _); now apply Hext.
  - unfold reader_onload.
    destruct (importTextContent e c (Some (name file)) (noteManager app))
      as [newNote nm].
    unfold switchToNote. cbn [with_store noteManager currentNoteId].
    destruct (getNoteById (id newNote) nm); [|now apply Hext].
    unfold pending_ok in *.
    destruct (_ && _); [|exact Hp].
    cbn [emit updateUI editor_setContent with_store timers autoSaveTimeout].
    now apply (Hsave e').
  - unfold handleFileDownload.
    destruct (negb (is_set (currentNoteId app))); [now apply Hext|].
    pose proof (Hsave e app Hp) as Hs.
    destruct (exportNoteAsText _ _); [destruct b|]; exact Hs.
Qed.

Lemma pending_reachable (e e' : Env) (ls : LocalStorage) (initial : jsstring)
  (rs : list Request) :
  pending_ok (serve_all rs (new_TakenoteApp e e' ls initial)).
Proof.
  assert (pending_ok (new_TakenoteApp e e' ls initial)) as H0.
  { left. unfold new_TakenoteApp, loadInitialNote. cbn [noteManager].
    now destruct (getActiveNote (new_NoteManager e ls)). }
  revert H0. generalize (new_TakenoteApp e e' ls initial).
  induction rs as [|r rs IH]; intros app Hp; [exact Hp|].
  cbn [serve_all foldl]. apply IH. now apply pending_serve.
Qed.

Lemma edits_state (edits : list (jsstring * nat)) (app : App) :
  let app' := serve_all ((fun ct => ContentChange ct.1 ct.2) <$> edits) app in
  noteManager app' = noteManager app
  /\ currentNoteId app' = currentNoteId app
  /\ events app'
     = events app
       ++ ((fun ct => UpdateStatusCounters (getNoteStats ct.1)) <$> edits).
Proof.
  cbv zeta. revert app. induction edits as [|[c t] edits IH]; intros app.
  - split_and!; [reflexivity.. |]. cbn. now rewrite app_nil_r.
  - cbn [fmap list_fmap serve_all foldl fst snd].
    destruct (IH (serve (ContentChange c t) app)) as (H1 & H2 & H3).
    unfold serve_all in *. rewrite H1, H2, H3. split_and!; [reflexivity.. |].
    cbn [serve userEdit handleContentChange emit events fst].
    now rewrite <- app_assoc.
Qed.

(** X15. A burst of edits is saved once.  Whatever happened since the
    application was built, every edit of a burst refreshes the counters,
    cancels the timer of the edit before it and sets its own: nothing is
    saved meanwhile, and after the burst the timer of the last edit is the
    only one pending.  A timer of any other id does not run.  When the
    pending timer runs, the open note is saved with the content of the
    last edit, the store being as if that content alone had been saved,
    and no timer is left pending, so that nothing is saved again until the
    next edit. *)
Theorem X15_debounced_save (e0 e0' : Env) (ls : LocalStorage)
  (initial : jsstring) (history : list Request) (e : Env)
  (edits : list (jsstring * nat)) (c : jsstring) (t : nat) (a : jsstring) :
  let app := serve_all history (new_TakenoteApp e0 e0' ls initial) in
  currentNoteId app = Some a -> a <> [] ->
  let edited :=
    serve_all ((fun ct => ContentChange ct.1 ct.2) <$> edits ++ [(c, t)]) app in
  let saved := serve (TimerFires e t) edited in
  noteManager edited = noteManager app
  /\ added app edited
     = (fun ct => UpdateStatusCounters (getNoteStats ct.1)) <$> edits ++ [(c, t)]
  /\ timers edited = [t]
  /\ (forall e' t', t' <> t -> serve (TimerFires e' t') edited = edited)
  /\ noteManager saved
     = updateNoteTitleFromContent e a c (noteManager app)
  /\ added edited saved = [SaveToStore a c; UpdateUI]
  /\ timers saved = []
  /\ (forall e' t', serve (TimerFires e' t') saved = saved).
Proof.
  intros app Hc Ha. cbv zeta.
  destruct (edits_state (edits ++ [(c, t)]) app) as (H1 & H2 & H3).
  rewrite fmap_app, serve_all_app in *. cbn [fmap list_fmap fst snd] in *.
  destruct (edits_state edits app) as (G1 & G2 & G3).
  assert (pending_ok
            (serve_all ((fun ct => ContentChange ct.1 ct.2) <$> edits) app))
    as Hp.
  { unfold app. rewrite <- serve_all_app. apply pending_reachable. }
  set (app1 := serve_all ((fun ct => ContentChange ct.1 ct.2) <$> edits) app)
    in *.
  assert (timers (serve_all [ContentChange c t] app1) = [t]) as Ht.
  { cbn [serve_all foldl serve userEdit handleContentChange emit timers
         autoSaveTimeout].
    destruct Hp as [Hp|(t0 & Hp & Hh)]; rewrite Hp;
      [now destruct (autoSaveTimeout app1)|].
    rewrite Hh. cbn [clearTimeout]. now rewrite filter_cons_False by tauto. }
  assert (forall e' t', t' <> t -> serve (TimerFires e' t')
            (serve_all [ContentChange c t] app1)
          = serve_all [ContentChange c t] app1) as Hother.
  { intros e' t' Hne. cbn [serve]. unfold autoSaveFires. rewrite Ht.
    rewrite bool_decide_eq_false_2; [reflexivity|].
    now rewrite list_elem_of_singleton. }
  assert (serve (TimerFires e t) (serve_all [ContentChange c t] app1)
          = updateUI
              (emit [SaveToStore a c]
                 (with_store
                    (updateNoteTitleFromContent e a c (noteManager app1))
                    (Some a)
                    {| noteManager := noteManager app1;
                       currentNoteId := Some a; editor := c;
                       autoSaveTimeout := Some t; timers := [];
                       events := events app1
                                 ++ [UpdateStatusCounters (getNoteStats c)] |})))
    as Hsaved.
  { cbn [serve]. unfold autoSaveFires. rewrite Ht.
    rewrite bool_decide_eq_true_2 by left.
    rewrite filter_cons_False by tauto.
    cbn [serve_all foldl serve userEdit handleContentChange emit
         autoSaveTimeout noteManager currentNoteId editor events].
    unfold saveCurrentNote. cbn [currentNoteId noteManager editor].
    rewrite G2, Hc. destruct a as [|x a]; [congruence|]. reflexivity. }
  split_and!.
  - exact H1.
  - now apply added_emit.
  - exact Ht.
  - exact Hother.
  - rewrite Hsaved. cbn [updateUI emit with_store noteManager]. now rewrite G1.
  - rewrite Hsaved. apply added_emit.
    unfold updateUI, with_store, emit. cbn [events].
    cbn [serve_all foldl serve userEdit handleContentChange emit events].
    now rewrite <- app_assoc.
  - now rewrite Hsaved.
  - intros e' t'. rewrite Hsaved. cbn [serve]. unfold autoSaveFires.
    cbn [updateUI emit with_store timers].
    rewrite bool_decide_eq_false_2; [reflexivity | apply not_elem_of_nil].
Qed.

Lemma X15_debounced_save_witness :
  let app :=
    serve_all [ContentChange (lit "<p>x</p>") 1%nat]
      (new_TakenoteApp Samples.env0 Samples.env0 Samples.no_storage []) in
  let edited :=
    serve_all ((fun ct => ContentChange ct.1 ct.2)
                 <$> [(lit "<p>n</p>", 2%nat)] ++ [(lit "<p>new</p>", 3%nat)])
      app in
  timers edited = [3%nat]
  /\ added edited (serve (TimerFires Samples.env1 3%nat) edited)
     = [SaveToStore (generateId Samples.env0) (lit "<p>new</p>"); UpdateUI].
Proof.
  cbv zeta.
  destruct (X15_debounced_save Samples.env0 Samples.env0 Samples.no_storage []
              [ContentChange (lit "<p>x</p>") 1%nat] Samples.env1
              [(lit "<p>n</p>", 2%nat)] (lit "<p>new</p>") 3%nat
              (generateId Samples.env0))
    as (_ & _ & Ht & _ & _ & Hs & _).
  - reflexivity.
  - discriminate.
  - split; [exact Ht | exact Hs].
Defined.

(** ** Selecting a note and reloading the page *)





(** ** Renaming a note *)

Lemma trim_idemp (s : jsstring) : trim (trim s) = trim s.
Proof.
  destruct (trim s) as [|c r] eqn:Ht; [reflexivity|].
  destruct (trim_ends s c r Ht) as (Hc & d & Hd & Hdw).
  unfold trim. rewrite trimStart_nonblank by exact Hc.
  apply last_Some in Hd as (l' & Hl').
  rewrite Hl'. unfold trimEnd. rewrite reverse_snoc.
  rewrite trimStart_nonblank by exact Hdw.
  now rewrite <- reverse_snoc, reverse_involutive.
Qed.

Lemma updateNoteTitle_found (e : Env) (i t : jsstring) (st : Store) (k : nat)
  (n : Note) :
  findIndex i st = Some (k, n) ->
  findIndex i (updateNoteTitle e i t st).2
  = Some (k, {| id := id n; title := or_else (trim t) (lit "Untitled Note");
                content := content n; createdAt := createdAt n;
                updatedAt := toISOString (newDate1 e) |}).
Proof.
  intros Hf. unfold updateNoteTitle. rewrite Hf. cbn [snd saveNotesToStorage].
  pose proof Hf as Hf'. apply list_find_Some in Hf' as (_ & Hid & _).
  now apply (findIndex_insert i st k n).
Qed.

(** X17. The rename box of the list hands the coordinator the text of the
    title element without the whitespace around it, and nothing when that
    text is blank: a blank text changes nothing and shows nothing, any
    other text becomes, trimmed, the title of the note, whose id, content
    and creation time stay. *)
Theorem X17_saveTitleEdit (e : Env) (i text : jsstring) (app : App) :
  (blank text -> saveTitleEdit e i text app = app)
  /\ (forall k old,
        ~ blank text -> findIndex i (noteManager app) = Some (k, old) ->
        let app' := saveTitleEdit e i text app in
        getNoteById i (noteManager app')
        = Some {| id := id old; title := trim text; content := content old;
                  createdAt := createdAt old;
                  updatedAt := toISOString (newDate1 e) |}
        /\ trim text <> []
        /\ added app app' = [UpdateUI; ShowToast (lit "Note title updated!")]).
Proof.
  split.
  - intros Hb. unfold saveTitleEdit. now rewrite (trim_blank text Hb).
  - intros k old Hnb Hf. cbv zeta. unfold saveTitleEdit.
    destruct (trim text) as [|c r] eqn:Ht;
      [exfalso; apply Hnb; now apply trim_nil_blank|].
    cbn [truthy]. rewrite <- Ht.
    pose proof (updateNoteTitle_found e i (trim text) _ k old Hf) as Hg.
    unfold editNoteTitle. unfold updateNoteTitle in *. rewrite Hf in *.
    cbn [snd] in Hg. cbn [with_store emit updateUI noteManager].
    split_and!.
    + unfold getNoteById. rewrite Hg. cbn. rewrite trim_idemp.
      now rewrite Ht.
    + now rewrite Ht.
    + apply added_emit. cbn. now rewrite <- app_assoc.
Qed.

Lemma X17_saveTitleEdit_witness :
  saveTitleEdit Samples.env0 (lit "note_1_a") (lit "  ") Samples.appA_edited
  = Samples.appA_edited.
Proof.
  apply (proj1 (X17_saveTitleEdit Samples.env0 (lit "note_1_a") (lit "  ")
                  Samples.appA_edited)).
  repeat constructor.
Defined.

(** X18. A title given by hand to the open note lasts until the next save:
    when the content of the editor has text outside its tags, saving the
    open note stores the title derived from that content, whatever the
    title was renamed to; when the content has no such text, the renamed
    title stays. *)
Theorem X18_rename_then_save (e e' : Env) (a t : jsstring) (app : App)
  (k : nat) (old : Note) :
  currentNoteId app = Some a -> a <> [] ->
  findIndex a (noteManager app) = Some (k, old) ->
  let renamed := editNoteTitle e a t app in
  let saved := saveCurrentNote e' renamed in
  exists note,
    getNoteById a (noteManager saved) = Some note
    /\ content note = editor app
    /\ (~ blank (replace_tags (editor app)) ->
        title note = truncated (extractFirstLineAsTitle (editor app)))
    /\ (blank (replace_tags (editor app)) ->
        title note = or_else (trim t) (lit "Untitled Note")).
Proof.
  intros Hc Hne Hf. cbv zeta.
  pose proof (updateNoteTitle_found e a t _ k old Hf) as Hf1.
  unfold editNoteTitle. unfold updateNoteTitle in *. rewrite Hf in *.
  cbn [snd] in Hf1. cbn [with_store emit updateUI].
  unfold saveCurrentNote. cbn [currentNoteId noteManager editor with_store
    emit updateUI]. rewrite Hc. destruct a as [|x a]; [congruence|].
  cbn [truthy].
  set (nm1 := saveNotesToStorage _ _) in *.
  unfold updateNoteTitleFromContent.
  destruct (extractFirstLineAsTitle_spec (editor app)) as [Hspec Hline].
  destruct (first_nonblank_line (replace_tags (editor app))) as [line|] eqn:Hfl.
  - specialize (Hline line eq_refl). cbn [default from_option] in Hspec.
    unfold Datatypes.id in Hspec. rewrite Hspec.
    destruct line as [|c r]; [congruence|]. cbn [truthy].
    match goal with
    | |- context [updateNote e' ?i ?u ?s] =>
        destruct (updateNote_found e' i u s k _ Hf1 eq_refl) as (Hg & _)
    end.
    eexists. split; [exact Hg|]. cbn [merge content title upd_content upd_title
      default from_option]. unfold Datatypes.id.
    split_and!; [reflexivity | |].
    + intros _. apply truncated_code.
    + intros Hb. exfalso. unfold extractFirstLineAsTitle in Hspec.
      destruct (editor app) as [|y ed]; [discriminate|]. cbn [truthy negb] in Hspec.
      now rewrite (trim_blank _ Hb) in Hspec.
  - cbn [default from_option] in Hspec. unfold Datatypes.id in Hspec.
    rewrite Hspec. cbn [truthy].
    match goal with
    | |- context [updateNote e' ?i ?u ?s] =>
        destruct (updateNote_found e' i u s k _ Hf1 eq_refl) as (Hg & _)
    end.
    eexists. split; [exact Hg|]. cbn [merge content title upd_content upd_title
      default from_option]. unfold Datatypes.id.
    split_and!; [reflexivity | |].
    + intros Hnb. exfalso. apply Hnb.
      unfold extractFirstLineAsTitle in Hspec.
      destruct (editor app) as [|y ed]; [constructor|].
      cbn [truthy negb] in Hspec.
      destruct (trim (replace_tags (y :: ed))) as [|z pt] eqn:Ht;
        [now apply trim_nil_blank|].
      cbn [truthy negb] in Hspec. exfalso.
      revert Hspec. unfold or_else.
      destruct (trim (default _ _)); cbn [truthy];
        [vm_compute; discriminate | discriminate].
    + reflexivity.
Qed.

Lemma X18_rename_witness :
  exists note,
    getNoteById (lit "note_1_a")
      (noteManager
         (saveCurrentNote Samples.env1
            (editNoteTitle Samples.env0 (lit "note_1_a") (lit "My title")
               Samples.appA_edited)))
    = Some note
    /\ title note = lit "new".
Proof.
  destruct (X18_rename_then_save Samples.env0 Samples.env1 (lit "note_1_a")
              (lit "My title") Samples.appA_edited 0 Samples.noteA)
    as (note & Hg & _ & Ht & _).
  - reflexivity.
  - discriminate.
  - reflexivity.
  - exists note. split; [exact Hg|]. apply Ht.
    intros Hb. apply Forall_cons in Hb as [Hb _]. discriminate.
Defined.

(** ** Uploads and downloads *)

(** X19. When the text of an uploaded file has been read, the note made of
    it is opened: its id is put in front of the ids of the collection, it
    is the note found for that id, the active note of the store and the
    open note of the coordinator, the editor holds its content, and the
    last thing shown is the feedback that names the file. *)
Theorem X19_upload_opens_the_note (e e' : Env) (file : File)
  (content : jsstring) (app : App) :
  let imported :=
    (importTextContent e content (Some (name file)) (noteManager app)).1 in
  let app' := reader_onload e e' file content app in
  ids (noteManager app') = id imported :: ids (noteManager app)
  /\ getNoteById (id imported) (noteManager app') = Some imported
  /\ activeNoteId (noteManager app') = Some (id imported)
  /\ currentNoteId app' = Some (id imported)
  /\ editor app' = NoteManager.content imported
  /\ last (events app') = Some (ShowFileUploadFeedback (name file)).
Proof.
  cbv zeta. unfold reader_onload.
  destruct (importTextContent e content (Some (name file)) (noteManager app))
    as [newNote nm] eqn:Himp. cbn [fst].
  assert (getNoteById (id newNote) nm = Some newNote
          /\ ids nm = id newNote :: ids (noteManager app)) as [Hg Hids0].
  { unfold importTextContent, createNote in Himp. injection Himp as <- <-.
    split; [apply getNoteById_head | reflexivity]. }
  unfold switchToNote. cbn [with_store noteManager currentNoteId].
  rewrite Hg.
  set (app0 := with_store nm (currentNoteId app) app).
  set (test := is_set (currentNoteId app)
               && negb (bool_decide (currentNoteId app = Some (id newNote)))).
  set (app1 := if test then saveCurrentNote e' app0 else app0).
  assert (ids (noteManager app1) = ids nm
          /\ getNoteById (id newNote) (noteManager app1) = Some newNote)
    as [Hids Hg1].
  { subst app1. destruct test eqn:Htest; [|auto].
    apply andb_true_iff in Htest as [_ Hneq].
    apply negb_true_iff, bool_decide_eq_false in Hneq.
    unfold saveCurrentNote, app0.
    cbn [with_store noteManager currentNoteId editor].
    destruct (currentNoteId app) as [cur|]; [|auto].
    destruct (truthy cur); [|auto].
    cbn [updateUI emit with_store noteManager]. split.
    - apply ids_updateNoteTitleFromContent.
    - rewrite updateNoteTitleFromContent_other; [exact Hg | congruence]. }
  assert (setActiveNote (id newNote) (noteManager app1)
          = (Some newNote,
             {| notes := notes (noteManager app1);
                activeNoteId := Some (id newNote);
                localStorage := localStorage (noteManager app1) |})) as Hset.
  { unfold setActiveNote. now rewrite Hg1. }
  rewrite Hset.
  cbn [snd emit updateUI editor_setContent with_store noteManager
       currentNoteId editor events activeNoteId].
  split_and!; try reflexivity.
  - unfold ids in *. cbn [notes]. now rewrite Hids, Hids0.
  - revert Hg1. unfold getNoteById, findIndex. now cbn [notes].
  - now rewrite !last_snoc.
Qed.

Lemma saved_note (e : Env) (a : jsstring) (app : App) :
  currentNoteId app = Some a -> a <> [] -> a ∈ ids (noteManager app) ->
  saveCurrentNote e app
  = updateUI (emit [SaveToStore a (editor app)]
                (with_store
                   (updateNoteTitleFromContent e a (editor app) (noteManager app))
                   (Some a) app))
  /\ exists note,
       getNoteById a (updateNoteTitleFromContent e a (editor app) (noteManager app))
       = Some note
       /\ NoteManager.content note = editor app.
Proof.
  intros Hc Hne Ha. split.
  - unfold saveCurrentNote. rewrite Hc. now destruct a.
  - now destruct (updateNoteTitleFromContent_content e a (editor app)
                    (noteManager app) Ha) as (Hg & _).
Qed.

(** X20. A download first saves the editor to the open note, so that the
    file handed to the browser holds the text of the editor (the text
    content of its markup), not what the store held before; its name is
    the sanitized title of the saved note followed by [.txt].  A browser
    that throws before the click gets no file, but the note is saved all
    the same, and the user is told that the download failed. *)
Theorem X20_download_saves_first (e : Env) (b : BrowserOutcome) (a : jsstring)
  (app : App) :
  currentNoteId app = Some a -> a <> [] -> a ∈ ids (noteManager app) ->
  let app' := (handleFileDownload e b app).1 in
  exists note,
    getNoteById a (noteManager app') = Some note
    /\ noteManager app'
       = updateNoteTitleFromContent e a (editor app) (noteManager app)
    /\ NoteManager.content note = editor app
    /\ let exported :=
         {| exp_title := title note;
            exp_content := DOM.textContent_of_innerHTML (editor app);
            exp_filename := sanitizeFilename (title note) ++ lit ".txt" |} in
       (handleFileDownload e b app).2
       = (if b is ThrowsBeforeClick then None else Some exported)
       /\ added app app'
          = [SaveToStore a (editor app); UpdateUI;
             if b is FileSaved
             then ShowToast (download_feedback (exp_filename exported))
             else ShowErrorMessage
                    (lit "Failed to download file. Please try again.")].
Proof.
  intros Hc Hne Ha. cbv zeta.
  destruct (saved_note e a app Hc Hne Ha) as (Hsave & note & Hg & Hcontent).
  exists note. unfold handleFileDownload. rewrite Hc.
  destruct a as [|x a]; [congruence|]. cbn [is_set truthy negb].
  rewrite Hsave.
  cbn [updateUI emit with_store noteManager currentNoteId default from_option].
  unfold Datatypes.id, exportNoteAsText. rewrite Hg, Hcontent, or_else_self.
  destruct b; cbn [fst snd noteManager]; split_and!;
    try reflexivity; try exact Hg; try exact Hcontent;
    apply added_emit; cbn [fst events emit updateUI with_store];
    now rewrite <- ?app_assoc.
Qed.

Lemma X20_download_witness :
  exists note,
    getNoteById (lit "note_1_a")
      (noteManager (handleFileDownload Samples.env0 FileSaved
                      Samples.appA_edited).1) = Some note
    /\ (handleFileDownload Samples.env0 FileSaved Samples.appA_edited).2
       = Some {| exp_title := title note;
                 exp_content := lit "new";
                 exp_filename := sanitizeFilename (title note) ++ lit ".txt" |}.
Proof.
  destruct (X20_download_saves_first Samples.env0 FileSaved (lit "note_1_a")
              Samples.appA_edited) as (note & Hg & _ & _ & Hfile & _).
  - reflexivity.
  - discriminate.
  - left.
  - exists note. split; [exact Hg | exact Hfile].
Defined.

(** ** Deleting the open note, and a new note over pending edits *)

(** X21. When the open note is deleted, the first of the remaining notes
    is opened: it becomes the active and the open note, the editor is given
    its content, and the deletion is confirmed.  When no note remains, a
    new untitled note with empty content is created and opened instead, the
    editor is given an empty paragraph, and what is shown is the creation
    of the note, not the deletion. *)
Theorem X21_delete_open_note (e e' : Env) (a : jsstring) (app : App)
  (k : nat) (n : Note) :
  currentNoteId app = Some a ->
  activeNoteId (noteManager app) = Some a ->
  findIndex a (noteManager app) = Some (k, n) ->
  let app' := deleteNote e e' a app in
  match delete k (notes (noteManager app)) with
  | first :: rest =>
      id first <> [] ->
      notes (noteManager app') = first :: rest
      /\ activeNoteId (noteManager app') = Some (id first)
      /\ currentNoteId app' = Some (id first)
      /\ editor app' = NoteManager.content first
      /\ added app app'
         = [EditorSetContent (NoteManager.content first); UpdateUI;
            ShowToast (lit "Note deleted successfully!")]
  | [] =>
      exists created,
        notes (noteManager app') = [created]
        /\ id created = generateId e'
        /\ title created = lit "Untitled Note"
        /\ NoteManager.content created = []
        /\ activeNoteId (noteManager app') = Some (id created)
        /\ currentNoteId app' = Some (id created)
        /\ editor app' = lit "<p><br></p>"
        /\ added app app'
           = [EditorSetContent (lit "<p><br></p>"); UpdateUI; EditorFocus;
              ShowToast (lit "New note created!")]
  end.
Proof.
  intros Hc Hact Hf. cbv zeta. unfold deleteNote, NoteManager.deleteNote.
  rewrite Hf, Hact, Hc. rewrite decide_True by reflexivity.
  cbn [with_store currentNoteId noteManager].
  rewrite bool_decide_eq_true_2 by reflexivity.
  destruct (delete k (notes (noteManager app))) as [|first rest].
  - unfold getActiveNote. cbn [saveNotesToStorage activeNoteId].
    eexists. unfold createNewNote, createNote.
    cbn [with_store editor_setContent updateUI emit noteManager currentNoteId
         editor events saveNotesToStorage notes activeNoteId id].
    split_and!; try reflexivity.
    apply added_emit.
    unfold updateUI, editor_setContent, with_store, emit. cbn [events].
    now rewrite <- !app_assoc.
  - intros Hid. unfold getActiveNote. cbn [saveNotesToStorage activeNoteId].
    destruct (id first) as [|x i] eqn:Hi; [congruence|]. cbn [truthy].
    rewrite <- Hi.
    match goal with
    | |- context [getNoteById (id first) ?s] =>
        replace (getNoteById (id first) s) with (Some first)
          by (symmetry; apply (getNoteById_head first))
    end.
    split_and!; try reflexivity.
    apply added_emit.
    unfold updateUI, editor_setContent, with_store, emit. cbn [events].
    now rewrite <- !app_assoc.
Qed.

Lemma X21_delete_open_note_witness :
  editor (deleteNote Samples.env0 Samples.env1 (lit "note_1_a")
            Samples.appA_edited)
  = lit "<p>beta</p>".
Proof.
  refine (proj1 (proj2 (proj2 (proj2
            (X21_delete_open_note Samples.env0 Samples.env1 (lit "note_1_a")
               Samples.appA_edited 0 Samples.noteA eq_refl eq_refl eq_refl
               _))))).
  discriminate.
Defined.

Lemma saveCurrentNote_events (e : Env) (app : App) (a : jsstring) :
  currentNoteId app = Some a -> truthy a = true ->
  events (saveCurrentNote e app)
  = events app ++ [SaveToStore a (editor app); UpdateUI].
Proof.
  intros Hc Ha. unfold saveCurrentNote. rewrite Hc, Ha.
  unfold updateUI, with_store, emit. cbn [events]. now rewrite <- app_assoc.
Qed.

Lemma getNoteById_cons_other (i : jsstring) (note : Note) (l : list Note)
  (a a' : option jsstring) (ls ls' : LocalStorage) :
  id note <> i ->
  getNoteById i {| notes := note :: l; activeNoteId := a; localStorage := ls |}
  = getNoteById i {| notes := l; activeNoteId := a'; localStorage := ls' |}.
Proof.
  intros Hid. unfold getNoteById, findIndex. cbn [notes list_find].
  rewrite decide_False by exact Hid.
  now destruct (list_find _ l) as [[k n]|].
Qed.

(** X22. A new note does not save the open one first.  When a note is
    created while the editor holds edits of the open note [a] that the
    timer has not saved yet, those edits are dropped: the editor is given
    an empty paragraph, nothing is saved, and the stored note [a] is what
    it was; the pending timers are not cancelled, and a timer, when it
    runs, saves the empty paragraph to the new note and leaves [a] alone. *)
Theorem X22_new_note_drops_pending_edit (e e' : Env) (t : nat) (a : jsstring)
  (app : App) :
  currentNoteId app = Some a -> generateId e <> a ->
  let created := createNewNote e app in
  let later := autoSaveFires e' t created in
  currentNoteId created = Some (generateId e)
  /\ editor created = lit "<p><br></p>"
  /\ added app created
     = [EditorSetContent (lit "<p><br></p>"); UpdateUI; EditorFocus;
        ShowToast (lit "New note created!")]
  /\ getNoteById a (noteManager created) = getNoteById a (noteManager app)
  /\ getNoteById a (noteManager later) = getNoteById a (noteManager app)
  /\ timers created = timers app
  /\ (t ∈ timers app ->
      added created later
      = [SaveToStore (generateId e) (lit "<p><br></p>"); UpdateUI]).
Proof.
  intros Hc Hne. cbv zeta.
  assert (getNoteById a (noteManager (createNewNote e app))
          = getNoteById a (noteManager app)) as Hg.
  { unfold createNewNote, createNote.
    cbn [with_store editor_setContent updateUI emit noteManager
         saveNotesToStorage notes activeNoteId localStorage].
    destruct (noteManager app) as [l act ls]. cbn [notes].
    now apply getNoteById_cons_other. }
  split_and!; try reflexivity.
  - apply added_emit. unfold createNewNote, createNote.
    unfold updateUI, editor_setContent, with_store, emit. cbn [events].
    now rewrite <- !app_assoc.
  - exact Hg.
  - rewrite <- Hg. unfold autoSaveFires.
    destruct (bool_decide _); [|reflexivity].
    unfold saveCurrentNote. cbn [currentNoteId createNewNote createNote
      with_store editor_setContent updateUI emit fst snd id].
    change (truthy (generateId e)) with true. cbn iota.
    cbn [noteManager]. now apply updateNoteTitleFromContent_other.
  - intros Ht. unfold autoSaveFires.
    rewrite bool_decide_eq_true_2 by exact Ht.
    apply added_emit.
    now rewrite (saveCurrentNote_events e' _ (generateId e)).
Qed.

Lemma X22_new_note_witness :
  getNoteById (lit "note_1_a")
    (noteManager (autoSaveFires Samples.env1 1%nat
                    (createNewNote Samples.env0 Samples.appA_edited)))
  = getNoteById (lit "note_1_a") (noteManager Samples.appA_edited).
Proof.
  apply (X22_new_note_drops_pending_edit Samples.env0 Samples.env1 1%nat
           (lit "note_1_a") Samples.appA_edited).
  - reflexivity.
  - intros H. vm_compute in H. discriminate.
Defined.
